(** * Human-in-the-loop browser automation core

    A shallow embedding of the detector ([src/browser/detector.ts]), the
    application store ([src/db/client.ts], [src/db/schema.sql]), the notifier
    ([src/browser/notifier.ts]) and the workflow controller
    ([src/browser/automator.ts]) of the job-application copilot, with the
    properties its specification states about them.

    A page is a snapshot answering selector queries; an [async] function is
    a function from the state of the world (clock, store, notifications,
    console, queries sent to the page) to an outcome and a new state.  What
    the browser decides is given from outside: what the page shows at each
    instant, whether the navigation fails, and whether a wait is rejected
    because the tab was closed.  The calls to [logger] and the colours of
    [chalk] are left out; what the controller prints is kept, one tagged
    line per [console.log] group.

    After these come more of the store (jobs, applications by job, the user
    profile), the question types of [src/ai/prompts.ts], the command
    [startApplication] of [src/cli/apply.ts] that starts the controller, and
    the browser launcher of [src/browser/launcher.ts], with properties read
    off the code. *)

From Stdlib Require Import ZArith NArith List Bool String Ascii Lia Relations
  DecimalString.
Import ListNotations.

Open Scope string_scope.
Open Scope list_scope.

(** ** Strings of the source *)

(** The double-quote character: selectors such as [text*="EEO"] contain it. *)
Definition dq : string := String (ascii_of_nat 34) EmptyString.

(** [text*="phrase"]: Playwright's substring text selector. *)
Definition textSel (phrase : string) : string :=
  ("text*=" ++ dq ++ phrase ++ dq)%string.

(** ** The detector: [src/browser/detector.ts] *)

Module Detector.

(** [HumanStepType] of [src/types/index.ts]. *)
Inductive HumanStepType : Type :=
| captcha
| two_fa          (* '2fa' *)
| file_upload
| consent
| unknown.

Definition HumanStepType_eqb (a b : HumanStepType) : bool :=
  match a, b with
  | captcha, captcha | two_fa, two_fa | file_upload, file_upload
  | consent, consent | unknown, unknown => true
  | _, _ => false
  end.

(** The string a [HumanStepType] is at run time. *)
Definition typeName (t : HumanStepType) : string :=
  match t with
  | captcha => "captcha"
  | two_fa => "2fa"
  | file_upload => "file_upload"
  | consent => "consent"
  | unknown => "unknown"
  end.

(** [interface DetectionResult]; [element] is optional in the source. *)
Record DetectionResult : Type := mkDetection {
  detected : bool;
  type : HumanStepType;
  description : string;
  element : option string
}.

(** *** The page, as the detector sees it

    One detection cycle reads a snapshot of the DOM through two kinds of
    query, each a promise of a count that may reject ([None]):
    [page.locator(sel).count()] and
    [page.frameLocator(sel).first().locator('body').count()]. *)
Record Page : Type := mkPage {
  locatorCount : string -> option nat;
  frameBodyCount : string -> option nat
}.

(** The queries a cycle issues, in order. *)
Inductive Query : Type :=
| QLocator (selector : string)
| QFrameBody (frameSelector : string).

(** A computation that queries the page and records what it asked. *)
Definition Probe (A : Type) : Type := Page -> A * list Query.

Definition ret {A : Type} (a : A) : Probe A := fun _ => (a, []).

Definition bind {A B : Type} (m : Probe A) (k : A -> Probe B) : Probe B :=
  fun p => let '(a, q1) := m p in
           let '(b, q2) := k a p in
           (b, q1 ++ q2).

#[local] Notation "x <- m ;; k" := (bind m (fun x => k))
  (at level 61, m at next level, right associativity).

(** [.catch(() => 0)]: a rejected count reads as zero. *)
Definition catch0 (r : option nat) : nat :=
  match r with Some n => n | None => 0 end.

(** [await page.locator(selector).count().catch(() => 0)] *)
Definition countLocator (selector : string) : Probe nat :=
  fun p => (catch0 (locatorCount p selector), [QLocator selector]).

(** [await page.frameLocator(sel).first().locator('body').count()
           .catch(() => 0)] *)
Definition countFrameBody (frameSelector : string) : Probe nat :=
  fun p =>
    (catch0 (frameBodyCount p frameSelector), [QFrameBody frameSelector]).

(** [for (const selector of selectors) { body }], where the body may return
    from the enclosing function ([Some r]) or fall through ([None]). *)
Fixpoint forSelectors (body : string -> Probe (option DetectionResult))
    (selectors : list string) : Probe (option DetectionResult) :=
  match selectors with
  | [] => ret None
  | selector :: rest =>
      r <- body selector ;;
      match r with
      | Some d => ret (Some d)
      | None => forSelectors body rest
      end
  end.

(** [{ detected: false, type: t, description: '' }] *)
Definition notDetected (t : HumanStepType) : DetectionResult :=
  mkDetection false t "" None.

Definition recaptchaFrame : string :=
  "iframe[src*=" ++ dq ++ "recaptcha" ++ dq ++ "]".

Definition hcaptchaFrame : string :=
  "iframe[src*=" ++ dq ++ "hcaptcha" ++ dq ++ "]".

Definition captchaKeywords : list string :=
  [ textSel "I'm not a robot";
    textSel "Verify you are human";
    textSel "Complete the CAPTCHA";
    textSel "Security check";
    "[class*=" ++ dq ++ "captcha" ++ dq ++ " i]";
    "[id*=" ++ dq ++ "captcha" ++ dq ++ " i]" ]%string.

(** [detectCaptcha].  Every awaited count carries its own [.catch], so the
    outer [try]/[catch] of the source has nothing to catch. *)
Definition detectCaptcha : Probe DetectionResult :=
  recaptchaVisible <- countFrameBody recaptchaFrame ;;
  if (0 <? recaptchaVisible)%nat then
    ret (mkDetection true captcha "reCAPTCHA verification required"
           (Some recaptchaFrame))
  else
    hcaptchaVisible <- countFrameBody hcaptchaFrame ;;
    if (0 <? hcaptchaVisible)%nat then
      ret (mkDetection true captcha "hCaptcha verification required"
             (Some hcaptchaFrame))
    else
      r <- forSelectors (fun selector =>
             count <- countLocator selector ;;
             if (0 <? count)%nat then
               ret (Some (mkDetection true captcha
                            "CAPTCHA verification required" (Some selector)))
             else ret None) captchaKeywords ;;
      match r with
      | Some d => ret d
      | None => ret (notDetected captcha)
      end.

Definition twoFAKeywords : list string :=
  [ textSel "verification code";
    textSel "Enter the code";
    textSel "Two-factor authentication";
    textSel "2FA";
    textSel "authenticator";
    textSel "security code";
    "input[type=" ++ dq ++ "text" ++ dq ++ "][autocomplete*="
      ++ dq ++ "one-time" ++ dq ++ "]";
    "input[placeholder*=" ++ dq ++ "code" ++ dq ++ " i]";
    "input[placeholder*=" ++ dq ++ "OTP" ++ dq ++ " i]" ]%string.

(** [detect2FA] *)
Definition detect2FA : Probe DetectionResult :=
  r <- forSelectors (fun selector =>
         count <- countLocator selector ;;
         if (0 <? count)%nat then
           ret (Some (mkDetection true two_fa
                  "Two-factor authentication or verification code required"
                  (Some selector)))
         else ret None) twoFAKeywords ;;
  match r with
  | Some d => ret d
  | None => ret (notDetected two_fa)
  end.

Definition visibleFileInput : string :=
  "input[type=" ++ dq ++ "file" ++ dq ++ "]:visible".

Definition uploadLabels : list string :=
  [ textSel "Upload resume";
    textSel "Upload CV";
    textSel "Attach resume";
    textSel "Choose file" ].

(** [detectFileUpload] *)
Definition detectFileUpload : Probe DetectionResult :=
  fileInputs <- countLocator visibleFileInput ;;
  if (0 <? fileInputs)%nat then
    r <- forSelectors (fun selector =>
           count <- countLocator selector ;;
           if (0 <? count)%nat then
             ret (Some (mkDetection true file_upload
                    "File upload required (resume/CV or document)"
                    (Some selector)))
           else ret None) uploadLabels ;;
    match r with
    | Some d => ret d
    | None => ret (notDetected file_upload)
    end
  else ret (notDetected file_upload).

Definition consentKeywords : list string :=
  [ textSel "Equal Employment Opportunity";
    textSel "EEO";
    textSel "Voluntary Self-Identification";
    textSel "Demographics";
    textSel "I consent to";
    textSel "I agree to";
    textSel "Terms and Conditions";
    textSel "Privacy Policy" ].

Definition uncheckedCheckbox : string :=
  "input[type=" ++ dq ++ "checkbox" ++ dq ++ "]:not(:checked)".

(** [detectConsent] *)
Definition detectConsent : Probe DetectionResult :=
  r <- forSelectors (fun selector =>
         count <- countLocator selector ;;
         if (0 <? count)%nat then
           checkboxes <- countLocator uncheckedCheckbox ;;
           if (0 <? checkboxes)%nat then
             ret (Some (mkDetection true consent
                    "Consent or EEO form requires review and confirmation"
                    (Some selector)))
           else ret None
         else ret None) consentKeywords ;;
  match r with
  | Some d => ret d
  | None => ret (notDetected consent)
  end.

(** [detectHumanStep]: [null] is [None]. *)
Definition detectHumanStep : Probe (option DetectionResult) :=
  captchaResult <- detectCaptcha ;;
  if detected captchaResult then ret (Some captchaResult)
  else
    twoFAResult <- detect2FA ;;
    if detected twoFAResult then ret (Some twoFAResult)
    else
      fileUploadResult <- detectFileUpload ;;
      if detected fileUploadResult then ret (Some fileUploadResult)
      else
        consentResult <- detectConsent ;;
        if detected consentResult then ret (Some consentResult)
        else ret None.

(** *** Pages used as examples *)

(** A page on which every query finds nothing. *)
Definition blankPage : Page := mkPage (fun _ => Some 0) (fun _ => Some 0).

(** A page given by the selectors that match once and the frames present. *)
Definition pageOf (selectors frames : list string) : Page :=
  mkPage (fun s => Some (if existsb (String.eqb s) selectors then 1 else 0))
         (fun s => Some (if existsb (String.eqb s) frames then 1 else 0)).

End Detector.
(** ** The application store: [src/db/client.ts] over [src/db/schema.sql] *)

Module Store.

(** [ApplicationStatus] *)
Inductive ApplicationStatus : Type :=
| queued | in_progress | paused | completed | failed.

(** [StepType] *)
Inductive StepType : Type :=
| navigation | form_fill | human_step_detected | human_step_resolved
| draft_generated | answer_inserted | submission | error.

(** The members of [ActionType] and [EntityType] the controller uses are
    among these. *)
Inductive ActionType : Type :=
| job_sync | job_queue | draft_generate | application_start
| human_step_pause | human_step_resume | answer_insert
| submission_confirm | submission_cancel
| profile_create | profile_update | profile_export.

Inductive EntityType : Type :=
| entity_job | entity_application | entity_source | entity_profile.

(** A timestamp is what [CURRENT_TIMESTAMP] yields: whole seconds. *)
Definition Timestamp : Type := Z.

(** A row of [applications]. *)
Record Application : Type := mkApplication {
  app_id : Z;
  job_id : Z;
  status : ApplicationStatus;
  startedAt : option Timestamp;
  completedAt : option Timestamp;
  notes : option string
}.

(** [Record<string, unknown>] as the controller fills it: string fields. *)
Definition Metadata : Type := list (string * string).

(** A row of [application_steps]. *)
Record ApplicationStep : Type := mkStep {
  step_id : Z;
  application_id : Z;
  stepType : StepType;
  step_description : string;
  timestamp : Timestamp;
  metadata : Metadata
}.

(** A row of [audit_log]. *)
Record AuditLog : Type := mkAudit {
  audit_id : Z;
  audit_timestamp : Timestamp;
  actionType : ActionType;
  entityType : EntityType;
  entityId : option Z;
  userConfirmed : bool;
  audit_metadata : Metadata
}.

Record Database : Type := mkDatabase {
  applications : list Application;
  application_steps : list ApplicationStep;
  audit_log : list AuditLog
}.

(** What a statement of the store yields: a value, or the message of the
    [SqliteError] it throws. *)
Inductive Result (A : Type) : Type :=
| Ok (a : A)
| SqliteError (message : string).
Arguments Ok {A} a.
Arguments SqliteError {A} message.

(** [SELECT * FROM applications WHERE id = ?] *)
Definition getApplicationById (id : Z) (d : Database) : option Application :=
  find (fun a => (app_id a =? id)%Z) (applications d).

(** [COALESCE(started_at, CURRENT_TIMESTAMP)] *)
Definition coalesce (old : option Timestamp) (now : Timestamp)
  : option Timestamp :=
  match old with Some t => Some t | None => Some now end.

(** The [SET] clause [updateApplicationStatus] builds, applied to one row. *)
Definition setStatus (now : Timestamp) (s : ApplicationStatus)
    (a : Application) : Application :=
  match s with
  | in_progress | paused =>
      mkApplication (app_id a) (job_id a) s
        (coalesce (startedAt a) now) (completedAt a) (notes a)
  | completed | failed =>
      mkApplication (app_id a) (job_id a) s
        (startedAt a) (Some now) (notes a)
  | queued =>
      mkApplication (app_id a) (job_id a) s
        (startedAt a) (completedAt a) (notes a)
  end.

(** [updateApplicationStatus]: [UPDATE applications SET ... WHERE id = ?]
    run at time [now]. *)
Definition updateApplicationStatus (now : Timestamp) (id : Z)
    (s : ApplicationStatus) (d : Database) : Database :=
  mkDatabase
    (map (fun a => if (app_id a =? id)%Z then setStatus now s a else a)
         (applications d))
    (application_steps d) (audit_log d).

(** The rowid an [AUTOINCREMENT] table hands out next. *)
Definition nextId (ids : list Z) : Z := Z.succ (fold_right Z.max 0%Z ids).

(** [addApplicationStep].  Foreign keys are on ([pragma foreign_keys = ON])
    and [application_id] references [applications(id)], so the insert throws
    when no such application exists. *)
Definition addApplicationStep (now : Timestamp) (application : Z)
    (t : StepType) (descr : string) (meta : Metadata) (d : Database)
  : Result ApplicationStep * Database :=
  if existsb (fun a => (app_id a =? application)%Z) (applications d) then
    let row := mkStep (nextId (map step_id (application_steps d)))
                 application t descr now meta in
    (Ok row,
     mkDatabase (applications d) (application_steps d ++ [row]) (audit_log d))
  else (SqliteError "FOREIGN KEY constraint failed", d).

(** [addAuditLog]: [audit_log] has no foreign key. *)
Definition addAuditLog (now : Timestamp) (action : ActionType)
    (entity : EntityType) (entity_id : option Z) (confirmed : bool)
    (meta : Metadata) (d : Database) : Result AuditLog * Database :=
  let row := mkAudit (nextId (map audit_id (audit_log d))) now
               action entity entity_id confirmed meta in
  (Ok row,
   mkDatabase (applications d) (application_steps d) (audit_log d ++ [row])).

End Store.

(** ** The running system: clock, browser, store, notifier, console *)

Module Runtime.
Import Detector Store.

(** What [notifier.notify] is handed. *)
Record Notification : Type := mkNotification {
  title : string;
  body : string;
  sound : bool
}.

(** What the controller prints, one constructor per [console.log] group. *)
Inductive ConsoleLine : Type :=
| LineOpeningPage          (* "Opening application page..." *)
| LineWaitingForLoad       (* "Waiting for page to load completely..." *)
| LineLoop (loopCount : nat)
                           (* "[Loop n] Checking for human steps..." *)
| LineHumanStepDetected (t : HumanStepType) (descr : string)
                           (* "Human step detected: TYPE" and description *)
| LineInstructions (t : HumanStepType) (descr : string)
                           (* what [displayHumanStepInstructions] prints *)
| LineWaitingForYou        (* "Waiting for you to complete the step..." *)
| LineTimeout              (* "Timeout waiting for human step resolution" *)
| LineResolved             (* "Human step resolved! Continuing..." *)
| LineNoHumanSteps         (* "No human steps detected, ..." and its hints *)
| LineMonitoringComplete.  (* "Application workflow monitoring complete" *)

(** What the program does not control: the page over time, how long the
    browser takes, whether navigation fails, whether a wait is cut short
    (the tab, the context or the browser is closed), and the notifier's
    settings. *)
Record Env : Type := mkEnv {
  pageAt : Z -> Page;                  (* the DOM at each instant, in ms *)
  detectMs : nat;                      (* duration of one detection cycle *)
  gotoMs : nat;                        (* duration of [page.goto] *)
  gotoError : string -> option string; (* the error [page.goto(url)] rejects with *)
  (* whether [page.waitForTimeout], called at an instant, rejects: after how
     many ms, and with what message *)
  waitError : Z -> option (nat * string);
  notificationsEnabled : bool;         (* [config.notifications.enabled] *)
  notifierThrows : bool                (* [notifier.notify] throws *)
}.

(** What the program changes or reads as it runs. *)
Record World : Type := mkWorld {
  now : Z;                             (* [Date.now()], in ms *)
  db : Database;
  delivered : list Notification;       (* desktop notifications shown *)
  console : list ConsoleLine;
  queries : list Query                 (* every query sent to the page *)
}.

Definition advance (ms : Z) (w : World) : World :=
  mkWorld (now w + ms) (db w) (delivered w) (console w) (queries w).

Definition setDb (d : Database) (w : World) : World :=
  mkWorld (now w) d (delivered w) (console w) (queries w).

Definition deliver (n : Notification) (w : World) : World :=
  mkWorld (now w) (db w) (delivered w ++ [n]) (console w) (queries w).

Definition print (l : ConsoleLine) (w : World) : World :=
  mkWorld (now w) (db w) (delivered w) (console w ++ [l]) (queries w).

Definition asked (qs : list Query) (w : World) : World :=
  mkWorld (now w) (db w) (delivered w) (console w) (queries w ++ qs).

(** A thrown value: an [Error] with its message, or anything else with its
    [String(...)]. *)
Inductive Thrown : Type :=
| JsError (message : string)
| NonError (text : string).

(** How an [async] function ends.  [OutOfFuel] is the model's own: a loop
    was cut short by its bound on unfoldings. *)
Inductive Outcome (A : Type) : Type :=
| Returned (a : A)
| Threw (e : Thrown)
| OutOfFuel.
Arguments Returned {A} a.
Arguments Threw {A} e.
Arguments OutOfFuel {A}.

Definition Async (A : Type) : Type := World -> Outcome A * World.

Definition resolve {A : Type} (a : A) : Async A := fun w => (Returned a, w).

Definition throw {A : Type} (e : Thrown) : Async A := fun w => (Threw e, w).

Definition andThen {A B : Type} (m : Async A) (k : A -> Async B) : Async B :=
  fun w =>
    match m w with
    | (Returned a, w') => k a w'
    | (Threw e, w') => (Threw e, w')
    | (OutOfFuel, w') => (OutOfFuel, w')
    end.

(** [try { body } catch (error) { handler }] *)
Definition tryCatch {A : Type} (body : Async A) (handler : Thrown -> Async A)
  : Async A :=
  fun w =>
    match body w with
    | (Threw e, w') => handler e w'
    | r => r
    end.

Notation "x <- m ;; k" := (andThen m (fun x => k))
  (at level 61, m at next level, right associativity).
Notation "m ;; k" := (andThen m (fun _ => k))
  (at level 61, right associativity).

(** [Date.now()] *)
Definition dateNow : Async Z := fun w => (Returned (now w), w).

(** [await page.waitForTimeout(ms)]: it resolves after [ms] milliseconds,
    or rejects before that. *)
Definition waitForTimeout (env : Env) (ms : Z) : Async unit :=
  fun w =>
    match waitError env (now w) with
    | Some (after, m) =>
        (Threw (JsError m), advance (Z.min (Z.of_nat after) ms) w)
    | None => (Returned tt, advance ms w)
    end.

(** [console.log(...)] *)
Definition consoleLog (l : ConsoleLine) : Async unit :=
  fun w => (Returned tt, print l w).

(** [await detectHumanStep(page)]: one cycle over the page as it is now. *)
Definition awaitDetectHumanStep (env : Env)
  : Async (option DetectionResult) :=
  fun w =>
    let '(r, qs) := detectHumanStep (pageAt env (now w)) in
    (Returned r, advance (Z.of_nat (detectMs env)) (asked qs w)).

(** [CURRENT_TIMESTAMP] *)
Definition currentTimestamp (w : World) : Timestamp := (now w / 1000)%Z.

(** [updateApplicationStatus(id, status)] *)
Definition dbUpdateApplicationStatus (id : Z) (s : ApplicationStatus)
  : Async unit :=
  fun w =>
    (Returned tt,
     setDb (updateApplicationStatus (currentTimestamp w) id s (db w)) w).

(** [addApplicationStep(id, stepType, description, metadata)] *)
Definition dbAddApplicationStep (id : Z) (t : StepType) (descr : string)
    (meta : Metadata) : Async ApplicationStep :=
  fun w =>
    match addApplicationStep (currentTimestamp w) id t descr meta (db w) with
    | (Ok row, d) => (Returned row, setDb d w)
    | (SqliteError m, d) => (Threw (JsError m), setDb d w)
    end.

(** [audit(...)] of [src/utils/audit.ts]: a failed write is logged, not
    thrown. *)
Definition audit (action : ActionType) (entity : EntityType)
    (entity_id : option Z) (confirmed : bool) (meta : Metadata) : Async unit :=
  fun w =>
    match addAuditLog (currentTimestamp w) action entity entity_id confirmed
            meta (db w) with
    | (Ok _, d) => (Returned tt, setDb d w)
    | (SqliteError _, _) => (Returned tt, w)
    end.

(** *** The notifier: [src/browser/notifier.ts] *)

Definition nl : string := String (ascii_of_nat 10) EmptyString.

(** [sendNotification] *)
Definition sendNotification (env : Env) (t message : string)
    (playSound : bool) : Async unit :=
  fun w =>
    if notificationsEnabled env then
      if notifierThrows env then (Returned tt, w)
      else (Returned tt, deliver (mkNotification t message playSound) w)
    else (Returned tt, w).

(** [notifyHumanStepDetected] *)
Definition notifyHumanStepDetected (env : Env) (t : HumanStepType)
    (descr : string) : Async unit :=
  let t_title :=
    match t with
    | captcha => "🤖 CAPTCHA Detected"
    | two_fa => "🔐 Verification Required"
    | file_upload => "📎 File Upload Needed"
    | consent => "✅ Consent Required"
    | unknown => "⚠️ Action Required"
    end in
  let instruction :=
    match t with
    | captcha => "Please solve the CAPTCHA in the browser window"
    | two_fa => "Please enter your verification code in the browser"
    | file_upload => "Please upload the required file in the browser"
    | consent => "Please review and check the consent boxes"
    | unknown => "Please complete the required action in the browser"
    end in
  sendNotification env t_title (descr ++ nl ++ nl ++ instruction)%string true.

(** [notifyApplicationProgress] *)
Definition notifyApplicationProgress (env : Env)
    (jobTitle company st : string) : Async unit :=
  sendNotification env "📝 Application Progress"
    (jobTitle ++ " at " ++ company ++ nl ++ "Status: " ++ st)%string false.

(** [notifyApplicationComplete] *)
Definition notifyApplicationComplete (env : Env) (jobTitle company : string)
    (ok : bool) : Async unit :=
  sendNotification env
    (if ok then "✅ Application Complete" else "❌ Application Failed")
    (jobTitle ++ " at " ++ company)%string true.

(** *** The browser: [navigateToUrl] of [src/browser/launcher.ts] *)

Definition navigateToUrl (env : Env) (url : string) : Async unit :=
  fun w =>
    let w1 := advance (Z.of_nat (gotoMs env)) w in
    match gotoError env url with
    | Some m => (Threw (JsError m), w1)
    | None => waitForTimeout env 2000 w1
    end.

(** *** The resolution waiter: [waitForHumanStepResolution] *)

(** [!currentResult || currentResult.type !== detectionResult.type] *)
Definition resolvedBy (detectionResult : DetectionResult)
    (currentResult : option DetectionResult) : bool :=
  match currentResult with
  | None => true
  | Some c => negb (HumanStepType_eqb (type c) (type detectionResult))
  end.

(** The [while] loop of the waiter, unfolded at most [fuel] times. *)
Fixpoint waitLoop (fuel : nat) (env : Env) (detectionResult : DetectionResult)
    (startTime timeoutMs : Z) : Async bool :=
  match fuel with
  | O => fun w => (OutOfFuel, w)
  | S fuel' =>
      t <- dateNow ;;
      if (t - startTime <? timeoutMs)%Z then
        currentResult <- awaitDetectHumanStep env ;;
        if resolvedBy detectionResult currentResult then resolve true
        else
          waitForTimeout env 2000 ;;
          waitLoop fuel' env detectionResult startTime timeoutMs
      else resolve false
  end.

(** Every turn of the loop takes at least the 2000 ms of its wait, so this
    many unfoldings see the deadline pass. *)
Definition waitFuel (timeoutMs : Z) : nat := Z.to_nat (timeoutMs / 2000) + 2.

Definition defaultTimeoutMs : Z := 300000.

Definition waitForHumanStepResolution (env : Env)
    (detectionResult : DetectionResult) (timeoutMs : Z) : Async bool :=
  startTime <- dateNow ;;
  waitLoop (waitFuel timeoutMs) env detectionResult startTime timeoutMs.

End Runtime.

(** ** The workflow controller: [src/browser/automator.ts] *)

Module Automator.
Import Detector Store Runtime.

(** [interface ApplicationContext] *)
Record ApplicationContext : Type := mkContext {
  applicationId : Z;
  jobId : Z;
  jobUrl : string;
  jobTitle : string;
  jobCompany : string
}.

(** [{ success: boolean; message: string }] *)
Record WorkflowResult : Type := mkResult {
  success : bool;
  message : string
}.

Definition maxLoops : nat := 20.

(** [{ type: humanStep.type, element: humanStep.element }] *)
Definition detectionMetadata (humanStep : DetectionResult) : Metadata :=
  ("type", typeName (type humanStep)) ::
  match element humanStep with
  | Some e => [("element", e)]
  | None => []
  end.

(** The main application loop, unfolded at most [fuel] times.  [Some r] is a
    [return r] from inside the loop, [None] is leaving the loop. *)
Fixpoint mainLoop (fuel : nat) (env : Env) (context : ApplicationContext)
    (continueApplication : bool) (loopCount : nat)
  : Async (option WorkflowResult) :=
  match fuel with
  | O => fun w => (OutOfFuel, w)
  | S fuel' =>
      if continueApplication && (loopCount <? maxLoops)%nat then
        let loopCount := S loopCount in
        consoleLog (LineLoop loopCount) ;;
        humanStep <- awaitDetectHumanStep env ;;
        match humanStep with
        | Some humanStep =>
            consoleLog (LineHumanStepDetected (type humanStep)
                          (description humanStep)) ;;
            dbAddApplicationStep (applicationId context) human_step_detected
              (typeName (type humanStep) ++ ": " ++ description humanStep)%string
              (detectionMetadata humanStep) ;;
            dbUpdateApplicationStatus (applicationId context) paused ;;
            notifyHumanStepDetected env (type humanStep)
              (description humanStep) ;;
            audit human_step_pause entity_application
              (Some (applicationId context)) false
              [("stepType", typeName (type humanStep));
               ("description", description humanStep)] ;;
            consoleLog (LineInstructions (type humanStep)
                          (description humanStep)) ;;
            consoleLog LineWaitingForYou ;;
            resolved <- waitForHumanStepResolution env humanStep
                          defaultTimeoutMs ;;
            if negb resolved then
              consoleLog LineTimeout ;;
              dbUpdateApplicationStatus (applicationId context) paused ;;
              resolve (Some (mkResult false
                ("Timeout waiting for " ++ typeName (type humanStep)
                 ++ " resolution")%string))
            else
              consoleLog LineResolved ;;
              dbAddApplicationStep (applicationId context) human_step_resolved
                (typeName (type humanStep) ++ " resolved")%string [] ;;
              dbUpdateApplicationStatus (applicationId context) in_progress ;;
              audit human_step_resume entity_application
                (Some (applicationId context)) true
                [("stepType", typeName (type humanStep))] ;;
              waitForTimeout env 2000 ;;
              mainLoop fuel' env context continueApplication loopCount
        | None =>
            consoleLog LineNoHumanSteps ;;
            mainLoop fuel' env context false loopCount
        end
      else resolve None
  end.

(** The [try] block of [runApplicationWorkflow]. *)
Definition workflowBody (env : Env) (context : ApplicationContext)
  : Async WorkflowResult :=
  dbUpdateApplicationStatus (applicationId context) in_progress ;;
  dbAddApplicationStep (applicationId context) navigation
    ("Navigating to " ++ jobUrl context)%string [] ;;
  consoleLog LineOpeningPage ;;
  navigateToUrl env (jobUrl context) ;;
  notifyApplicationProgress env (jobTitle context) (jobCompany context)
    "Page loaded" ;;
  consoleLog LineWaitingForLoad ;;
  waitForTimeout env 3000 ;;
  returned <- mainLoop (S maxLoops) env context true 0 ;;
  match returned with
  | Some r => resolve r
  | None =>
      consoleLog LineMonitoringComplete ;;
      dbAddApplicationStep (applicationId context) submission
        "Application workflow completed (manual submission required)" [] ;;
      dbUpdateApplicationStatus (applicationId context) completed ;;
      notifyApplicationComplete env (jobTitle context) (jobCompany context)
        true ;;
      resolve (mkResult true "Application workflow completed successfully")
  end.

(** The [catch] block of [runApplicationWorkflow]. *)
Definition workflowHandler (env : Env) (context : ApplicationContext)
    (e : Thrown) : Async WorkflowResult :=
  dbAddApplicationStep (applicationId context) error
    ("Error: " ++ match e with JsError m => m | NonError t => t end)%string
    [] ;;
  dbUpdateApplicationStatus (applicationId context) failed ;;
  notifyApplicationComplete env (jobTitle context) (jobCompany context)
    false ;;
  resolve (mkResult false
             match e with JsError m => m | NonError _ => "Unknown error" end).

(** [runApplicationWorkflow] *)
Definition runApplicationWorkflow (env : Env) (context : ApplicationContext)
  : Async WorkflowResult :=
  tryCatch (workflowBody env context) (workflowHandler env context).

End Automator.

Import Detector Store Runtime Automator.

(** * Vocabulary of the properties *)

(** ** Of the detector *)

(** What a locator query counts on a page, a rejected query counting zero. *)
Definition hits (p : Page) (selector : string) : bool :=
  (0 <? catch0 (locatorCount p selector))%nat.

Definition frameHits (p : Page) (frameSelector : string) : bool :=
  (0 <? catch0 (frameBodyCount p frameSelector))%nat.

(** The keyword loops of [detectCaptcha], [detect2FA] and [detectFileUpload]
    share one body, up to the result they build. *)
Definition keywordBody (mk : string -> DetectionResult) (selector : string)
  : Probe (option DetectionResult) :=
  bind (countLocator selector) (fun count =>
    if (0 <? count)%nat then ret (Some (mk selector)) else ret None).

(** A keyword loop followed by the "nothing found" result. *)
Definition scanKeywords (mk : string -> DetectionResult) (t : HumanStepType)
    (selectors : list string) : Probe DetectionResult :=
  bind (forSelectors (keywordBody mk) selectors) (fun r =>
    match r with
    | Some d => ret d
    | None => ret (notDetected t)
    end).

Definition captchaHit (selector : string) : DetectionResult :=
  mkDetection true captcha "CAPTCHA verification required" (Some selector).

Definition twoFAHit (selector : string) : DetectionResult :=
  mkDetection true two_fa
    "Two-factor authentication or verification code required" (Some selector).

Definition uploadHit (selector : string) : DetectionResult :=
  mkDetection true file_upload
    "File upload required (resume/CV or document)" (Some selector).

Definition consentHit (selector : string) : DetectionResult :=
  mkDetection true consent
    "Consent or EEO form requires review and confirmation" (Some selector).

(** The body of the loop of [detectConsent]. *)
Definition consentBody (selector : string) : Probe (option DetectionResult) :=
  bind (countLocator selector) (fun count =>
    if (0 <? count)%nat then
      bind (countLocator uncheckedCheckbox) (fun checkboxes =>
        if (0 <? checkboxes)%nat then ret (Some (consentHit selector))
        else ret None)
    else ret None).


Definition framePresent (p : Page) (frameSelector : string) : Prop :=
  exists n, frameBodyCount p frameSelector = Some (S n).




(** The place of a category in the order of the checks. *)
Definition rank (t : HumanStepType) : nat :=
  match t with
  | captcha => 0 | two_fa => 1 | file_upload => 2 | consent => 3
  | unknown => 4
  end.

Definition inList (s : string) (l : list string) : bool :=
  existsb (String.eqb s) l.

(** The check a query belongs to. *)
Definition queryCategory (q : Query) : option HumanStepType :=
  match q with
  | QFrameBody f =>
      if inList f [recaptchaFrame; hcaptchaFrame] then Some captcha else None
  | QLocator s =>
      if inList s captchaKeywords then Some captcha
      else if inList s twoFAKeywords then Some two_fa
      else if inList s (visibleFileInput :: uploadLabels)
           then Some file_upload
      else if inList s (uncheckedCheckbox :: consentKeywords)
           then Some consent
      else None
  end.

(** All queries of a trace belong to the check [t]. *)
Definition allOf (t : HumanStepType) (qs : list Query) : Prop :=
  Forall (fun q => queryCategory q = Some t) qs.

(** ** Of the resolution waiter *)

(** The time from one poll to the next: the detection cycle and the 2000 ms
    wait after it. *)
Definition period (env : Env) : Z := 2000 + Z.of_nat (detectMs env).

(** What a poll at the instant [t] reports: the detector's result on the
    page as it is then. *)
Definition pollAt (env : Env) (t : Z) : option DetectionResult :=
  fst (detectHumanStep (pageAt env t)).

(** A poll at [t] still reports the category of [prev]. *)
Definition pendingAt (env : Env) (prev : DetectionResult) (t : Z) : Prop :=
  exists c, pollAt env t = Some c /\ type c = type prev.

(** A poll at [t] reports no detection, or a category other than that of
    [prev]. *)
Definition clearedAt (env : Env) (prev : DetectionResult) (t : Z) : Prop :=
  pollAt env t = None \/
  exists c, pollAt env t = Some c /\ type c <> type prev.

(** For a waiter called at [t0]: the instant of its [j]-th poll (from 0),
    and the instant at which the 2000 ms wait after that poll starts. *)
Definition pollTime (env : Env) (t0 : Z) (j : nat) : Z :=
  t0 + Z.of_nat j * period env.

Definition waitTime (env : Env) (t0 : Z) (j : nat) : Z :=
  pollTime env t0 j + Z.of_nat (detectMs env).

(** The [j]-th poll still reports the category and the wait after it runs
    its 2000 ms. *)
Definition pollsOn (env : Env) (prev : DetectionResult) (t0 : Z) (j : nat)
  : Prop :=
  pendingAt env prev (pollTime env t0 j) /\
  waitError env (waitTime env t0 j) = None.

(** [e] is the error of a wait that the browser rejects, started no earlier
    than in [w]. *)
Definition rejectedWait (env : Env) (w : World) (e : Thrown) : Prop :=
  exists t d m,
    (now w <= t)%Z /\ waitError env t = Some (d, m) /\ e = JsError m.

(** How an [async] function that waits may end when called in [w]: with a
    value, or with the error of a rejected wait. *)
Definition waiterEnds {A : Type} (env : Env) (w : World) (o : Outcome A)
  : Prop :=
  match o with
  | Returned _ => True
  | Threw e => rejectedWait env w e
  | OutOfFuel => False
  end.

(** What the waiter leaves alone. *)
Definition sameOutside (w w' : World) : Prop :=
  db w' = db w /\ delivered w' = delivered w /\ console w' = console w.

(** The number of polls a waiter makes when none resolves: the least [n]
    with [T <= n * period]. *)
Definition pollsBeforeDeadline (env : Env) (T : Z) : nat :=
  if (T <=? 0)%Z then 0 else Z.to_nat ((T - 1) / period env) + 1.

(** ** Of the application store *)

(** One call of [updateApplicationStatus]: when, on which row, to what. *)
Definition StatusCall : Type := (Timestamp * Z * ApplicationStatus)%type.

(** A sequence of calls, run in order. *)
Definition runCalls (calls : list StatusCall) (d : Database) : Database :=
  fold_left
    (fun d c => updateApplicationStatus (fst (fst c)) (snd (fst c)) (snd c) d)
    calls d.

Definition startsRun (s : ApplicationStatus) : bool :=
  match s with in_progress | paused => true | _ => false end.

Definition endsRun (s : ApplicationStatus) : bool :=
  match s with completed | failed => true | _ => false end.

(** The calls among [calls] that are on row [id] and whose status satisfies
    [f], as the times they were made at. *)
Definition timesOf (f : ApplicationStatus -> bool) (id : Z)
    (calls : list StatusCall) : list Timestamp :=
  map (fun c => fst (fst c))
    (filter (fun c => (snd (fst c) =? id)%Z && f (snd c)) calls).

(** What a sequence of calls makes of the row [id]. *)
Definition rowAfter (id : Z) (calls : list StatusCall) (a : Application)
  : Application :=
  fold_left
    (fun a c => if (id =? snd (fst c))%Z
                then setStatus (fst (fst c)) (snd c) a else a)
    calls a.

(** Whether [applications] has a row [id]. *)
Definition hasApplication (id : Z) (d : Database) : bool :=
  existsb (fun a => (app_id a =? id)%Z) (applications d).

(** ** Of the workflow controller *)

Definition isLoopLine (l : ConsoleLine) : bool :=
  match l with LineLoop _ => true | _ => false end.

Definition isTimeoutLine (l : ConsoleLine) : bool :=
  match l with LineTimeout => true | _ => false end.

(** How many turns of the main loop the console shows: each turn prints its
    [LineLoop] first. *)
Definition loops (w : World) : nat :=
  List.length (filter isLoopLine (console w)).

(** How many times the console shows the waiter to have timed out: the
    controller prints [LineTimeout] exactly where [resolved] is false. *)
Definition timeouts (w : World) : nat :=
  List.length (filter isTimeoutLine (console w)).

(** What the proofs below read off a world: the rows of [applications] and
    [application_steps], and the console. *)
Definition apps (w : World) : list Application := applications (db w).

Definition steps (w : World) : list ApplicationStep :=
  application_steps (db w).

(** A step that leaves all three alone. *)
Definition untouched (w w' : World) : Prop :=
  apps w' = apps w /\ steps w' = steps w /\ console w' = console w.

(** [hasApplication] and the status of a run, read off the rows. *)
Definition hasApp (id : Z) (w : World) : bool :=
  existsb (fun a => (app_id a =? id)%Z) (apps w).

Definition statusOf (id : Z) (w : World) : option ApplicationStatus :=
  option_map status (find (fun a => (app_id a =? id)%Z) (apps w)).

(** What the controller returns when the waiter times out on [hs]. *)
Definition timeoutResult (hs : DetectionResult) : WorkflowResult :=
  mkResult false
    ("Timeout waiting for " ++ typeName (type hs) ++ " resolution").

(** The state a timed-out wait on [hs] leaves: status [paused], the
    [human_step_detected] step of [hs] the last step written, the timeout
    line the last line printed. *)
Definition pausedOn (context : ApplicationContext) (hs : DetectionResult)
    (w' : World) : Prop :=
  exists earlier step pre,
    statusOf (applicationId context) w' = Some paused /\
    steps w' = earlier ++ [step] /\
    stepType step = human_step_detected /\
    application_id step = applicationId context /\
    step_description step
      = (typeName (type hs) ++ ": " ++ description hs)%string /\
    console w' = pre ++ [LineTimeout].

Definition errorText (e : Thrown) : string :=
  match e with JsError m => m | NonError t => t end.

Definition errorMessage (e : Thrown) : string :=
  match e with JsError m => m | NonError _ => "Unknown error" end.

(** The state the [catch] block leaves: an [error] step last, status
    [failed]. *)
Definition failedWith (context : ApplicationContext) (e : Thrown)
    (w' : World) : Prop :=
  exists earlier step,
    statusOf (applicationId context) w' = Some failed /\
    steps w' = earlier ++ [step] /\
    stepType step = error /\
    application_id step = applicationId context /\
    step_description step = ("Error: " ++ errorText e)%string.

(** The state a completed run leaves: a [submission] step last, status
    [completed]. *)
Definition completedRun (context : ApplicationContext) (w' : World)
  : Prop :=
  exists earlier step pre,
    statusOf (applicationId context) w' = Some completed /\
    steps w' = earlier ++ [step] /\
    stepType step = submission /\
    application_id step = applicationId context /\
    console w' = pre ++ [LineMonitoringComplete].

(** ** Pages, browsers and stores used as examples *)

(** A page with a reCAPTCHA iframe, a 2FA prompt, and consent text beside an
    unchecked checkbox. *)
Definition crowdedPage : Page :=
  pageOf [textSel "2FA"; textSel "EEO"; uncheckedCheckbox] [recaptchaFrame].

Definition captchaPage : Page := pageOf [] [recaptchaFrame].







Definition captchaDetection : DetectionResult :=
  mkDetection true captcha "reCAPTCHA verification required"
    (Some recaptchaFrame).

Definition emptyDb : Database := mkDatabase [] [] [].

Definition startWorld (d : Database) : World := mkWorld 0 d [] [] [].

(** A browser that answers at once and shows [p] until [clearsAt]
    milliseconds, and a blank page from then on. *)
Definition clearingEnv (p : Page) (clearsAt : Z) : Env :=
  mkEnv (fun t => if (t <? clearsAt)%Z then p else blankPage)
        0 0 (fun _ => None) (fun _ => None) true false.

(** A browser that shows [p] for ever; a detection cycle takes [ms]. *)
Definition steadyEnv (p : Page) (ms : nat) : Env :=
  mkEnv (fun _ => p) ms 0 (fun _ => None) (fun _ => None) true false.

(** A page whose tab is closed: every query is rejected. *)
Definition closedPage : Page := mkPage (fun _ => None) (fun _ => None).

Definition pageClosedMessage : string :=
  "Target page, context or browser has been closed".

(** A browser that answers at once and shows [p] until its tab is closed at
    [closedAt] milliseconds: a wait under way then is rejected at that
    instant, and a wait started later is rejected at once. *)
Definition closingEnv (p : Page) (closedAt : Z) : Env :=
  mkEnv (fun t => if (t <? closedAt)%Z then p else closedPage)
        0 0 (fun _ => None)
        (fun t => if (closedAt - 2000 <? t)%Z
                  then Some (Z.to_nat (closedAt - t), pageClosedMessage)
                  else None)
        true false.

(** Run 1, of job 7, as [createApplication] leaves it. *)
Definition queuedRun : Application := mkApplication 1 7 queued None None None.

(** Run 1 started at second 1 and completed at second 8, then, on a second
    attempt, resumed at 20 and failed at 25. *)
Definition twoAttempts : list StatusCall :=
  [ (1, 1, in_progress); (8, 1, completed);
    (20, 1, in_progress); (25, 1, failed) ]%Z.

Definition acmeContext : ApplicationContext :=
  mkContext 1 7 "https://jobs.example.com/apply/7" "Engineer" "Acme".

(** A store whose only run is the queued run 1 of job 7. *)
Definition queuedDb : Database := mkDatabase [queuedRun] [] [].

(** A page that shows a reCAPTCHA at even milliseconds and a 2FA prompt at
    odd ones; a detection cycle takes 1 ms.  The main loop always looks at an
    even instant and the waiter's first poll at the odd one after it, so
    every turn detects a CAPTCHA that the waiter at once sees replaced by
    another step. *)
Definition flickeringEnv : Env :=
  mkEnv (fun t => if Z.even t then captchaPage
                  else pageOf [textSel "2FA"] [])
        1 0 (fun _ => None) (fun _ => None) true false.

(** * More of the program *)

(** ** More of the store: jobs, applications by job, the user profile *)

(** [interface Job] and the row of [jobs] behind it. *)
Module Job.

Inductive RemoteType : Type := remote | hybrid | onsite | unknown.

Inductive JobStatus : Type :=
| new | reviewed | queued | applied | rejected | archived.

Record t : Type := make {
  id : Z;
  sourceId : Z;
  externalId : option string;
  url : string;
  title : string;
  company : string;
  location : option string;
  remoteType : RemoteType;
  salary : option string;
  description : option string;
  postedAt : option Timestamp;
  discoveredAt : Timestamp;
  hash : string;
  status : JobStatus
}.

End Job.

Module Client.

(** [getJobById]: [SELECT * FROM jobs WHERE id = ?] *)
Definition getJobById (id : Z) (jobs : list Job.t) : option Job.t :=
  find (fun j => (Job.id j =? id)%Z) jobs.

(** [getJobByHash]: [SELECT * FROM jobs WHERE hash = ?] *)
Definition getJobByHash (h : string) (jobs : list Job.t) : option Job.t :=
  find (fun j => String.eqb (Job.hash j) h) jobs.

(** [updateJobStatus]: [UPDATE jobs SET status = ? WHERE id = ?] *)
Definition updateJobStatus (id : Z) (s : Job.JobStatus) (jobs : list Job.t)
  : list Job.t :=
  map (fun j =>
         if (Job.id j =? id)%Z then
           Job.make (Job.id j) (Job.sourceId j) (Job.externalId j) (Job.url j)
             (Job.title j) (Job.company j) (Job.location j) (Job.remoteType j)
             (Job.salary j) (Job.description j) (Job.postedAt j)
             (Job.discoveredAt j) (Job.hash j) s
         else j)
      jobs.

(** [notes || null]: an absent or empty note is stored as [NULL]. *)
Definition orNull (notes : option string) : option string :=
  match notes with
  | Some EmptyString => None
  | other => other
  end.

(** [createApplication].  [applications.job_id] references [jobs(id)], so
    the insert throws when there is no such job.  The result is what
    [getApplicationById] finds under [Number(result.lastInsertRowid)], which
    is the new rowid itself as long as that is at most 2^53; above that a
    JavaScript number rounds, and the ids of the store are taken to be
    below. *)
Definition createApplication (jobs : list Job.t) (jobId : Z)
    (notes : option string) (d : Database)
  : Result (option Application) * Database :=
  if existsb (fun j => (Job.id j =? jobId)%Z) jobs then
    let lastInsertRowid := nextId (map app_id (applications d)) in
    let row := mkApplication lastInsertRowid jobId queued None None
                 (orNull notes) in
    let d' := mkDatabase (applications d ++ [row]) (application_steps d)
                (audit_log d) in
    (Ok (getApplicationById lastInsertRowid d'), d')
  else (SqliteError "FOREIGN KEY constraint failed", d).

(** Of [best] and [a], the one [ORDER BY id DESC] puts first. *)
Definition later (best : option Application) (a : Application)
  : option Application :=
  match best with
  | None => Some a
  | Some b => if (app_id b <? app_id a)%Z then Some a else Some b
  end.

(** [getApplicationByJobId]:
    [SELECT * FROM applications WHERE job_id = ? ORDER BY id DESC LIMIT 1] *)
Definition getApplicationByJobId (jobId : Z) (d : Database)
  : option Application :=
  fold_left later
    (filter (fun a => (job_id a =? jobId)%Z) (applications d)) None.

(** [ProfileSection] *)
Inductive ProfileSection : Type :=
| work_history | projects | skills | canonical_answers.

Definition ProfileSection_eqb (a b : ProfileSection) : bool :=
  match a, b with
  | work_history, work_history | projects, projects | skills, skills
  | canonical_answers, canonical_answers => true
  | _, _ => false
  end.

(** A row of [user_profile]. *)
Record ProfileRow : Type := mkProfileRow {
  profile_id : Z;
  section : ProfileSection;
  content_json : string;
  updated_at : Timestamp
}.

Section Profile.

(** [Record<string, unknown>] with [JSON.stringify] and [JSON.parse], and
    the rowid SQLite gives a new row of the table. *)
Variable Json : Type.
Variable stringify : Json -> string.
Variable parse : string -> Json.
Variable newRowid : list ProfileRow -> Z.

(** [upsertUserProfile]: [INSERT ... ON CONFLICT(section) DO UPDATE SET
    content_json = excluded.content_json, updated_at = CURRENT_TIMESTAMP] *)
Definition upsertUserProfile (now : Timestamp) (s : ProfileSection)
    (content : Json) (rows : list ProfileRow) : list ProfileRow :=
  if existsb (fun r => ProfileSection_eqb (section r) s) rows then
    map (fun r =>
           if ProfileSection_eqb (section r) s
           then mkProfileRow (profile_id r) (section r) (stringify content) now
           else r)
        rows
  else rows ++ [mkProfileRow (newRowid rows) s (stringify content) now].

(** [getUserProfile]:
    [SELECT content_json FROM user_profile WHERE section = ?] *)
Definition getUserProfile (s : ProfileSection) (rows : list ProfileRow)
  : option Json :=
  option_map (fun r => parse (content_json r))
    (find (fun r => ProfileSection_eqb (section r) s) rows).

End Profile.

End Client.

(** ** Vocabulary of the store's properties *)

(** A call of one of the store's writers, with the time it is made at. *)
Inductive StoreCall : Type :=
| CallCreateApplication (jobId : Z) (note : option string)
| CallUpdateApplicationStatus (now : Timestamp) (id : Z)
    (s : ApplicationStatus)
| CallAddApplicationStep (now : Timestamp) (id : Z) (t : StepType)
    (descr : string) (meta : Metadata)
| CallAddAuditLog (now : Timestamp) (action : ActionType)
    (entity : EntityType) (entity_id : option Z) (confirmed : bool)
    (meta : Metadata).

(** The store after a call, whether the call returned or threw. *)
Definition perform (jobs : list Job.t) (d : Database) (c : StoreCall)
  : Database :=
  match c with
  | CallCreateApplication jobId note =>
      snd (Client.createApplication jobs jobId note d)
  | CallUpdateApplicationStatus now id s => updateApplicationStatus now id s d
  | CallAddApplicationStep now id t descr meta =>
      snd (addApplicationStep now id t descr meta d)
  | CallAddAuditLog now action entity entity_id confirmed meta =>
      snd (addAuditLog now action entity entity_id confirmed meta d)
  end.

(** What the schema's keys demand of the three tables: ids are unique in
    each, every application is of a job there is, every step is of an
    application there is. *)
Definition keysHold (jobs : list Job.t) (d : Database) : Prop :=
  NoDup (map app_id (applications d)) /\
  NoDup (map step_id (application_steps d)) /\
  NoDup (map audit_id (audit_log d)) /\
  Forall (fun a => Client.getJobById (job_id a) jobs <> None)
         (applications d) /\
  Forall (fun s => hasApplication (application_id s) d = true)
         (application_steps d).

(** The integers a JavaScript number holds exactly, so that [Number(...)]
    of such a rowid is the rowid. *)
Definition exactNumber (z : Z) : Prop := (- 2 ^ 53 <= z <= 2 ^ 53)%Z.

(** Every application of the store has an id below 2^53. *)
Definition idsBelowLimit (d : Database) : Prop :=
  Forall (fun a => (app_id a < 2 ^ 53)%Z) (applications d).

(** Job 7, as the examples have it. *)
Definition acmeJob : Job.t :=
  Job.make 7 1 None "https://jobs.example.com/apply/7" "Engineer" "Acme"
    None Job.remote None None None 0%Z "h7" Job.queued.

(** ** Vocabulary of the detector's further properties *)

(** The text selectors a category scans. *)
Definition keywordsOf (t : HumanStepType) : list string :=
  match t with
  | captcha => captchaKeywords
  | two_fa => twoFAKeywords
  | file_upload => uploadLabels
  | consent => consentKeywords
  | unknown => []
  end.

(** The indicator a detection of category [t] names on page [p]: the first
    of the category's indicators, in the order of the source, that the page
    has. *)
Definition firstIndicator (p : Page) (t : HumanStepType) : option string :=
  match t with
  | captcha =>
      if frameHits p recaptchaFrame then Some recaptchaFrame
      else if frameHits p hcaptchaFrame then Some hcaptchaFrame
      else find (hits p) captchaKeywords
  | t => find (hits p) (keywordsOf t)
  end.

(** Whether the page has the indicator, an iframe or a selector. *)
Definition indicatorHits (p : Page) (sel : string) : bool :=
  if inList sel [recaptchaFrame; hcaptchaFrame] then frameHits p sel
  else hits p sel.

(** A page that makes the detector send every query it has: no CAPTCHA, no
    2FA prompt, a file input without an upload label, every consent phrase
    and no unchecked checkbox. *)
Definition costlyPage : Page :=
  pageOf (visibleFileInput :: consentKeywords) [].

(** A page every query of which fails. *)
Definition brokenPage : Page := mkPage (fun _ => None) (fun _ => None).

(** Whether an audit entry is of a resumption: the controller marks those,
    and only those, as confirmed by the user. *)
Definition resumes (action : ActionType) : bool :=
  match action with human_step_resume => true | _ => false end.

(** The elementary effects of the controller, working on run [id] in the
    environment [env]. *)
Inductive Effect (env : Env) (id : Z) : World -> World -> Prop :=
| eff_print l w : Effect env id w (print l w)
| eff_advance ms w : (0 <= ms)%Z -> Effect env id w (advance ms w)
| eff_asked qs w : Effect env id w (asked qs w)
| eff_deliver n w :
    notificationsEnabled env = true -> notifierThrows env = false ->
    Effect env id w (deliver n w)
| eff_status t s w :
    Effect env id w (setDb (updateApplicationStatus t id s (db w)) w)
| eff_step t ty descr meta w :
    Effect env id w
      (setDb (snd (addApplicationStep t id ty descr meta (db w))) w)
| eff_audit t action meta w :
    action = human_step_pause \/ action = human_step_resume ->
    Effect env id w
      (setDb (snd (addAuditLog t action entity_application (Some id)
                     (resumes action) meta (db w))) w).

(** Any number of them, one after the other. *)
Definition Effects (env : Env) (id : Z) : World -> World -> Prop :=
  clos_refl_trans World (Effect env id).

(** An [async] function that does nothing but such effects. *)
Definition Within (env : Env) (id : Z) {A : Type} (m : Async A) : Prop :=
  forall w, Effects env id w (snd (m w)).

(** One list continues another. *)
Definition extends {A} (l l' : list A) : Prop := exists more, l' = l ++ more.

(** What a run may do to the world: time passes, and the tables of steps
    and audit entries, the console, the queries and the notifications
    delivered only grow at their end. *)
Definition grows (w w' : World) : Prop :=
  (now w <= now w')%Z /\
  extends (application_steps (db w)) (application_steps (db w')) /\
  extends (audit_log (db w)) (audit_log (db w')) /\
  extends (console w) (console w') /\
  extends (queries w) (queries w') /\
  extends (delivered w) (delivered w').

(** A row of [applications] before and after: same id, job and notes, and
    the same row altogether unless it is the row [id]. *)
Definition rowKept (id : Z) (a a' : Application) : Prop :=
  app_id a' = app_id a /\ job_id a' = job_id a /\ notes a' = notes a /\
  ((app_id a =? id)%Z = false -> a' = a).

Definition ownRowOnly (id : Z) (w w' : World) : Prop :=
  Forall2 (rowKept id) (applications (db w)) (applications (db w')) /\
  exists added,
    application_steps (db w') = application_steps (db w) ++ added /\
    Forall (fun s => application_id s = id) added.

(** Two environments that differ at most in the notifier's settings, and
    two worlds that differ at most in the notifications delivered. *)
Definition sameButNotifier (e1 e2 : Env) : Prop :=
  (forall t, pageAt e1 t = pageAt e2 t) /\
  detectMs e1 = detectMs e2 /\ gotoMs e1 = gotoMs e2 /\
  (forall url, gotoError e1 url = gotoError e2 url) /\
  (forall t, waitError e1 t = waitError e2 t).

Definition sameButDelivered (w1 w2 : World) : Prop :=
  now w1 = now w2 /\ db w1 = db w2 /\ console w1 = console w2 /\
  queries w1 = queries w2.

(** Two [async] functions that, from such worlds, end the same way in such
    worlds. *)
Definition Alike {A : Type} (m1 m2 : Async A) : Prop :=
  forall w1 w2, sameButDelivered w1 w2 ->
    fst (m1 w1) = fst (m2 w2) /\ sameButDelivered (snd (m1 w1)) (snd (m2 w2)).

(** A browser that shows [p] for ever, with the notifications switched
    off. *)
Definition quietEnv (p : Page) : Env :=
  mkEnv (fun _ => p) 0 0 (fun _ => None) (fun _ => None) false false.

(** ** Of the audit trail *)

Definition isDetectedStep (s : ApplicationStep) : bool :=
  match stepType s with human_step_detected => true | _ => false end.

Definition isResolvedStep (s : ApplicationStep) : bool :=
  match stepType s with human_step_resolved => true | _ => false end.

Definition isPauseEntry (a : AuditLog) : bool :=
  match actionType a with human_step_pause => true | _ => false end.

Definition isResumeEntry (a : AuditLog) : bool :=
  match actionType a with human_step_resume => true | _ => false end.

Definition count {A : Type} (f : A -> bool) (l : list A) : Z :=
  Z.of_nat (List.length (filter f l)).

(** How many pauses, and how many resumptions, the steps record beyond what
    the audit log records. *)
Definition unaudited (d : Database) : Z * Z :=
  ((count isDetectedStep (application_steps d)
    - count isPauseEntry (audit_log d))%Z,
   (count isResolvedStep (application_steps d)
    - count isResumeEntry (audit_log d))%Z).

(** An [async] function that leaves both numbers as they were. *)
Definition Settled {A : Type} (m : Async A) : Prop :=
  forall w, unaudited (db (snd (m w))) = unaudited (db w).

(** An audit entry as the controller writes them for run [id]: about the
    application, a pause not confirmed by the user or a resumption
    confirmed by the user. *)
Definition pauseOrResumeOf (id : Z) (a : AuditLog) : Prop :=
  entityType a = entity_application /\ entityId a = Some id /\
  ((actionType a = human_step_pause /\ userConfirmed a = false) \/
   (actionType a = human_step_resume /\ userConfirmed a = true)).

Definition auditsOwnRun (id : Z) (w w' : World) : Prop :=
  exists added,
    audit_log (db w') = audit_log (db w) ++ added /\
    Forall (pauseOrResumeOf id) added.

(** ** Of the time a run takes *)

(** An [async] function that ends at most [ms] milliseconds after it
    started. *)
Definition Takes {A : Type} (m : Async A) (ms : Z) : Prop :=
  (0 <= ms)%Z /\ forall w, (now (snd (m w)) <= now w + ms)%Z.

(** The most one turn of the main loop takes: a detection, the wait for the
    human with its last polling interval, and the pause before the next
    turn. *)
Definition turnMs (env : Env) : Z :=
  Z.of_nat (detectMs env) + (defaultTimeoutMs + period env) + 2000.

(** The most a run takes: navigation with its two pauses, and twenty
    turns. *)
Definition runMs (env : Env) : Z :=
  Z.of_nat (gotoMs env) + 2000 + 3000 + Z.of_nat maxLoops * turnMs env.

(** ** Question types: [QUESTION_PATTERNS] and [detectQuestionType] of
    [src/ai/prompts.ts] *)

Module Prompts.

(** A JavaScript string: its UTF-16 code units. *)
Definition JsString : Type := list N.

(** The code units of a text written in ASCII. *)
Definition units (s : string) : JsString :=
  map N_of_ascii (list_ascii_of_string s).

(** The regular expressions of the table are built of two things: literal
    text, and [.*]. *)
Inductive Atom : Type :=
| Lit (text : string)
| AnyStar.

Definition RegExp : Type := list Atom.

(** [.] matches every code unit but the line terminators: LF, CR, U+2028
    and U+2029. *)
Definition isLineTerminator (c : N) : bool :=
  ((c =? 10) || (c =? 13) || (c =? 8232) || (c =? 8233))%N.

(** Under the [i] flag two code units match when their canonical forms are
    equal.  All characters of the patterns are below 128, and there the
    canonical form of a code unit below 128 is its ASCII upper case, while
    that of a code unit from 128 on is never below 128: a code unit matches a
    pattern character exactly when [toUpper] makes them equal. *)
Definition toUpper (c : N) : N :=
  if ((97 <=? c) && (c <=? 122))%N then (c - 32)%N else c.

Definition sameLetter (p c : N) : bool := (toUpper p =? toUpper c)%N.

(** Literal text at the head of [s]: what follows it, if it is there. *)
Fixpoint stripLiteral (text : JsString) (s : JsString) : option JsString :=
  match text with
  | [] => Some s
  | p :: text' =>
      match s with
      | c :: s' => if sameLetter p c then stripLiteral text' s' else None
      | [] => None
      end
  end.

(** Whether [re] matches at the head of [s].  [.*] takes as much as it can
    and gives back one code unit at a time. *)
Fixpoint matchHere (re : RegExp) : JsString -> bool :=
  match re with
  | [] => fun _ => true
  | Lit text :: re' =>
      fun s =>
        match stripLiteral (units text) s with
        | Some rest => matchHere re' rest
        | None => false
        end
  | AnyStar :: re' =>
      fix star (s : JsString) : bool :=
        match s with
        | [] => matchHere re' []
        | c :: s' =>
            (if isLineTerminator c then false else star s')
            || matchHere re' s
        end
  end.

(** [pattern.test(question)], for a pattern without the [g] and [y]
    flags: a match may start at any index, the end included. *)
Fixpoint test (pattern : RegExp) (question : JsString) : bool :=
  matchHere pattern question ||
  match question with
  | [] => false
  | _ :: rest => test pattern rest
  end.

(** [/a.*b.*c/i] *)
Fixpoint words (texts : list string) : RegExp :=
  match texts with
  | [] => []
  | [t] => [Lit t]
  | t :: rest => Lit t :: AnyStar :: words rest
  end.

Definition QUESTION_PATTERNS : list (string * list RegExp) :=
  [ ("Why this role?",
     [ words ["why"; "interested"; "role"];
       words ["why"; "apply"; "position"];
       words ["what"; "attracts"; "role"];
       words ["why"; "want"; "job"] ]);
    ("Why this company?",
     [ words ["why"; "want"; "work"; "company"];
       words ["why"; "interested"; "company"];
       words ["what"; "know"; "company"];
       words ["why"; "[company]"] ]);
    ("Describe a project",
     [ words ["describe"; "project"];
       words ["tell"; "about"; "project"];
       words ["project"; "proud"];
       words ["significant"; "project"] ]);
    ("Challenge overcome",
     [ words ["challenge"; "overcame"];
       words ["difficult"; "situation"];
       words ["obstacle"; "faced"];
       words ["problem"; "solved"] ]);
    ("Strengths",
     [ words ["what"; "strengths"];
       words ["key"; "strengths"];
       words ["greatest"; "strength"];
       words ["what"; "good"; "at"] ]);
    ("Weaknesses",
     [ words ["what"; "weakness"];
       words ["area"; "improve"];
       words ["what"; "working"; "on"];
       words ["development"; "area"] ]);
    ("Leadership",
     [ words ["leadership"; "experience"];
       words ["time"; "led"; "team"];
       words ["demonstrate"; "leadership"] ]);
    ("Conflict resolution",
     [ words ["conflict"; "resolved"];
       words ["disagreement"; "handled"];
       words ["difficult"; "colleague"] ]);
    ("Technical experience",
     [ words ["experience"; "with"; "[technology]"];
       words ["familiar"; "[technology]"];
       words ["used"; "[technology]"] ]) ].

(** [patterns.some((pattern) => pattern.test(question))] *)
Definition some (patterns : list RegExp) (question : JsString) : bool :=
  existsb (fun pattern => test pattern question) patterns.

(** [detectQuestionType]: the first entry of the table one of whose
    patterns matches, or ['General']. *)
Definition detectQuestionType (question : JsString) : string :=
  match find (fun entry => some (snd entry) question) QUESTION_PATTERNS with
  | Some (type, _) => type
  | None => "General"
  end.

End Prompts.

(** ** Vocabulary of the question types *)

(** The index of the first element [f] holds of, or the length of the
    list. *)
Fixpoint firstIndex {A : Type} (f : A -> bool) (l : list A) : nat :=
  match l with
  | [] => 0
  | x :: l' => if f x then 0 else S (firstIndex f l')
  end.

(** The place of a type in the table: 0 for ['Why this role?'], 8 for
    ['Technical experience'], 9 for ['General']. *)
Definition typeRank (type : string) : nat :=
  firstIndex (fun entry => String.eqb (fst entry) type)
    Prompts.QUESTION_PATTERNS.

(** Of two types, the one the table lists first. *)
Definition earlier (a b : string) : string :=
  if (typeRank a <=? typeRank b)%nat then a else b.

(** [text] stands in [q], in whatever letter case. *)
Definition occursIn (text : string) (q : Prompts.JsString) : Prop :=
  exists before there after,
    q = before ++ there ++ after /\
    map Prompts.toUpper there = map Prompts.toUpper (Prompts.units text).

(** A pattern none of whose literal characters is a line terminator. *)
Definition plain (re : Prompts.RegExp) : bool :=
  forallb (fun a =>
             match a with
             | Prompts.Lit text =>
                 forallb (fun p => negb (Prompts.isLineTerminator p))
                         (Prompts.units text)
             | Prompts.AnyStar => true
             end) re.

(** Questions used as examples. *)
Definition shoutedQuestion : Prompts.JsString :=
  Prompts.units "WHY do you WANT this JOB?".

Definition quietQuestion : Prompts.JsString :=
  Prompts.units "why do you want this job?".

Definition templateQuestion : Prompts.JsString :=
  Prompts.units "Have you used [technology] before?".

(** ** The command: [startApplication] of [src/cli/apply.ts] *)

(** The command works on the world of the controller and on the table
    [jobs].  What it prints itself is kept apart from what the controller
    prints; the calls to [logger] are left out, as before, and the three
    prompts are answered, each after some time. *)

Module Cli.

(** What the user and the machine bring to one run of the command. *)
Record Session : Type := mkSession {
  parsedJob : option Z;            (* [parseInt(options.job, 10)]; [None] is NaN *)
  schemaError : option Thrown;     (* what [initializeDatabase] throws *)
  continueAnyway : bool;           (* the answers to the three prompts *)
  ready : bool;
  closeBrowserNow : bool;
  promptMs : nat;                  (* how long the user takes to answer *)
  createPageMs : nat;              (* how long [createPage] takes *)
  createPageError : option Thrown; (* what [createPage] rejects with *)
  closeError : option Thrown       (* what [page.close] rejects with *)
}.

(** What the command prints itself, one constructor per [console.log]
    group. *)
Inductive Line : Type :=
| LineInvalidJobId                 (* "Invalid job ID" *)
| LineJobNotFound (jobId : Z)      (* "Job not found: N" *)
| LineHeader (title company url : string)
| LineAlreadyExists (s : ApplicationStatus)
| LineCancelled                    (* "Application cancelled" *)
| LineLaunching                    (* "Launching browser..." *)
| LineGuide                        (* what [displayWorkflowInstructions] prints *)
| LineCompleted (applicationId : Z)
| LineFailed (message : string)
| LineBrowserClosed
| LineBrowserLeftOpen
| LineError (text : string).       (* "Error during application:" and the text *)

(** The variable [page] and the tab behind it. *)
Inductive PageState : Type := NoPage | PageOpen | PageClosed.

(** What the command changes: the world of the controller, the table
    [jobs], its own output, the page, and the exit code once
    [process.exit] is called. *)
Record State : Type := mkState {
  world : World;
  jobs : list Job.t;
  terminal : list Line;
  page : PageState;
  exitCode : option Z
}.

Definition setWorld (w : World) (st : State) : State :=
  mkState w (jobs st) (terminal st) (page st) (exitCode st).

Definition setJobs (js : list Job.t) (st : State) : State :=
  mkState (world st) js (terminal st) (page st) (exitCode st).

Definition setPage (p : PageState) (st : State) : State :=
  mkState (world st) (jobs st) (terminal st) p (exitCode st).

Definition say (l : Line) (st : State) : State :=
  mkState (world st) (jobs st) (terminal st ++ [l]) (page st) (exitCode st).

Definition exit (code : Z) (st : State) : State :=
  mkState (world st) (jobs st) (terminal st) (page st) (Some code).

Definition wait (ms : nat) (st : State) : State :=
  setWorld (advance (Z.of_nat ms) (world st)) st.

(** A number as [JSON.stringify] writes it. *)
Definition decimal (n : Z) : string := NilZero.string_of_int (Z.to_int n).

(** From the second prompt to the end of the [try] block.  [application] is
    what [getApplicationByJobId] or [createApplication] gave. *)
Definition launchAndRun (env : Env) (s : Session) (jobId : Z) (job : Job.t)
    (application : option Application) (st : State) : Outcome unit * State :=
  let st := wait (promptMs s) st in
  if ready s then
    let st := say LineLaunching st in
    let st := wait (createPageMs s) st in
    match createPageError s with
    | Some e => (Threw e, st)
    | None =>
        let st := setPage PageOpen st in
        let st := setJobs (Client.updateJobStatus jobId Job.applied (jobs st))
                    st in
        match application with
        | None =>
            (Threw (JsError "Cannot read properties of null (reading 'id')"),
             st)
        | Some application =>
            let st :=
              setWorld
                (snd (audit application_start entity_application
                        (Some (app_id application)) true
                        [("jobId", decimal jobId);
                         ("jobTitle", Job.title job);
                         ("jobCompany", Job.company job)] (world st))) st in
            let st := say LineGuide st in
            match runApplicationWorkflow env
                    (mkContext (app_id application) jobId (Job.url job)
                       (Job.title job) (Job.company job)) (world st) with
            | (Returned result, w) =>
                let st := setWorld w st in
                let st :=
                  if success result
                  then say (LineCompleted (app_id application)) st
                  else say (LineFailed (message result)) st in
                let st := wait (promptMs s) st in
                if closeBrowserNow s then
                  match closeError s with
                  | Some e => (Threw e, st)
                  | None =>
                      (Returned tt, say LineBrowserClosed
                                      (setPage PageClosed st))
                  end
                else (Returned tt, say LineBrowserLeftOpen st)
            | (Threw e, w) => (Threw e, setWorld w st)
            | (OutOfFuel, w) => (OutOfFuel, setWorld w st)
            end
        end
    end
  else (Returned tt, say LineCancelled st).

(** The [try] block. *)
Definition tryBlock (env : Env) (s : Session) (st : State)
  : Outcome unit * State :=
  match schemaError s with
  | Some e => (Threw e, st)
  | None =>
      match parsedJob s with
      | None => (Returned tt, say LineInvalidJobId st)
      | Some jobId =>
          match Client.getJobById jobId (jobs st) with
          | None => (Returned tt, say (LineJobNotFound jobId) st)
          | Some job =>
              let st := say (LineHeader (Job.title job) (Job.company job)
                               (Job.url job)) st in
              match Client.getApplicationByJobId jobId (db (world st)) with
              | Some application =>
                  let st := say (LineAlreadyExists (status application)) st in
                  let st := wait (promptMs s) st in
                  if continueAnyway s then
                    launchAndRun env s jobId job (Some application) st
                  else (Returned tt, say LineCancelled st)
              | None =>
                  match Client.createApplication (jobs st) jobId None
                          (db (world st)) with
                  | (Ok application, d) =>
                      launchAndRun env s jobId job application
                        (setWorld (setDb d (world st)) st)
                  | (SqliteError m, d) =>
                      (Threw (JsError m), setWorld (setDb d (world st)) st)
                  end
              end
          end
      end
  end.

(** The [catch] block: the error is printed, the page closed if there is
    one, whatever comes of that, and the process exits with code 1. *)
Definition catchBlock (s : Session) (e : Thrown) (st : State) : State :=
  let st := say (LineError (errorText e)) st in
  let st :=
    match page st with
    | NoPage => st
    | _ => match closeError s with
           | None => setPage PageClosed st
           | Some _ => st
           end
    end in
  exit 1 st.

(** [startApplication], in a fresh process. *)
Definition startApplication (env : Env) (s : Session) (js : list Job.t)
    (w : World) : State :=
  match tryBlock env s (mkState w js [] NoPage None) with
  | (Threw e, st) => catchBlock s e st
  | (_, st) => st
  end.

End Cli.

(** ** Vocabulary of the command *)

(** The job and the application the command gets to launch the browser
    for: the job is there, the user goes on where an application exists,
    and is ready. *)
Definition launches (s : Cli.Session) (js : list Job.t) (w : World)
  : option (Z * Job.t) :=
  match Cli.schemaError s, Cli.parsedJob s with
  | None, Some jobId =>
      match Client.getJobById jobId js with
      | Some job =>
          if Cli.ready s &&
             match Client.getApplicationByJobId jobId (db w) with
             | Some _ => Cli.continueAnyway s
             | None => true
             end
          then Some (jobId, job) else None
      | None => None
      end
  | _, _ => None
  end.

(** [j'] is the job [j] but for its status. *)
Definition sameButStatus (j j' : Job.t) : Prop :=
  Job.id j' = Job.id j /\ Job.sourceId j' = Job.sourceId j /\
  Job.externalId j' = Job.externalId j /\ Job.url j' = Job.url j /\
  Job.title j' = Job.title j /\ Job.company j' = Job.company j /\
  Job.location j' = Job.location j /\
  Job.remoteType j' = Job.remoteType j /\ Job.salary j' = Job.salary j /\
  Job.description j' = Job.description j /\
  Job.postedAt j' = Job.postedAt j /\
  Job.discoveredAt j' = Job.discoveredAt j /\ Job.hash j' = Job.hash j.

(** The table [js'] is the table [js] with the job [jobId] marked
    [applied]: row by row, a job of that id has the status [applied] and is
    otherwise as it was, and every other job is as it was. *)
Definition marksApplied (jobId : Z) (js js' : list Job.t) : Prop :=
  Forall2 (fun j j' =>
             (Job.id j = jobId ->
                sameButStatus j j' /\ Job.status j' = Job.applied) /\
             (Job.id j <> jobId -> j' = j))
          js js'.

Definition isSome {A : Type} (o : option A) : bool :=
  match o with Some _ => true | None => false end.

(** A session for job 7 in which the user is not ready. *)
Definition notReady : Cli.Session :=
  Cli.mkSession (Some 7%Z) None false false false 0 0 None None.

(** A session for job 7 in which the user goes all the way and leaves the
    browser open. *)
Definition eager : Cli.Session :=
  Cli.mkSession (Some 7%Z) None true true false 0 0 None None.

(** ** The browser launcher: [launchBrowser], [createPage] and
    [closeBrowser] of [src/browser/launcher.ts] *)

Module Launcher.

(** Handles of the browsers, contexts and pages Playwright hands out. *)
Definition Browser : Type := nat.
Definition BrowserContext : Type := nat.
Definition PageHandle : Type := nat.

(** What the program does not control: the configuration and Playwright. *)
Record Playwright : Type := mkPlaywright {
  chromeProfilePath : string;      (* [config.chromeProfilePath] *)
  (* [chromium.launchPersistentContext], at its n-th call *)
  launchPersistentContext : string -> nat -> Thrown + BrowserContext;
  browserOf : BrowserContext -> option Browser;     (* [context.browser()] *)
  newPage : BrowserContext -> nat -> Thrown + PageHandle;
  contextClose : BrowserContext -> option Thrown;   (* what [close] rejects with *)
  browserClose : Browser -> option Thrown
}.

(** What Playwright was asked to do. *)
Inductive Event : Type :=
| Launch (profile : string)
| NewPage (c : BrowserContext)
| CloseContext (c : BrowserContext)
| CloseBrowser (b : Browser).

(** The two module variables, and the calls made so far. *)
Record State : Type := mkState {
  browser : option Browser;
  context : option BrowserContext;
  events : list Event
}.

Definition isLaunch (e : Event) : bool :=
  match e with Launch _ => true | _ => false end.

Definition isNewPage (e : Event) : bool :=
  match e with NewPage _ => true | _ => false end.

Definition called (f : Event -> bool) (st : State) : nat :=
  List.length (filter f (events st)).

Definition record (e : Event) (st : State) : State :=
  mkState (browser st) (context st) (events st ++ [e]).

(** The message of the [Error] thrown when no profile path is configured. *)
Definition profilePathNotSet : string :=
  "CHROME_PROFILE_PATH not set. Browser automation requires a Chrome profile path.".

(** [launchBrowser].  The [catch] block logs and throws again. *)
Definition launchBrowser (pw : Playwright) (st : State)
  : (Thrown + option Browser * BrowserContext) * State :=
  match browser st, context st with
  | Some b, Some c => (inr (Some b, c), st)
  | _, _ =>
      match chromeProfilePath pw with
      | EmptyString =>
          (inl (JsError profilePathNotSet),
           st)
      | path =>
          let n := called isLaunch st in
          let st := record (Launch path) st in
          match launchPersistentContext pw path n with
          | inl e => (inl e, st)
          | inr c =>
              (inr (browserOf pw c, c),
               mkState (browserOf pw c) (Some c) (events st))
          end
      end
  end.

(** [createPage] *)
Definition createPage (pw : Playwright) (st : State)
  : (Thrown + PageHandle) * State :=
  match launchBrowser pw st with
  | (inl e, st) => (inl e, st)
  | (inr (_, c), st) =>
      let n := called isNewPage st in
      (newPage pw c n, record (NewPage c) st)
  end.

(** [closeBrowser]: whatever a [close] rejects with is logged, and ends
    the function. *)
Definition closeBrowser (pw : Playwright) (st : State) : State :=
  let closeTheBrowser (st : State) : State :=
    match browser st with
    | Some b =>
        let st := record (CloseBrowser b) st in
        match browserClose pw b with
        | Some _ => st
        | None => mkState None (context st) (events st)
        end
    | None => st
    end in
  match context st with
  | Some c =>
      let st := record (CloseContext c) st in
      match contextClose pw c with
      | Some _ => st
      | None => closeTheBrowser (mkState (browser st) None (events st))
      end
  | None => closeTheBrowser st
  end.

End Launcher.

(** ** Vocabulary of the launcher *)

(** Before the first call. *)
Definition notLaunched : Launcher.State := Launcher.mkState None None [].

(** A Playwright whose persistent contexts have no browser and whose calls
    all succeed; the n-th launch gives context [n]. *)
Definition persistentOnly : Launcher.Playwright :=
  Launcher.mkPlaywright "/home/me/chrome" (fun _ n => inr n) (fun _ => None)
    (fun _ n => inr n) (fun _ => None) (fun _ => None).

(** A Playwright whose contexts have browser 5, and whose contexts cannot
    be closed. *)
Definition stuckContexts : Launcher.Playwright :=
  Launcher.mkPlaywright "/home/me/chrome" (fun _ n => inr n)
    (fun _ => Some 5) (fun _ n => inr n)
    (fun _ => Some (JsError "Target closed")) (fun _ => None).

(** * Properties of the detector *)

Section DetectorFacts.

Lemma forSelectors_keyword mk selectors p :
  fst (forSelectors (keywordBody mk) selectors p) =
  option_map mk (find (hits p) selectors).
Proof.
  induction selectors as [|s rest IH]; simpl; [reflexivity|].
  unfold bind at 1, keywordBody at 1, bind at 1, countLocator, hits.
  destruct (0 <? catch0 (locatorCount p s))%nat; simpl; [reflexivity|].
  destruct (forSelectors (keywordBody mk) rest p) as [r q]; exact IH.
Qed.

Lemma find_existsb {A} (f : A -> bool) l :
  existsb f l = match find f l with Some _ => true | None => false end.
Proof.
  induction l as [|a l IH]; simpl; [reflexivity|].
  destruct (f a); simpl; [reflexivity | exact IH].
Qed.

(** The queries of a keyword loop are locator queries on its selectors. *)
Lemma forSelectors_keyword_queries mk selectors p :
  Forall (fun q => exists s, In s selectors /\ q = QLocator s)
         (snd (forSelectors (keywordBody mk) selectors p)).
Proof.
  induction selectors as [|s rest IH]; simpl; [constructor|].
  unfold bind at 1, keywordBody at 1, bind at 1, countLocator.
  destruct (0 <? catch0 (locatorCount p s))%nat; simpl.
  - constructor; [exists s; auto | constructor].
  - destruct (forSelectors (keywordBody mk) rest p) as [r q]; simpl in *.
    constructor; [exists s; auto|].
    eapply Forall_impl; [|exact IH].
    intros a [s' [Hin ->]]; exists s'; auto.
Qed.

Lemma scanKeywords_fst mk t selectors p :
  fst (scanKeywords mk t selectors p) =
  match find (hits p) selectors with
  | Some s => mk s
  | None => notDetected t
  end.
Proof.
  unfold scanKeywords, bind.
  pose proof (forSelectors_keyword mk selectors p) as H.
  destruct (forSelectors (keywordBody mk) selectors p) as [r q].
  cbn [fst] in H; subst r.
  destruct (find (hits p) selectors); reflexivity.
Qed.

Lemma scanKeywords_queries mk t selectors p :
  Forall (fun q => exists s, In s selectors /\ q = QLocator s)
         (snd (scanKeywords mk t selectors p)).
Proof.
  unfold scanKeywords, bind.
  pose proof (forSelectors_keyword_queries mk selectors p) as H.
  destruct (forSelectors (keywordBody mk) selectors p) as [r q].
  cbn [snd] in H.
  destruct r; cbn [ret snd]; rewrite app_nil_r; exact H.
Qed.

Lemma detectCaptcha_fst p :
  fst (detectCaptcha p) =
  if frameHits p recaptchaFrame then
    mkDetection true captcha "reCAPTCHA verification required" (Some recaptchaFrame)
  else if frameHits p hcaptchaFrame then
    mkDetection true captcha "hCaptcha verification required" (Some hcaptchaFrame)
  else match find (hits p) captchaKeywords with
       | Some s => captchaHit s
       | None => notDetected captcha
       end.
Proof.
  unfold detectCaptcha, bind at 1, countFrameBody at 1, frameHits.
  destruct (0 <? catch0 (frameBodyCount p recaptchaFrame))%nat; [reflexivity|].
  unfold bind at 1, countFrameBody at 1.
  destruct (0 <? catch0 (frameBodyCount p hcaptchaFrame))%nat; [reflexivity|].
  rewrite <- (scanKeywords_fst captchaHit captcha captchaKeywords p).
  unfold scanKeywords, keywordBody, captchaHit.
  destruct (bind (forSelectors _ captchaKeywords) _ p); reflexivity.
Qed.

Lemma detectCaptcha_detected p :
  detected (fst (detectCaptcha p)) =
  frameHits p recaptchaFrame || frameHits p hcaptchaFrame
  || existsb (hits p) captchaKeywords.
Proof.
  rewrite detectCaptcha_fst, find_existsb.
  destruct (frameHits p recaptchaFrame), (frameHits p hcaptchaFrame),
    (find (hits p) captchaKeywords); reflexivity.
Qed.

Lemma detectCaptcha_type p : type (fst (detectCaptcha p)) = captcha.
Proof.
  rewrite detectCaptcha_fst.
  destruct (frameHits p recaptchaFrame), (frameHits p hcaptchaFrame),
    (find (hits p) captchaKeywords); reflexivity.
Qed.

Lemma detect2FA_fst p :
  fst (detect2FA p) =
  match find (hits p) twoFAKeywords with
  | Some s => twoFAHit s
  | None => notDetected two_fa
  end.
Proof. exact (scanKeywords_fst twoFAHit two_fa twoFAKeywords p). Qed.

Lemma detect2FA_detected p :
  detected (fst (detect2FA p)) = existsb (hits p) twoFAKeywords.
Proof.
  rewrite detect2FA_fst, find_existsb.
  destruct (find (hits p) twoFAKeywords); reflexivity.
Qed.

Lemma detect2FA_type p : type (fst (detect2FA p)) = two_fa.
Proof.
  rewrite detect2FA_fst. destruct (find (hits p) twoFAKeywords); reflexivity.
Qed.

Lemma detectFileUpload_fst p :
  fst (detectFileUpload p) =
  if hits p visibleFileInput then
    match find (hits p) uploadLabels with
    | Some s => uploadHit s
    | None => notDetected file_upload
    end
  else notDetected file_upload.
Proof.
  unfold detectFileUpload, bind at 1, countLocator at 1, hits at 1.
  destruct (0 <? catch0 (locatorCount p visibleFileInput))%nat; [|reflexivity].
  rewrite <- (scanKeywords_fst uploadHit file_upload uploadLabels p).
  unfold scanKeywords, keywordBody, uploadHit.
  destruct (bind (forSelectors _ uploadLabels) _ p); reflexivity.
Qed.


Lemma detectFileUpload_type p : type (fst (detectFileUpload p)) = file_upload.
Proof.
  rewrite detectFileUpload_fst.
  destruct (hits p visibleFileInput), (find (hits p) uploadLabels); reflexivity.
Qed.

Lemma forSelectors_consent selectors p :
  fst (forSelectors consentBody selectors p) =
  if hits p uncheckedCheckbox
  then option_map consentHit (find (hits p) selectors)
  else None.
Proof.
  induction selectors as [|s rest IH]; simpl.
  - destruct (hits p uncheckedCheckbox); reflexivity.
  - unfold bind at 1, consentBody at 1, bind, countLocator.
    unfold hits in *.
    destruct (0 <? catch0 (locatorCount p s))%nat.
    + destruct (0 <? catch0 (locatorCount p uncheckedCheckbox))%nat.
      * reflexivity.
      * cbn [ret fst snd app].
        destruct (forSelectors consentBody rest p) as [r q]; exact IH.
    + cbn [ret fst snd app].
      destruct (forSelectors consentBody rest p) as [r q]; exact IH.
Qed.

Lemma detectConsent_fst p :
  fst (detectConsent p) =
  if hits p uncheckedCheckbox then
    match find (hits p) consentKeywords with
    | Some s => consentHit s
    | None => notDetected consent
    end
  else notDetected consent.
Proof.
  pose proof (forSelectors_consent consentKeywords p) as H.
  unfold detectConsent. unfold bind at 1.
  unfold consentBody, consentHit in H.
  destruct (forSelectors _ consentKeywords p) as [r q].
  cbn [fst] in H; subst r.
  destruct (hits p uncheckedCheckbox); [|reflexivity].
  destruct (find (hits p) consentKeywords); reflexivity.
Qed.


Lemma detectConsent_type p : type (fst (detectConsent p)) = consent.
Proof.
  rewrite detectConsent_fst.
  destruct (hits p uncheckedCheckbox), (find (hits p) consentKeywords);
    reflexivity.
Qed.

(** [detectHumanStep] with its trace of queries, check by check. *)
Lemma detectHumanStep_unfold p :
  detectHumanStep p =
  let '(c, qc) := detectCaptcha p in
  if detected c then (Some c, qc) else
  let '(t, qt) := detect2FA p in
  if detected t then (Some t, qc ++ qt) else
  let '(f, qf) := detectFileUpload p in
  if detected f then (Some f, qc ++ qt ++ qf) else
  let '(s, qs) := detectConsent p in
  if detected s then (Some s, qc ++ qt ++ qf ++ qs)
  else (None, qc ++ qt ++ qf ++ qs).
Proof.
  unfold detectHumanStep, bind.
  destruct (detectCaptcha p) as [c qc].
  destruct (detected c); cbn [ret]; [now rewrite app_nil_r|].
  destruct (detect2FA p) as [t qt].
  destruct (detected t); cbn [ret]; [now rewrite app_nil_r|].
  destruct (detectFileUpload p) as [f qf].
  destruct (detected f); cbn [ret]; [now rewrite app_nil_r|].
  destruct (detectConsent p) as [s qs].
  destruct (detected s); cbn [ret]; now rewrite app_nil_r.
Qed.


Lemma frameHits_present p s : frameHits p s = true <-> framePresent p s.
Proof.
  unfold frameHits, framePresent, catch0.
  destruct (frameBodyCount p s) as [[|n]|]; simpl.
  - split; [discriminate | intros [n H]; discriminate].
  - split; [intros _; now exists n | reflexivity].
  - split; [discriminate | intros [n H]; discriminate].
Qed.


Lemma detectCaptcha_frame p :
  framePresent p recaptchaFrame \/ framePresent p hcaptchaFrame ->
  exists d qs, detectCaptcha p = (d, qs) /\ detected d = true /\
    Forall (fun q => q = QFrameBody recaptchaFrame \/
                     q = QFrameBody hcaptchaFrame) qs.
Proof.
  intros H.
  assert (frameHits p recaptchaFrame = true \/
          (frameHits p recaptchaFrame = false /\
           frameHits p hcaptchaFrame = true)) as Hc.
  { destruct (frameHits p recaptchaFrame) eqn:E; [now left | right].
    split; [reflexivity|]. apply frameHits_present.
    destruct H as [H|H]; [|exact H].
    apply frameHits_present in H. congruence. }
  unfold detectCaptcha, bind at 1, countFrameBody at 1.
  unfold frameHits in Hc.
  destruct Hc as [E | [E1 E2]].
  - rewrite E. cbn [ret]. do 2 eexists. split; [reflexivity|].
    split; [reflexivity|]. cbn [app].
    constructor; [left; reflexivity | constructor].
  - rewrite E1. unfold bind at 1, countFrameBody at 1. rewrite E2. cbn [ret].
    do 2 eexists. split; [reflexivity|]. split; [reflexivity|].
    cbn [app]. constructor; [left; reflexivity|].
    constructor; [right; reflexivity | constructor].
Qed.

Ltac each_selector H :=
  repeat (destruct H as [<-|H]; [reflexivity|]); contradiction.

Lemma captchaKeywords_category s :
  In s captchaKeywords -> queryCategory (QLocator s) = Some captcha.
Proof. intros H. each_selector H. Qed.

Lemma twoFAKeywords_category s :
  In s twoFAKeywords -> queryCategory (QLocator s) = Some two_fa.
Proof. intros H. each_selector H. Qed.

Lemma uploadLabels_category s :
  In s (visibleFileInput :: uploadLabels) ->
  queryCategory (QLocator s) = Some file_upload.
Proof. intros H. each_selector H. Qed.

Lemma consentKeywords_category s :
  In s (uncheckedCheckbox :: consentKeywords) ->
  queryCategory (QLocator s) = Some consent.
Proof. intros H. each_selector H. Qed.

Lemma scanKeywords_allOf mk t selectors p c :
  (forall s, In s selectors -> queryCategory (QLocator s) = Some c) ->
  allOf c (snd (scanKeywords mk t selectors p)).
Proof.
  intros H. eapply Forall_impl; [|apply scanKeywords_queries].
  intros q [s [Hin ->]]. now apply H.
Qed.

Lemma detectCaptcha_queries p : allOf captcha (snd (detectCaptcha p)).
Proof.
  unfold detectCaptcha, bind at 1, countFrameBody at 1.
  destruct (0 <? catch0 (frameBodyCount p recaptchaFrame))%nat;
    [repeat constructor|].
  unfold bind at 1, countFrameBody at 1.
  destruct (0 <? catch0 (frameBodyCount p hcaptchaFrame))%nat;
    [repeat constructor|].
  pose proof (scanKeywords_allOf captchaHit captcha captchaKeywords p captcha
                captchaKeywords_category) as H.
  unfold scanKeywords, keywordBody, captchaHit in H.
  destruct (bind (forSelectors _ captchaKeywords) _ p) as [r qs].
  cbn [snd app] in *. repeat constructor. exact H.
Qed.

Lemma detect2FA_queries p : allOf two_fa (snd (detect2FA p)).
Proof.
  exact (scanKeywords_allOf twoFAHit two_fa twoFAKeywords p two_fa
           twoFAKeywords_category).
Qed.

Lemma detectFileUpload_queries p :
  allOf file_upload (snd (detectFileUpload p)).
Proof.
  unfold detectFileUpload, bind at 1, countLocator at 1.
  destruct (0 <? catch0 (locatorCount p visibleFileInput))%nat;
    [|repeat constructor].
  pose proof (scanKeywords_allOf uploadHit file_upload uploadLabels p
                file_upload
                (fun s H => uploadLabels_category s (or_intror H))) as H.
  unfold scanKeywords, keywordBody, uploadHit in H.
  destruct (bind (forSelectors _ uploadLabels) _ p) as [r qs].
  cbn [snd app] in *. repeat constructor. exact H.
Qed.

Lemma forSelectors_consent_queries selectors p :
  Forall (fun q => q = QLocator uncheckedCheckbox \/
                   exists s, In s selectors /\ q = QLocator s)
         (snd (forSelectors consentBody selectors p)).
Proof.
  induction selectors as [|s rest IH]; simpl; [constructor|].
  unfold bind at 1, consentBody at 1, bind, countLocator.
  assert (Forall (fun q => q = QLocator uncheckedCheckbox \/
                   exists s0, In s0 (s :: rest) /\ q = QLocator s0)
            (snd (forSelectors consentBody rest p))) as IH'.
  { eapply Forall_impl; [|exact IH].
    intros q [->|[s' [Hin ->]]]; [now left | right; exists s'; simpl; auto]. }
  destruct (0 <? catch0 (locatorCount p s))%nat.
  - destruct (0 <? catch0 (locatorCount p uncheckedCheckbox))%nat.
    + cbn [ret snd app]. constructor; [right; exists s; simpl; auto|].
      constructor; [now left | constructor].
    + cbn [ret fst snd app].
      destruct (forSelectors consentBody rest p) as [r q]. cbn [snd] in *.
      constructor; [right; exists s; simpl; auto|].
      constructor; [now left | exact IH'].
  - cbn [ret fst snd app].
    destruct (forSelectors consentBody rest p) as [r q]. cbn [snd] in *.
    constructor; [right; exists s; simpl; auto | exact IH'].
Qed.

Lemma detectConsent_queries p : allOf consent (snd (detectConsent p)).
Proof.
  pose proof (forSelectors_consent_queries consentKeywords p) as H.
  unfold detectConsent. unfold bind at 1.
  unfold consentBody, consentHit in H.
  destruct (forSelectors _ consentKeywords p) as [r q]. cbn [snd] in H.
  assert (allOf consent q) as Hq.
  { eapply Forall_impl; [|exact H].
    intros a [->|[s [Hin ->]]]; [reflexivity|].
    apply consentKeywords_category. now right. }
  destruct r; cbn [ret snd]; rewrite app_nil_r; exact Hq.
Qed.

Lemma allOf_upto t c qs :
  allOf t qs -> (rank t <= rank c)%nat ->
  Forall (fun q => exists t', queryCategory q = Some t' /\
                              (rank t' <= rank c)%nat) qs.
Proof.
  intros H Hr. eapply Forall_impl; [|exact H].
  intros q Hq. now exists t.
Qed.

(** The queries of a cycle that ends in a detection all belong to checks of
    the category detected or of higher priority. *)
Lemma detectHumanStep_queries p d qs :
  detectHumanStep p = (Some d, qs) ->
  Forall (fun q => exists t, queryCategory q = Some t /\
                             (rank t <= rank (type d))%nat) qs.
Proof.
  rewrite detectHumanStep_unfold.
  pose proof (detectCaptcha_queries p) as Qc.
  pose proof (detect2FA_queries p) as Qt.
  pose proof (detectFileUpload_queries p) as Qf.
  pose proof (detectConsent_queries p) as Qs.
  pose proof (detectCaptcha_type p) as Tc.
  pose proof (detect2FA_type p) as Tt.
  pose proof (detectFileUpload_type p) as Tf.
  pose proof (detectConsent_type p) as Ts.
  destruct (detectCaptcha p) as [c qc], (detect2FA p) as [t qt],
    (detectFileUpload p) as [f qf], (detectConsent p) as [s qs'].
  cbn [fst snd] in *.
  destruct (detected c);
    [intros [= <- <-]; rewrite Tc; now apply (allOf_upto captcha)|].
  destruct (detected t).
  { intros [= <- <-]. rewrite Tt. apply Forall_app. split.
    - apply (allOf_upto captcha); [exact Qc | cbn; lia].
    - now apply (allOf_upto two_fa). }
  destruct (detected f).
  { intros [= <- <-]. rewrite Tf. repeat (apply Forall_app; split).
    - apply (allOf_upto captcha); [exact Qc | cbn; lia].
    - apply (allOf_upto two_fa); [exact Qt | cbn; lia].
    - now apply (allOf_upto file_upload). }
  destruct (detected s); [|discriminate].
  intros [= <- <-]. rewrite Ts. repeat (apply Forall_app; split).
  - apply (allOf_upto captcha); [exact Qc | cbn; lia].
  - apply (allOf_upto two_fa); [exact Qt | cbn; lia].
  - apply (allOf_upto file_upload); [exact Qf | cbn; lia].
  - now apply (allOf_upto consent).
Qed.

(** C2: [detectHumanStep] runs the four checks in the order CAPTCHA, 2FA,
    file upload, consent; the first check that detects gives the result, and
    the queries issued are those of the checks up to it and no others: none
    belongs to a check of lower priority than the category returned.  Each
    check reports under its own category.  In particular, on a page with a
    reCAPTCHA or hCaptcha iframe the result is a detection of category
    [captcha], whatever else the page holds, and only the iframe queries were
    issued. *)
Theorem detectHumanStep_priority_order (p : Page) :
  detectHumanStep p =
    (let '(c, qc) := detectCaptcha p in
     if detected c then (Some c, qc) else
     let '(t, qt) := detect2FA p in
     if detected t then (Some t, qc ++ qt) else
     let '(f, qf) := detectFileUpload p in
     if detected f then (Some f, qc ++ qt ++ qf) else
     let '(s, qs) := detectConsent p in
     if detected s then (Some s, qc ++ qt ++ qf ++ qs)
     else (None, qc ++ qt ++ qf ++ qs))
  /\ (type (fst (detectCaptcha p)) = captcha /\
      type (fst (detect2FA p)) = two_fa /\
      type (fst (detectFileUpload p)) = file_upload /\
      type (fst (detectConsent p)) = consent)
  /\ (forall d qs,
        detectHumanStep p = (Some d, qs) ->
        Forall (fun q => exists t, queryCategory q = Some t /\
                                   (rank t <= rank (type d))%nat) qs)
  /\ (framePresent p recaptchaFrame \/ framePresent p hcaptchaFrame ->
      exists d qs,
        detectHumanStep p = (Some d, qs) /\
        detected d = true /\ type d = captcha /\
        Forall (fun q => q = QFrameBody recaptchaFrame \/
                         q = QFrameBody hcaptchaFrame) qs).
Proof.
  split; [apply detectHumanStep_unfold|].
  split; [|split].
  - auto using detectCaptcha_type, detect2FA_type, detectFileUpload_type,
      detectConsent_type.
  - apply detectHumanStep_queries.
  - intros H. destruct (detectCaptcha_frame p H) as [d [qs [E [Hd Hq]]]].
    exists d, qs. rewrite detectHumanStep_unfold, E, Hd.
    split; [reflexivity|]. split; [reflexivity|]. split; [|exact Hq].
    pose proof (detectCaptcha_type p) as Ht. rewrite E in Ht. exact Ht.
Qed.

Lemma detectHumanStep_priority_order_witness :
  exists d qs,
    detectHumanStep crowdedPage = (Some d, qs) /\
    detected d = true /\ type d = captcha /\
    Forall (fun q => q = QFrameBody recaptchaFrame \/
                     q = QFrameBody hcaptchaFrame) qs.
Proof.
  apply (proj2 (proj2 (proj2 (detectHumanStep_priority_order crowdedPage)))).
  left. exists 0. reflexivity.
Defined.

Lemma detectHumanStep_fst p :
  fst (detectHumanStep p) =
  if detected (fst (detectCaptcha p)) then Some (fst (detectCaptcha p))
  else if detected (fst (detect2FA p)) then Some (fst (detect2FA p))
  else if detected (fst (detectFileUpload p))
       then Some (fst (detectFileUpload p))
  else if detected (fst (detectConsent p)) then Some (fst (detectConsent p))
  else None.
Proof.
  rewrite detectHumanStep_unfold.
  destruct (detectCaptcha p) as [c qc], (detect2FA p) as [t qt],
    (detectFileUpload p) as [f qf], (detectConsent p) as [s qs]; cbn [fst].
  destruct (detected c), (detected t), (detected f), (detected s); reflexivity.
Qed.

(** C5, as the code has it: on a page on which none of the four checks
    matches, in particular on a blank page, [detectHumanStep] returns [null];
    it returns no [DetectionResult] at all, and whenever it does return one,
    that result has [detected: true] and the category of a check. *)
Theorem detectHumanStep_no_match (p : Page) :
  (fst (detectHumanStep p) = None <->
     detected (fst (detectCaptcha p)) = false /\
     detected (fst (detect2FA p)) = false /\
     detected (fst (detectFileUpload p)) = false /\
     detected (fst (detectConsent p)) = false)
  /\ fst (detectHumanStep blankPage) = None
  /\ (forall d, fst (detectHumanStep p) = Some d ->
        detected d = true /\ type d <> unknown).
Proof.
  split; [|split; [reflexivity|]].
  - rewrite detectHumanStep_fst.
    destruct (detected (fst (detectCaptcha p))), (detected (fst (detect2FA p))),
      (detected (fst (detectFileUpload p))), (detected (fst (detectConsent p)));
      split; try discriminate; try tauto;
      intros (H1 & H2 & H3 & H4); discriminate.
  - intros d. rewrite detectHumanStep_fst.
    pose proof (detectCaptcha_type p). pose proof (detect2FA_type p).
    pose proof (detectFileUpload_type p). pose proof (detectConsent_type p).
    destruct (detected (fst (detectCaptcha p))) eqn:E1;
      [intros [= <-]; split; [exact E1 | congruence]|].
    destruct (detected (fst (detect2FA p))) eqn:E2;
      [intros [= <-]; split; [exact E2 | congruence]|].
    destruct (detected (fst (detectFileUpload p))) eqn:E3;
      [intros [= <-]; split; [exact E3 | congruence]|].
    destruct (detected (fst (detectConsent p))) eqn:E4;
      [intros [= <-]; split; [exact E4 | congruence]|].
    discriminate.
Qed.

(** C5 as stated fails: on the blank page the detector returns no
    [DetectionResult] with [detected: false]; it returns [null]. *)
Lemma detectHumanStep_blank_not_a_result :
  ~ exists d, fst (detectHumanStep blankPage) = Some d /\ detected d = false.
Proof. intros [d [H _]]. vm_compute in H. discriminate. Qed.





End DetectorFacts.

(** *** The detector on concrete pages *)




(** * Properties of the resolution waiter *)

Lemma HumanStepType_eqb_eq a b : HumanStepType_eqb a b = true <-> a = b.
Proof. destruct a, b; cbn; split; congruence. Qed.

Section WaiterFacts.

Variable env : Env.
Variable prev : DetectionResult.

(** The waiter's test is the one the properties are stated with. *)
Lemma resolvedBy_cleared t :
  resolvedBy prev (pollAt env t) = true <-> clearedAt env prev t.
Proof.
  unfold clearedAt, resolvedBy. destruct (pollAt env t) as [c|].
  - rewrite negb_true_iff. split.
    + intros H. right. exists c. split; [reflexivity|]. intros E.
      apply HumanStepType_eqb_eq in E. congruence.
    + intros [H|[c' [[= <-] Hn]]]; [discriminate|].
      destruct (HumanStepType_eqb (type c) (type prev)) eqn:E;
        [apply HumanStepType_eqb_eq in E; contradiction | reflexivity].
  - split; auto.
Qed.

Lemma resolvedBy_pending t :
  resolvedBy prev (pollAt env t) = false <-> pendingAt env prev t.
Proof.
  unfold pendingAt, resolvedBy. destruct (pollAt env t) as [c|].
  - rewrite negb_false_iff, HumanStepType_eqb_eq. split.
    + intros H. exists c. auto.
    + now intros [c' [[= <-] H]].
  - split; [discriminate | intros [c [H _]]; discriminate].
Qed.

Lemma waitLoop_unfold fuel s T w :
  waitLoop (S fuel) env prev s T w =
  if (now w - s <? T)%Z then
    let w1 := advance (Z.of_nat (detectMs env))
                (asked (snd (detectHumanStep (pageAt env (now w)))) w) in
    if resolvedBy prev (pollAt env (now w)) then (Returned true, w1)
    else
      match waitError env (now w1) with
      | Some (d, m) =>
          (Threw (JsError m), advance (Z.min (Z.of_nat d) 2000) w1)
      | None => waitLoop fuel env prev s T (advance 2000 w1)
      end
  else (Returned false, w).
Proof.
  cbn [waitLoop]. unfold andThen at 1, dateNow.
  destruct (now w - s <? T)%Z; [|reflexivity].
  unfold andThen at 1, awaitDetectHumanStep, pollAt.
  destruct (detectHumanStep (pageAt env (now w))) as [r qs]; cbn [fst snd].
  cbv zeta. destruct (resolvedBy prev r); [reflexivity|].
  unfold andThen, waitForTimeout.
  destruct (waitError env _) as [[d m]|]; reflexivity.
Qed.

Lemma waiterEnds_later {A} w1 w2 (o : Outcome A) :
  (now w1 <= now w2)%Z -> waiterEnds env w2 o -> waiterEnds env w1 o.
Proof.
  intros Hle. destruct o as [b|e|]; cbn; auto.
  intros (t & d & m & Ht & Hw & He). exists t, d, m. repeat split; auto. lia.
Qed.

Lemma waitLoop_frame fuel s T w :
  sameOutside w (snd (waitLoop fuel env prev s T w)).
Proof.
  revert w. induction fuel as [|fuel IH]; intros w.
  - cbn. repeat split.
  - rewrite waitLoop_unfold.
    destruct (now w - s <? T)%Z; [|cbn; repeat split].
    cbv zeta. destruct (resolvedBy prev _); [cbn; repeat split|].
    destruct (waitError env _) as [[d m]|]; [cbn; repeat split|].
    match goal with |- context [waitLoop fuel env prev s T ?w2] =>
      exact (IH w2) end.
Qed.

(** The clock does not go back. *)
Lemma waitLoop_later fuel s T w :
  (now w <= now (snd (waitLoop fuel env prev s T w)))%Z.
Proof.
  revert w. induction fuel as [|fuel IH]; intros w.
  - cbn. lia.
  - rewrite waitLoop_unfold.
    destruct (now w - s <? T)%Z; [|cbn; lia].
    cbv zeta. destruct (resolvedBy prev _); [cbn; lia|].
    destruct (waitError env _) as [[d m]|]; [cbn; lia|].
    match goal with |- context [waitLoop fuel env prev s T ?w2] =>
      specialize (IH w2) end.
    cbn [now advance asked] in IH. lia.
Qed.

(** With fuel for the time left, the loop ends. *)
Lemma waitLoop_ends fuel s T w :
  (T - (now w - s) <= 2000 * Z.of_nat fuel)%Z ->
  waiterEnds env w (fst (waitLoop (S fuel) env prev s T w)).
Proof.
  revert w. induction fuel as [|fuel IH]; intros w H; rewrite waitLoop_unfold.
  - destruct (Z.ltb_spec (now w - s) T) as [Hlt|Hge]; [lia | exact I].
  - destruct (Z.ltb_spec (now w - s) T) as [Hlt|Hge]; [|exact I].
    cbv zeta. destruct (resolvedBy prev _); [exact I|].
    destruct (waitError env _) as [[d m]|] eqn:Hw.
    + cbn [fst waiterEnds]. do 3 eexists.
      split; [|split; [exact Hw | reflexivity]].
      cbn [now advance asked]. lia.
    + match goal with |- context [waitLoop (S fuel) env prev s T ?w2] =>
        apply (waiterEnds_later w w2);
          [cbn [now advance asked]; lia | apply IH; cbn [now advance asked]; lia]
      end.
Qed.

Lemma waitFuel_enough T w :
  (T - (now w - now w) <= 2000 * Z.of_nat (Z.to_nat (T / 2000) + 1))%Z.
Proof.
  destruct (Z.le_gt_cases T 0) as [Hle|Hgt]; [lia|].
  pose proof (Z.div_pos T 2000 ltac:(lia) ltac:(lia)) as Hq.
  pose proof (Z.mod_pos_bound T 2000 ltac:(lia)) as Hm.
  pose proof (Z.div_mod T 2000 ltac:(lia)) as Hd.
  rewrite Nat2Z.inj_add, Z2Nat.id by exact Hq. lia.
Qed.

Lemma waitForHumanStepResolution_unfold T w :
  waitForHumanStepResolution env prev T w =
  waitLoop (waitFuel T) env prev (now w) T w.
Proof. reflexivity. Qed.

(** The waiter always ends, with a boolean or with the error of a rejected
    wait, and touches neither the store, nor the notifier, nor the
    console. *)
Lemma waitForHumanStepResolution_ends T w :
  exists o w',
    waitForHumanStepResolution env prev T w = (o, w') /\
    waiterEnds env w o /\ sameOutside w w' /\ (now w <= now w')%Z.
Proof.
  rewrite waitForHumanStepResolution_unfold.
  unfold waitFuel. replace (Z.to_nat (T / 2000) + 2)
    with (S (Z.to_nat (T / 2000) + 1)) by lia.
  pose proof (waitLoop_ends (Z.to_nat (T / 2000) + 1) (now w) T w
                (waitFuel_enough T w)) as He.
  pose proof (waitLoop_frame (S (Z.to_nat (T / 2000) + 1)) (now w) T w) as F.
  pose proof (waitLoop_later (S (Z.to_nat (T / 2000) + 1)) (now w) T w) as L.
  destruct (waitLoop _ env prev (now w) T w) as [o w'].
  exists o, w'. auto.
Qed.

Lemma pollTime_0 t0 : pollTime env t0 0 = t0.
Proof. unfold pollTime. lia. Qed.

Lemma pollTime_S t0 j :
  pollTime env (t0 + Z.of_nat (detectMs env) + 2000) j
  = pollTime env t0 (S j).
Proof. unfold pollTime, period. lia. Qed.

Lemma waitTime_S t0 j :
  waitTime env (t0 + Z.of_nat (detectMs env) + 2000) j
  = waitTime env t0 (S j).
Proof. unfold waitTime. now rewrite pollTime_S. Qed.

Lemma pollsOn_S t0 j :
  pollsOn env prev t0 (S j) ->
  pollsOn env prev (t0 + Z.of_nat (detectMs env) + 2000) j.
Proof. unfold pollsOn. now rewrite pollTime_S, waitTime_S. Qed.

(** One turn of the loop whose poll still reports the category and whose
    wait runs its time. *)
Lemma waitLoop_turn fuel s T w :
  (now w - s < T)%Z ->
  pollsOn env prev (now w) 0 ->
  exists w2,
    waitLoop (S fuel) env prev s T w = waitLoop fuel env prev s T w2 /\
    now w2 = (now w + Z.of_nat (detectMs env) + 2000)%Z.
Proof.
  intros Hlt [Hp Hw]. rewrite pollTime_0 in Hp.
  unfold waitTime in Hw. rewrite pollTime_0 in Hw.
  rewrite waitLoop_unfold. cbv zeta.
  destruct (Z.ltb_spec (now w - s) T) as [_|Hge]; [|lia].
  apply resolvedBy_pending in Hp. rewrite Hp.
  cbn [now advance asked]. rewrite Hw.
  eexists. split; [reflexivity|]. reflexivity.
Qed.

(** The loop returns [true] at the first poll that no longer reports the
    category, provided that poll starts before the deadline. *)
Lemma waitLoop_true k : forall fuel s T w,
  (k < fuel)%nat ->
  (forall j, (j < k)%nat -> pollsOn env prev (now w) j) ->
  (pollTime env (now w) k - s < T)%Z ->
  clearedAt env prev (pollTime env (now w) k) ->
  exists w',
    waitLoop fuel env prev s T w = (Returned true, w') /\
    now w' = waitTime env (now w) k.
Proof.
  induction k as [|k IH]; intros fuel s T w Hf Hp Hk Hr;
    (destruct fuel as [|fuel]; [lia|]).
  - rewrite pollTime_0 in Hk, Hr. rewrite waitLoop_unfold. cbv zeta.
    destruct (Z.ltb_spec (now w - s) T) as [Hlt|Hge]; [|lia].
    apply resolvedBy_cleared in Hr. rewrite Hr.
    eexists; split; [reflexivity|].
    unfold waitTime. rewrite pollTime_0. reflexivity.
  - assert (now w - s < T)%Z as Hlt.
    { unfold pollTime, period in Hk. lia. }
    destruct (waitLoop_turn fuel s T w Hlt (Hp 0%nat ltac:(lia)))
      as [w2 [-> Hn2]].
    destruct (IH fuel s T w2) as [w' [E Hn]].
    + lia.
    + intros j Hj. rewrite Hn2. apply pollsOn_S, Hp. lia.
    + rewrite Hn2, pollTime_S. exact Hk.
    + rewrite Hn2, pollTime_S. exact Hr.
    + exists w'. split; [exact E|]. rewrite Hn, Hn2. apply waitTime_S.
Qed.

(** The loop returns [false] after [n] polls that all still report the
    category, when the deadline has passed by then. *)
Lemma waitLoop_false n : forall fuel s T w,
  (n < fuel)%nat ->
  (forall j, (j < n)%nat ->
     pollsOn env prev (now w) j /\ (pollTime env (now w) j - s < T)%Z) ->
  (T <= pollTime env (now w) n - s)%Z ->
  exists w',
    waitLoop fuel env prev s T w = (Returned false, w') /\
    now w' = pollTime env (now w) n.
Proof.
  induction n as [|n IH]; intros fuel s T w Hf Hp Hn;
    (destruct fuel as [|fuel]; [lia|]).
  - rewrite pollTime_0 in Hn. rewrite waitLoop_unfold.
    destruct (Z.ltb_spec (now w - s) T) as [Hlt|Hge]; [lia|].
    eexists; split; [reflexivity|]. now rewrite pollTime_0.
  - destruct (Hp 0%nat ltac:(lia)) as [H0 H0'].
    rewrite pollTime_0 in H0'.
    destruct (waitLoop_turn fuel s T w H0' H0) as [w2 [-> Hn2]].
    destruct (IH fuel s T w2) as [w' [E Hn']].
    + lia.
    + intros j Hj. rewrite Hn2, pollTime_S.
      destruct (Hp (S j) ltac:(lia)) as [Hq Hq'].
      split; [apply pollsOn_S, Hq | exact Hq'].
    + rewrite Hn2, pollTime_S. exact Hn.
    + exists w'. split; [exact E|]. rewrite Hn', Hn2. apply pollTime_S.
Qed.

(** The loop rejects at the first wait that is rejected. *)
Lemma waitLoop_threw k : forall fuel s T w d m,
  (k < fuel)%nat ->
  (forall j, (j < k)%nat -> pollsOn env prev (now w) j) ->
  (pollTime env (now w) k - s < T)%Z ->
  pendingAt env prev (pollTime env (now w) k) ->
  waitError env (waitTime env (now w) k) = Some (d, m) ->
  exists w',
    waitLoop fuel env prev s T w = (Threw (JsError m), w') /\
    now w' = (waitTime env (now w) k + Z.min (Z.of_nat d) 2000)%Z.
Proof.
  induction k as [|k IH]; intros fuel s T w d m Hf Hp Hk Hr Hw;
    (destruct fuel as [|fuel]; [lia|]).
  - rewrite pollTime_0 in Hk, Hr. unfold waitTime in *.
    rewrite pollTime_0 in *. rewrite waitLoop_unfold. cbv zeta.
    destruct (Z.ltb_spec (now w - s) T) as [Hlt|Hge]; [|lia].
    apply resolvedBy_pending in Hr. rewrite Hr.
    cbn [now advance asked]. rewrite Hw.
    eexists; split; [reflexivity|]. reflexivity.
  - assert (now w - s < T)%Z as Hlt.
    { unfold pollTime, period in Hk. lia. }
    destruct (waitLoop_turn fuel s T w Hlt (Hp 0%nat ltac:(lia)))
      as [w2 [-> Hn2]].
    destruct (IH fuel s T w2 d m) as [w' [E Hn]].
    + lia.
    + intros j Hj. rewrite Hn2. apply pollsOn_S, Hp. lia.
    + rewrite Hn2, pollTime_S. exact Hk.
    + rewrite Hn2, pollTime_S. exact Hr.
    + rewrite Hn2, waitTime_S. exact Hw.
    + exists w'. split; [exact E|]. rewrite Hn, Hn2, waitTime_S.
      reflexivity.
Qed.

Lemma polls_within_fuel (k : nat) T :
  (Z.of_nat k * period env < T)%Z -> (k < waitFuel T)%nat.
Proof.
  unfold period, waitFuel. intros H.
  assert (Z.of_nat k <= T / 2000)%Z as Hk
    by (apply Z.div_le_lower_bound; lia).
  lia.
Qed.

Lemma pollsBeforeDeadline_spec T :
  let n := pollsBeforeDeadline env T in
  (T <= Z.of_nat n * period env)%Z /\
  (forall j, (j < n)%nat -> (Z.of_nat j * period env < T)%Z).
Proof.
  unfold pollsBeforeDeadline.
  assert (0 < period env)%Z as Hp by (unfold period; lia).
  destruct (Z.leb_spec T 0) as [Hle|Hgt]; cbn zeta.
  - split; [lia | intros j Hj; lia].
  - pose proof (Z.div_pos (T - 1) (period env) ltac:(lia) Hp) as Hq.
    pose proof (Z.mod_pos_bound (T - 1) (period env) Hp) as Hm.
    pose proof (Z.div_mod (T - 1) (period env) ltac:(lia)) as Hd.
    rewrite Nat2Z.inj_add, Z2Nat.id by exact Hq.
    split; [nia|]. intros j Hj.
    assert (Z.of_nat j <= (T - 1) / period env)%Z as Hj' by lia. nia.
Qed.

Lemma waiter_sameOutside T w o w' :
  waitForHumanStepResolution env prev T w = (o, w') -> sameOutside w w'.
Proof.
  rewrite waitForHumanStepResolution_unfold. intros E.
  pose proof (waitLoop_frame (waitFuel T) (now w) T w) as F.
  now rewrite E in F.
Qed.

(** Polls that all still report the category, each followed by a wait that
    runs its time, until the deadline has passed: the waiter returns
    [false]. *)
Lemma waiter_gives_up T w :
  (forall k : nat,
     (Z.of_nat k * period env < T)%Z -> pollsOn env prev (now w) k) ->
  exists (n : nat) w',
    waitForHumanStepResolution env prev T w = (Returned false, w') /\
    now w' = pollTime env (now w) n /\
    (T <= Z.of_nat n * period env)%Z /\
    (forall j, (j < n)%nat -> (Z.of_nat j * period env < T)%Z).
Proof.
  intros Hall.
  destruct (pollsBeforeDeadline_spec T) as [Hn Hj].
  set (n := pollsBeforeDeadline env T) in *.
  assert (n < waitFuel T)%nat as Hf.
  { destruct n as [|n']; [unfold waitFuel; lia|].
    specialize (Hj n' ltac:(lia)). unfold period in Hj.
    assert (Z.of_nat n' <= T / 2000)%Z
      by (apply Z.div_le_lower_bound; lia).
    unfold waitFuel. lia. }
  destruct (waitLoop_false n (waitFuel T) (now w) T w) as [w' [E Hn']].
  - exact Hf.
  - intros j Hlt. specialize (Hj j Hlt).
    split; [now apply Hall | unfold pollTime; lia].
  - unfold pollTime. lia.
  - exists n, w'. rewrite waitForHumanStepResolution_unfold. auto.
Qed.

(** C1, as the code has it: the waiter polls the detector every 2000 ms
    (plus the duration of a detection cycle), the poll [j] at
    [pollTime env (now w) j] and the wait after it at [waitTime env (now w)
    j].  As long as the waits between the polls run their time, it returns
    [true] at the first poll that reports nothing or another category than
    the one detected before, if that poll starts before the timeout has
    elapsed; if every poll that starts before the timeout still reports the
    category, it returns [false], once the timeout has elapsed and within
    one polling interval of it.  When a wait is rejected before that, the
    waiter rejects with the error of that wait and returns no boolean.  The
    default timeout is 300000 ms.  Store, notifier and console are left as
    they were. *)
Theorem waitForHumanStepResolution_polling (T : Z) (w : World) :
  defaultTimeoutMs = 300000%Z
  /\ (forall j, pollTime env (now w) (S j) - waitTime env (now w) j = 2000)%Z
  /\ (forall k : nat,
        (forall j, (j < k)%nat -> pollsOn env prev (now w) j) ->
        (Z.of_nat k * period env < T)%Z ->
        clearedAt env prev (pollTime env (now w) k) ->
        exists w',
          waitForHumanStepResolution env prev T w = (Returned true, w') /\
          now w' = waitTime env (now w) k /\
          sameOutside w w')
  /\ ((forall k : nat,
         (Z.of_nat k * period env < T)%Z -> pollsOn env prev (now w) k) ->
      exists (n : nat) w',
        waitForHumanStepResolution env prev T w = (Returned false, w') /\
        now w' = pollTime env (now w) n /\
        (T <= Z.of_nat n * period env)%Z /\
        (forall j, (j < n)%nat -> (Z.of_nat j * period env < T)%Z) /\
        sameOutside w w')
  /\ (forall (k : nat) d m,
        (forall j, (j < k)%nat -> pollsOn env prev (now w) j) ->
        (Z.of_nat k * period env < T)%Z ->
        pendingAt env prev (pollTime env (now w) k) ->
        waitError env (waitTime env (now w) k) = Some (d, m) ->
        exists w',
          waitForHumanStepResolution env prev T w
            = (Threw (JsError m), w') /\
          now w' = (waitTime env (now w) k + Z.min (Z.of_nat d) 2000)%Z /\
          sameOutside w w').
Proof.
  split; [reflexivity|]. split; [|split; [|split]].
  - intros j. unfold waitTime, pollTime, period. lia.
  - intros k Hp Hk Hr.
    destruct (waitLoop_true k (waitFuel T) (now w) T w) as [w' [E Hn]];
      [now apply polls_within_fuel | exact Hp | unfold pollTime; lia
      | exact Hr |].
    exists w'. rewrite waitForHumanStepResolution_unfold.
    split; [exact E|]. split; [exact Hn|].
    exact (waiter_sameOutside T w _ _ E).
  - intros Hall.
    destruct (waiter_gives_up T w Hall) as (n & w' & E & Hn' & Hn & Hj).
    exists n, w'. repeat (split; [assumption|]).
    exact (waiter_sameOutside T w _ _ E).
  - intros k d m Hp Hk Hr Hw.
    destruct (waitLoop_threw k (waitFuel T) (now w) T w d m)
      as [w' [E Hn]];
      [now apply polls_within_fuel | exact Hp | unfold pollTime; lia
      | exact Hr | exact Hw |].
    exists w'. rewrite waitForHumanStepResolution_unfold.
    split; [exact E|]. split; [exact Hn|].
    exact (waiter_sameOutside T w _ _ E).
Qed.

(** C10: with a timeout of zero or less the waiter returns [false] at once:
    the deadline is checked before the first poll, so no query reaches the
    page and no time passes, whatever the page shows. *)
Theorem waitForHumanStepResolution_no_time (T : Z) (w : World) :
  (T <= 0)%Z ->
  waitForHumanStepResolution env prev T w = (Returned false, w).
Proof.
  intros H. rewrite waitForHumanStepResolution_unfold.
  unfold waitFuel. replace (Z.to_nat (T / 2000) + 2)
    with (S (Z.to_nat (T / 2000) + 1)) by lia.
  rewrite waitLoop_unfold.
  destruct (Z.ltb_spec (now w - now w) T) as [Hlt|Hge]; [lia | reflexivity].
Qed.

End WaiterFacts.

(** *** The waiter on concrete pages *)

Lemma waitForHumanStepResolution_no_time_witness :
  waitForHumanStepResolution (steadyEnv blankPage 0) captchaDetection 0
    (startWorld emptyDb)
  = (Returned false, startWorld emptyDb).
Proof. apply waitForHumanStepResolution_no_time. lia. Defined.

(** C1 as stated fails: the tab is closed one second into the wait after a
    first poll that still sees the CAPTCHA.  The poll due at two seconds
    would report nothing, so the waiter should return [true]; it returns
    neither [true] nor [false]: it rejects with the error of the wait. *)
Lemma waitForHumanStepResolution_rejects :
  let env := closingEnv captchaPage 1000 in
  let w := startWorld emptyDb in
  pendingAt env captchaDetection (pollTime env (now w) 0) /\
  clearedAt env captchaDetection (pollTime env (now w) 1) /\
  (pollTime env (now w) 1 - now w < 5000)%Z /\
  fst (waitForHumanStepResolution env captchaDetection 5000 w)
    = Threw (JsError pageClosedMessage) /\
  ~ exists b w',
      waitForHumanStepResolution env captchaDetection 5000 w
      = (Returned b, w').
Proof.
  cbv zeta. split; [|split; [|split; [|split]]].
  - exists captchaDetection. split; reflexivity.
  - left. reflexivity.
  - vm_compute. reflexivity.
  - vm_compute. reflexivity.
  - intros [b [w' H]]. vm_compute in H. discriminate H.
Qed.

Lemma steady_pollsOn p ms prev t0 j :
  (exists c, fst (detectHumanStep p) = Some c /\ type c = type prev) ->
  pollsOn (steadyEnv p ms) prev t0 j.
Proof. intros H. split; [exact H | reflexivity]. Qed.

(** The three cases of the waiter on concrete browsers: a CAPTCHA that
    clears after three polls, one that never clears before a deadline of
    5 s, and one whose tab is closed during the second wait. *)
Lemma waitForHumanStepResolution_polling_witness :
  (exists w',
     waitForHumanStepResolution (clearingEnv captchaPage 5500)
       captchaDetection defaultTimeoutMs (startWorld emptyDb)
     = (Returned true, w') /\ now w' = 6000%Z)
  /\ (exists w',
     waitForHumanStepResolution (steadyEnv captchaPage 0)
       captchaDetection 5000 (startWorld emptyDb)
     = (Returned false, w') /\ (5000 <= now w' < 5000 + 2000)%Z)
  /\ (exists w',
     waitForHumanStepResolution (closingEnv captchaPage 3000)
       captchaDetection 5000 (startWorld emptyDb)
     = (Threw (JsError pageClosedMessage), w') /\ now w' = 3000%Z).
Proof.
  split; [|split].
  - destruct (waitForHumanStepResolution_polling
                (clearingEnv captchaPage 5500) captchaDetection
                defaultTimeoutMs (startWorld emptyDb))
      as (_ & _ & Htrue & _).
    destruct (Htrue 3%nat) as [w' [E [Hn _]]].
    + intros j Hj. split; [|reflexivity].
      exists captchaDetection.
      destruct j as [|[|[|j]]]; [split; reflexivity.. | lia].
    + vm_compute. reflexivity.
    + left. reflexivity.
    + exists w'. split; [exact E | exact Hn].
  - destruct (waitForHumanStepResolution_polling
                (steadyEnv captchaPage 0) captchaDetection
                5000 (startWorld emptyDb))
      as (_ & _ & _ & Hfalse & _).
    destruct Hfalse as [n [w' [E [Hn [Hge [Hlt _]]]]]].
    + intros k _. apply steady_pollsOn.
      exists captchaDetection. split; reflexivity.
    + exists w'. split; [exact E|]. rewrite Hn.
      unfold pollTime. change (now (startWorld emptyDb)) with 0%Z.
      change (period (steadyEnv captchaPage 0)) with 2000%Z in *.
      destruct n as [|n]; [lia|]. specialize (Hlt n ltac:(lia)). lia.
  - destruct (waitForHumanStepResolution_polling
                (closingEnv captchaPage 3000) captchaDetection
                5000 (startWorld emptyDb))
      as (_ & _ & _ & _ & Hthrew).
    destruct (Hthrew 1%nat 1000%nat pageClosedMessage) as [w' [E [Hn _]]].
    + intros j Hj. split; [|destruct j; [reflexivity | lia]].
      exists captchaDetection.
      destruct j as [|j]; [split; reflexivity | lia].
    + vm_compute. reflexivity.
    + exists captchaDetection. split; reflexivity.
    + reflexivity.
    + exists w'. split; [exact E | exact Hn].
Defined.

(** Three polls still see the CAPTCHA, the fourth does not: [true] after
    three polling intervals. *)
Example waiter_resolves_after_three_polls :
  let '(r, w) := waitForHumanStepResolution (clearingEnv captchaPage 5500)
                   captchaDetection defaultTimeoutMs (startWorld emptyDb) in
  r = Returned true /\ now w = 6000%Z /\ List.length (queries w) = 29.
Proof. vm_compute. repeat split. Qed.

(** Deadline 5 s, a CAPTCHA that never clears: polls at 0, 2 and 4 s, then
    [false] at 6 s. *)
Example waiter_times_out :
  let '(r, w) := waitForHumanStepResolution (steadyEnv captchaPage 0)
                   captchaDetection 5000 (startWorld emptyDb) in
  r = Returned false /\ now w = 6000%Z /\ List.length (queries w) = 3.
Proof. vm_compute. repeat split. Qed.

(** * Properties of the application store *)

Section StoreFacts.

Lemma getApplicationById_update now id' s id d :
  getApplicationById id (updateApplicationStatus now id' s d) =
  option_map (fun a => if (app_id a =? id')%Z then setStatus now s a else a)
    (getApplicationById id d).
Proof.
  unfold getApplicationById, updateApplicationStatus; cbn [applications].
  induction (applications d) as [|a l IH]; [reflexivity|].
  cbn [map find].
  assert (app_id (if (app_id a =? id')%Z then setStatus now s a else a)
          = app_id a) as E
    by (destruct (app_id a =? id')%Z; [destruct s|]; reflexivity).
  rewrite E. destruct (app_id a =? id)%Z; [reflexivity | exact IH].
Qed.

Lemma getApplicationById_app_id id d a :
  getApplicationById id d = Some a -> app_id a = id.
Proof.
  unfold getApplicationById. intros H. apply find_some in H.
  destruct H as [_ H]. now apply Z.eqb_eq.
Qed.

Lemma getApplicationById_runCalls calls : forall d id a,
  getApplicationById id d = Some a ->
  getApplicationById id (runCalls calls d) = Some (rowAfter id calls a).
Proof.
  induction calls as [|[[now id'] s] calls IH]; intros d id a Ha;
    [exact Ha|].
  cbn [runCalls rowAfter fold_left fst snd].
  apply IH. rewrite getApplicationById_update, Ha. cbn [option_map].
  now rewrite (getApplicationById_app_id _ _ _ Ha).
Qed.

Lemma last_cons {A} (x d : A) l : last (x :: l) d = last l x.
Proof.
  revert x d. induction l as [|y l IH]; intros x d; [reflexivity|].
  change (last (x :: y :: l) d) with (last (y :: l) d).
  rewrite (IH y d). symmetry. apply IH.
Qed.

(** What a sequence of calls leaves in the two time columns of a row:
    [started_at] keeps its value, or takes the time of the first call that
    starts a run; [completed_at] takes the time of the last call that ends
    one. *)
Lemma rowAfter_timestamps id calls : forall a,
  startedAt (rowAfter id calls a) =
    match startedAt a with
    | Some t => Some t
    | None => hd_error (timesOf startsRun id calls)
    end /\
  completedAt (rowAfter id calls a) =
    last (map Some (timesOf endsRun id calls)) (completedAt a).
Proof.
  unfold timesOf.
  induction calls as [|[[now id'] s] calls IH]; intros a.
  - cbn. split; [destruct (startedAt a)|]; reflexivity.
  - change (rowAfter id ((now, id', s) :: calls) a)
      with (rowAfter id calls
              (if (id =? id')%Z then setStatus now s a else a)).
    cbn [filter fst snd]. rewrite (Z.eqb_sym id' id).
    destruct (id =? id')%Z; cbn [andb]; [|apply IH].
    destruct (IH (setStatus now s a)) as [Hs Hc]. rewrite Hs, Hc.
    destruct s; cbn [startsRun endsRun setStatus startedAt completedAt
                     coalesce map hd_error];
      try (split; reflexivity).
    + split; [destruct (startedAt a); reflexivity | reflexivity].
    + split; [destruct (startedAt a); reflexivity | reflexivity].
    + split; [reflexivity | now rewrite last_cons].
    + split; [reflexivity | now rewrite last_cons].
Qed.

(** C9, as the code has it: over any sequence of [updateApplicationStatus]
    calls, [startedAt] of a run is written at most once: a value it has is
    kept, and an empty one takes the time of the first call on the run with
    status [in_progress] or [paused].  [completedAt] is written by every call
    on the run with status [completed] or [failed]: it ends as the time of
    the last such call, and keeps its value when there is none. *)
Theorem updateApplicationStatus_timestamps
    (calls : list StatusCall) (d : Database) (id : Z) (a : Application) :
  getApplicationById id d = Some a ->
  exists a',
    getApplicationById id (runCalls calls d) = Some a' /\
    startedAt a' =
      match startedAt a with
      | Some t => Some t
      | None => hd_error (timesOf startsRun id calls)
      end /\
    completedAt a' =
      last (map Some (timesOf endsRun id calls)) (completedAt a).
Proof.
  intros Ha. exists (rowAfter id calls a).
  split; [now apply getApplicationById_runCalls | apply rowAfter_timestamps].
Qed.

Lemma updateApplicationStatus_timestamps_witness :
  exists a',
    getApplicationById 1 (runCalls twoAttempts (mkDatabase [queuedRun] [] []))
      = Some a' /\
    startedAt a' = Some 1%Z /\
    completedAt a' = Some 25%Z.
Proof.
  exact (updateApplicationStatus_timestamps twoAttempts
           (mkDatabase [queuedRun] [] []) 1 queuedRun eq_refl).
Defined.

(** C9 as stated fails for [completedAt]: a value it has is overwritten by
    the next call with status [completed] or [failed]. *)
Lemma completedAt_written_twice :
  ~ (forall (now : Timestamp) (id : Z) (s : ApplicationStatus)
            (d : Database) (a : Application) (t : Timestamp),
       getApplicationById id d = Some a ->
       completedAt a = Some t ->
       exists a',
         getApplicationById id (updateApplicationStatus now id s d) = Some a'
         /\ completedAt a' = Some t).
Proof.
  intros H.
  destruct (H 25%Z 1%Z failed
              (mkDatabase [mkApplication 1 7 completed (Some 1) (Some 8) None]
                 [] [])%Z
              (mkApplication 1 7 completed (Some 1) (Some 8) None)%Z 8%Z
              eq_refl eq_refl) as [a' [Ha Hc]].
  cbn in Ha. injection Ha as <-. cbn in Hc. discriminate.
Qed.

End StoreFacts.

(** * Properties of the workflow controller *)

Lemma hasApplication_update now id' s id d :
  hasApplication id (updateApplicationStatus now id' s d) = hasApplication id d.
Proof.
  unfold hasApplication, updateApplicationStatus; cbn [applications].
  induction (applications d) as [|a l IH]; [reflexivity|].
  cbn [map existsb]. rewrite IH. f_equal.
  destruct (app_id a =? id')%Z; [destruct s|]; reflexivity.
Qed.

Lemma hasApplication_lookup id d :
  hasApplication id d = true -> exists a, getApplicationById id d = Some a.
Proof.
  unfold hasApplication, getApplicationById. intros H.
  apply existsb_exists in H. destruct H as [a [Hin Ha]].
  destruct (find (fun a => (app_id a =? id)%Z) (applications d)) eqn:E;
    [eauto|].
  exfalso. apply (find_none _ _ E) in Hin. congruence.
Qed.

Lemma status_after_update now id s d :
  hasApplication id d = true ->
  exists a,
    getApplicationById id (updateApplicationStatus now id s d) = Some a /\
    status a = s.
Proof.
  intros H. destruct (hasApplication_lookup _ _ H) as [a Ha].
  exists (setStatus now s a).
  rewrite getApplicationById_update, Ha. cbn [option_map].
  rewrite (getApplicationById_app_id _ _ _ Ha), Z.eqb_refl.
  split; [reflexivity | destruct s; reflexivity].
Qed.

(** *** One step of an [async] function at a time *)

Lemma andThen_returned {A B} (m : Async A) (k : A -> Async B) w a w1 :
  m w = (Returned a, w1) -> andThen m k w = k a w1.
Proof. intros E. unfold andThen. now rewrite E. Qed.

Lemma andThen_threw {A B} (m : Async A) (k : A -> Async B) w e w1 :
  m w = (Threw e, w1) -> andThen m k w = (Threw e, w1).
Proof. intros E. unfold andThen. now rewrite E. Qed.

Lemma run_consoleLog l w :
  exists w', consoleLog l w = (Returned tt, w') /\
    apps w' = apps w /\ steps w' = steps w /\ console w' = console w ++ [l].
Proof. eexists; repeat split. Qed.

(** A wait resolves after its time or is rejected, as the browser decides;
    either way it touches nothing but the clock. *)
Lemma run_waitForTimeout env ms w :
  exists o w',
    waitForTimeout env ms w = (o, w') /\ untouched w w' /\
    match waitError env (now w) with
    | Some (d, m) => o = Threw (JsError m)
    | None => o = Returned tt /\ now w' = (now w + ms)%Z
    end.
Proof.
  unfold waitForTimeout. destruct (waitError env (now w)) as [[d m]|];
    do 2 eexists; repeat split.
Qed.

Lemma run_awaitDetectHumanStep env w :
  exists w',
    awaitDetectHumanStep env w = (Returned (pollAt env (now w)), w') /\
    apps w' = apps w /\ steps w' = steps w /\ console w' = console w.
Proof.
  unfold awaitDetectHumanStep, pollAt.
  destruct (detectHumanStep (pageAt env (now w))) as [r qs].
  eexists; repeat split.
Qed.

(** What each step does to the clock. *)
Lemma now_consoleLog l w : now (snd (consoleLog l w)) = now w.
Proof. reflexivity. Qed.

Lemma now_awaitDetectHumanStep env w :
  now (snd (awaitDetectHumanStep env w))
  = (now w + Z.of_nat (detectMs env))%Z.
Proof.
  unfold awaitDetectHumanStep.
  now destruct (detectHumanStep (pageAt env (now w))).
Qed.

Lemma now_sendNotification env t m s w :
  now (snd (sendNotification env t m s w)) = now w.
Proof.
  unfold sendNotification.
  now destruct (notificationsEnabled env), (notifierThrows env).
Qed.

Lemma now_audit action entity id confirmed meta w :
  now (snd (audit action entity id confirmed meta w)) = now w.
Proof.
  unfold audit.
  now destruct (addAuditLog _ action entity id confirmed meta (db w))
    as [[?|?] ?].
Qed.

Lemma now_dbUpdateApplicationStatus id s w :
  now (snd (dbUpdateApplicationStatus id s w)) = now w.
Proof. reflexivity. Qed.

Lemma now_dbAddApplicationStep id t descr meta w :
  now (snd (dbAddApplicationStep id t descr meta w)) = now w.
Proof.
  unfold dbAddApplicationStep.
  now destruct (addApplicationStep _ id t descr meta (db w)) as [[?|?] ?].
Qed.

Lemma run_sendNotification env t m s w :
  exists w', sendNotification env t m s w = (Returned tt, w') /\ untouched w w'.
Proof.
  unfold sendNotification.
  destruct (notificationsEnabled env), (notifierThrows env);
    eexists; repeat split.
Qed.

Lemma run_audit action entity id confirmed meta w :
  exists w', audit action entity id confirmed meta w = (Returned tt, w') /\
    untouched w w'.
Proof. eexists; repeat split. Qed.

Lemma run_dbUpdateApplicationStatus id s w :
  exists w', dbUpdateApplicationStatus id s w = (Returned tt, w') /\
    apps w' = applications
                (updateApplicationStatus (currentTimestamp w) id s (db w)) /\
    steps w' = steps w /\ console w' = console w.
Proof. eexists; repeat split. Qed.

Lemma run_dbAddApplicationStep id t descr meta w :
  hasApplication id (db w) = true ->
  exists row w', dbAddApplicationStep id t descr meta w = (Returned row, w') /\
    apps w' = apps w /\ steps w' = steps w ++ [row] /\ console w' = console w /\
    stepType row = t /\ application_id row = id /\ step_description row = descr.
Proof.
  intros H. unfold dbAddApplicationStep, addApplicationStep.
  fold (hasApplication id (db w)). rewrite H.
  do 2 eexists; repeat split.
Qed.

Lemma run_waitForHumanStepResolution env hs T w :
  exists o w', waitForHumanStepResolution env hs T w = (o, w') /\
    untouched w w' /\ waiterEnds env w o /\ (now w <= now w')%Z.
Proof.
  destruct (waitForHumanStepResolution_ends env hs T w)
    as [o [w' [E [He [[Hd [_ Hc]] Hl]]]]].
  exists o, w'. split; [exact E|]. unfold untouched, apps, steps.
  now rewrite Hd, Hc.
Qed.

Lemma run_notifyHumanStepDetected env t d w :
  exists w', notifyHumanStepDetected env t d w = (Returned tt, w') /\
    untouched w w'.
Proof. unfold notifyHumanStepDetected. apply run_sendNotification. Qed.

Lemma now_notifyHumanStepDetected env t d w :
  now (snd (notifyHumanStepDetected env t d w)) = now w.
Proof. unfold notifyHumanStepDetected. apply now_sendNotification. Qed.

Lemma now_notifyApplicationProgress env t c s w :
  now (snd (notifyApplicationProgress env t c s w)) = now w.
Proof. unfold notifyApplicationProgress. apply now_sendNotification. Qed.

Lemma run_notifyApplicationProgress env t c s w :
  exists w', notifyApplicationProgress env t c s w = (Returned tt, w') /\
    untouched w w'.
Proof. unfold notifyApplicationProgress. apply run_sendNotification. Qed.

Lemma run_notifyApplicationComplete env t c ok w :
  exists w', notifyApplicationComplete env t c ok w = (Returned tt, w') /\
    untouched w w'.
Proof. unfold notifyApplicationComplete. apply run_sendNotification. Qed.

(** Navigation is rejected by [page.goto] or by the wait after it, or
    returns 2000 ms after the page answered. *)
Lemma run_navigateToUrl env url w :
  exists o w',
    navigateToUrl env url w = (o, w') /\ untouched w w' /\
    match gotoError env url with
    | Some m => o = Threw (JsError m)
    | None =>
        match waitError env (now w + Z.of_nat (gotoMs env)) with
        | Some (d, m) => o = Threw (JsError m)
        | None =>
            o = Returned tt /\
            now w' = (now w + Z.of_nat (gotoMs env) + 2000)%Z
        end
    end.
Proof.
  unfold navigateToUrl, waitForTimeout. destruct (gotoError env url).
  - do 2 eexists; repeat split.
  - cbn [now advance].
    destruct (waitError env (now w + Z.of_nat (gotoMs env))) as [[d m]|];
      do 2 eexists; repeat split.
Qed.

Lemma tryCatch_returned {A} (body : Async A) handler w a w' :
  body w = (Returned a, w') -> tryCatch body handler w = (Returned a, w').
Proof. intros E. unfold tryCatch. now rewrite E. Qed.

Lemma tryCatch_threw {A} (body : Async A) handler w e w' :
  body w = (Threw e, w') -> tryCatch body handler w = handler e w'.
Proof. intros E. unfold tryCatch. now rewrite E. Qed.

Lemma hasApp_db id w : hasApp id w = hasApplication id (db w).
Proof. reflexivity. Qed.

Lemma statusOf_updated now id s w w' :
  hasApp id w = true ->
  apps w' = applications (updateApplicationStatus now id s (db w)) ->
  hasApp id w' = true /\ statusOf id w' = Some s.
Proof.
  intros H E. unfold hasApp, statusOf. rewrite E.
  fold (hasApplication id (updateApplicationStatus now id s (db w))).
  fold (getApplicationById id (updateApplicationStatus now id s (db w))).
  rewrite hasApplication_update. split; [exact H|].
  destruct (status_after_update now id s (db w) H) as [a [Ha Hs]].
  rewrite Ha. cbn. now rewrite Hs.
Qed.

Section ControllerFacts.
Variable env : Env.
Variable context : ApplicationContext.

Lemma run_dbAddApplicationStep_missing id t descr meta w :
  hasApp id w = false ->
  exists w', dbAddApplicationStep id t descr meta w =
             (Threw (JsError "FOREIGN KEY constraint failed"), w') /\
    untouched w w'.
Proof.
  intros H. unfold dbAddApplicationStep, addApplicationStep.
  fold (hasApplication id (db w)). rewrite <- hasApp_db, H.
  eexists; repeat split.
Qed.

Lemma hasApp_updated now id' id s w w' :
  apps w' = applications (updateApplicationStatus now id' s (db w)) ->
  hasApp id w' = hasApp id w.
Proof.
  intros E. unfold hasApp. rewrite E.
  apply (hasApplication_update now id' s id (db w)).
Qed.

Lemma hasApp_same id' w w' :
  apps w' = apps w -> hasApp id' w = true -> hasApp id' w' = true.
Proof. unfold hasApp. now intros ->. Qed.

Lemma statusOf_same id' w w' :
  apps w' = apps w -> statusOf id' w' = statusOf id' w.
Proof. unfold statusOf. now intros ->. Qed.

Lemma loops_app w w' l :
  console w' = console w ++ l ->
  loops w' = loops w + List.length (filter isLoopLine l).
Proof. unfold loops. intros ->. now rewrite filter_app, length_app. Qed.

Lemma timeouts_app w w' l :
  console w' = console w ++ l ->
  timeouts w' = timeouts w + List.length (filter isTimeoutLine l).
Proof. unfold timeouts. intros ->. now rewrite filter_app, length_app. Qed.

(** [next L as w' Ha Hs Hc] runs the step described by the effect lemma [L]
    and names the world after it and what is known of it. *)
Tactic Notation "next" constr(L) "as"
    ident(w') ident(Ha) ident(Hs) ident(Hc) :=
  let E := fresh "E" in
  destruct L as [w' [E [Ha [Hs Hc]]]];
  rewrite (andThen_returned _ _ _ _ _ E); clear E.

(** Rewrite what is known of later worlds into what is known of earlier
    ones. *)
Ltac chase :=
  repeat match goal with
  | H : apps ?w = _ |- context [apps ?w] => rewrite H
  | H : steps ?w = _ |- context [steps ?w] => rewrite H
  | H : console ?w = _ |- context [console ?w] => rewrite H
  end.

Ltac has_app := unfold hasApp in *; chase; assumption.

(** The same, with what the step [N] does to the clock. *)
Tactic Notation "next" constr(L) "at" constr(N) "as"
    ident(w') ident(Ha) ident(Hs) ident(Hc) ident(Hn) :=
  let E := fresh "E" in
  destruct L as [w' [E [Ha [Hs Hc]]]];
  pose proof N as Hn; rewrite E in Hn; cbn [snd] in Hn;
  rewrite (andThen_returned _ _ _ _ _ E); clear E.

Lemma rejectedWait_later w1 w2 e :
  (now w1 <= now w2)%Z -> rejectedWait env w2 e -> rejectedWait env w1 e.
Proof.
  intros Hle (t & d & m & Ht & Hw & He). exists t, d, m.
  repeat split; auto. lia.
Qed.

(** A turn of the loop that detects [hs], up to the call of the waiter:
    the step is written, the status is [paused], and the detection cycle
    is all the time that has passed. *)
Lemma mainLoop_detected fuel lc w hs :
  hasApp (applicationId context) w = true ->
  (lc < maxLoops)%nat ->
  pollAt env (now w) = Some hs ->
  exists row wq,
    mainLoop (S fuel) env context true lc w =
      (resolved <- waitForHumanStepResolution env hs defaultTimeoutMs ;;
       if negb resolved then
         consoleLog LineTimeout ;;
         dbUpdateApplicationStatus (applicationId context) paused ;;
         resolve (Some (timeoutResult hs))
       else
         consoleLog LineResolved ;;
         dbAddApplicationStep (applicationId context) human_step_resolved
           (typeName (type hs) ++ " resolved")%string [] ;;
         dbUpdateApplicationStatus (applicationId context) in_progress ;;
         audit human_step_resume entity_application
           (Some (applicationId context)) true
           [("stepType", typeName (type hs))] ;;
         waitForTimeout env 2000 ;;
         mainLoop fuel env context true (S lc)) wq /\
    now wq = (now w + Z.of_nat (detectMs env))%Z /\
    hasApp (applicationId context) wq = true /\
    statusOf (applicationId context) wq = Some paused /\
    steps wq = steps w ++ [row] /\
    stepType row = human_step_detected /\
    application_id row = applicationId context /\
    step_description row
      = (typeName (type hs) ++ ": " ++ description hs)%string /\
    console wq = console w ++
      [LineLoop (S lc);
       LineHumanStepDetected (type hs) (description hs);
       LineInstructions (type hs) (description hs);
       LineWaitingForYou].
Proof.
  intros Happ Hlt Hpoll. cbn [mainLoop].
  apply Nat.ltb_lt in Hlt. rewrite Hlt. cbn [andb].
  next (run_consoleLog (LineLoop (S lc)) w)
    at (now_consoleLog (LineLoop (S lc)) w) as w0 Ha0 Hs0 Hc0 Hn0.
  next (run_awaitDetectHumanStep env w0)
    at (now_awaitDetectHumanStep env w0) as w1 Ha1 Hs1 Hc1 Hn1.
  rewrite Hn0, Hpoll.
  next (run_consoleLog (LineHumanStepDetected (type hs) (description hs)) w1)
    at (now_consoleLog (LineHumanStepDetected (type hs) (description hs)) w1)
    as w2 Ha2 Hs2 Hc2 Hn2.
  assert (hasApp (applicationId context) w2 = true) as Happ2 by has_app.
  pose proof (now_dbAddApplicationStep (applicationId context)
    human_step_detected
    (typeName (type hs) ++ ": " ++ description hs)%string
    (detectionMetadata hs) w2) as Hn3.
  destruct (run_dbAddApplicationStep (applicationId context)
    human_step_detected
    (typeName (type hs) ++ ": " ++ description hs)%string
    (detectionMetadata hs) w2 Happ2)
    as [row [w3 [E [Ha3 [Hs3 [Hc3 [Hr1 [Hr2 Hr3]]]]]]]].
  rewrite E in Hn3; cbn [snd] in Hn3.
  rewrite (andThen_returned _ _ _ _ _ E); clear E.
  assert (hasApp (applicationId context) w3 = true) as Happ3 by has_app.
  next (run_dbUpdateApplicationStatus (applicationId context) paused w3)
    at (now_dbUpdateApplicationStatus (applicationId context) paused w3)
    as w4 Ha4 Hs4 Hc4 Hn4.
  destruct (statusOf_updated _ _ _ _ _ Happ3 Ha4) as [Happ4 Hst4]. clear Ha4.
  next (run_notifyHumanStepDetected env (type hs) (description hs) w4)
    at (now_notifyHumanStepDetected env (type hs) (description hs) w4)
    as w5 Ha5 Hs5 Hc5 Hn5.
  next (run_audit human_step_pause entity_application
          (Some (applicationId context)) false
          [("stepType", typeName (type hs));
           ("description", description hs)] w5)
    at (now_audit human_step_pause entity_application
          (Some (applicationId context)) false
          [("stepType", typeName (type hs));
           ("description", description hs)] w5)
    as w6 Ha6 Hs6 Hc6 Hn6.
  next (run_consoleLog (LineInstructions (type hs) (description hs)) w6)
    at (now_consoleLog (LineInstructions (type hs) (description hs)) w6)
    as w7 Ha7 Hs7 Hc7 Hn7.
  next (run_consoleLog LineWaitingForYou w7)
    at (now_consoleLog LineWaitingForYou w7) as w8 Ha8 Hs8 Hc8 Hn8.
  exists row, w8. split; [reflexivity|]. split; [lia|].
  assert (apps w8 = apps w4) as Ha84 by (chase; reflexivity).
  split; [exact (hasApp_same _ _ _ Ha84 Happ4)|].
  split; [rewrite (statusOf_same _ _ _ Ha84); exact Hst4|].
  split; [chase; reflexivity|].
  repeat (split; [assumption|]).
  chase. now rewrite <- !app_assoc.
Qed.

(** A turn of the loop that detects nothing: the loop is left. *)
Lemma mainLoop_nothing fuel lc w :
  hasApp (applicationId context) w = true ->
  (lc < maxLoops)%nat ->
  pollAt env (now w) = None ->
  exists w2,
    mainLoop (S fuel) env context true lc w =
      mainLoop fuel env context false (S lc) w2 /\
    now w2 = (now w + Z.of_nat (detectMs env))%Z /\
    hasApp (applicationId context) w2 = true /\
    apps w2 = apps w /\ steps w2 = steps w /\
    console w2 = console w ++ [LineLoop (S lc); LineNoHumanSteps].
Proof.
  intros Happ Hlt Hpoll. cbn [mainLoop].
  apply Nat.ltb_lt in Hlt. rewrite Hlt. cbn [andb].
  next (run_consoleLog (LineLoop (S lc)) w)
    at (now_consoleLog (LineLoop (S lc)) w) as w0 Ha0 Hs0 Hc0 Hn0.
  next (run_awaitDetectHumanStep env w0)
    at (now_awaitDetectHumanStep env w0) as w1 Ha1 Hs1 Hc1 Hn1.
  rewrite Hn0, Hpoll.
  next (run_consoleLog LineNoHumanSteps w1)
    at (now_consoleLog LineNoHumanSteps w1) as w2 Ha2 Hs2 Hc2 Hn2.
  exists w2. split; [reflexivity|]. split; [lia|].
  split; [has_app|]. split; [chase; reflexivity|].
  split; [chase; reflexivity|]. chase. now rewrite <- !app_assoc.
Qed.

(** What the waiter's [false] makes of the turn: the timeout line, the
    status [paused] once more, and the failure result. *)
Lemma timed_out_branch hs w9 :
  hasApp (applicationId context) w9 = true ->
  exists w',
    (consoleLog LineTimeout ;;
     dbUpdateApplicationStatus (applicationId context) paused ;;
     resolve (Some (timeoutResult hs))) w9
    = (Returned (Some (timeoutResult hs)), w') /\
    now w' = now w9 /\
    hasApp (applicationId context) w' = true /\
    statusOf (applicationId context) w' = Some paused /\
    steps w' = steps w9 /\ console w' = console w9 ++ [LineTimeout].
Proof.
  intros Happ9.
  next (run_consoleLog LineTimeout w9)
    at (now_consoleLog LineTimeout w9) as w10 Ha10 Hs10 Hc10 Hn10.
  assert (hasApp (applicationId context) w10 = true) as Happ10 by has_app.
  next (run_dbUpdateApplicationStatus (applicationId context) paused w10)
    at (now_dbUpdateApplicationStatus (applicationId context) paused w10)
    as w11 Ha11 Hs11 Hc11 Hn11.
  destruct (statusOf_updated _ _ _ _ _ Happ10 Ha11) as [Happ11 Hst].
  exists w11. split; [reflexivity|]. split; [lia|].
  split; [exact Happ11|]. split; [exact Hst|].
  split; chase; reflexivity.
Qed.

Lemma mainLoop_inv fuel : forall cont lc w,
  hasApp (applicationId context) w = true ->
  (maxLoops - lc < fuel)%nat ->
  exists o w',
    mainLoop fuel env context cont lc w = (o, w') /\
    hasApp (applicationId context) w' = true /\
    (loops w' <= loops w + (maxLoops - lc))%nat /\
    match o with
    | Returned None => timeouts w' = timeouts w
    | Returned (Some res) =>
        timeouts w' = S (timeouts w) /\
        exists hs, res = timeoutResult hs /\ pausedOn context hs w'
    | Threw e => timeouts w' = timeouts w /\ rejectedWait env w e
    | OutOfFuel => False
    end.
Proof.
  induction fuel as [|fuel IH]; intros cont lc w Happ Hfuel; [lia|].
  destruct (cont && (lc <? maxLoops)%nat) eqn:Hcond.
  2:{ cbn [mainLoop]. rewrite Hcond.
      exists (Returned None), w. repeat split; auto. lia. }
  apply andb_true_iff in Hcond. destruct Hcond as [-> Hlt].
  apply Nat.ltb_lt in Hlt.
  destruct (pollAt env (now w)) as [hs|] eqn:Hpoll.
  - destruct (mainLoop_detected fuel lc w hs Happ Hlt Hpoll)
      as (row & wq & -> & Hnq & Happq & Hstq & Hsq & Hr1 & Hr2 & Hr3 & Hcq).
    destruct (run_waitForHumanStepResolution env hs defaultTimeoutMs wq)
      as [o [w9 [E [[Ha9 [Hs9 Hc9]] [He9 Hl9]]]]].
    assert (hasApp (applicationId context) w9 = true) as Happ9
      by exact (hasApp_same _ _ _ Ha9 Happq).
    assert (console w9 = console w ++
              [LineLoop (S lc);
               LineHumanStepDetected (type hs) (description hs);
               LineInstructions (type hs) (description hs);
               LineWaitingForYou]) as Hcons by (chase; reflexivity).
    assert (steps w9 = steps w ++ [row]) as Hsteps by (chase; reflexivity).
    destruct o as [b|e|].
    + rewrite (andThen_returned _ _ _ _ _ E); clear E.
      destruct b; cbn [negb].
      * (* resolved *)
        next (run_consoleLog LineResolved w9)
          at (now_consoleLog LineResolved w9) as w10 Ha10 Hs10 Hc10 Hn10.
        assert (hasApp (applicationId context) w10 = true) as Happ10
          by has_app.
        pose proof (now_dbAddApplicationStep (applicationId context)
          human_step_resolved (typeName (type hs) ++ " resolved")%string []
          w10) as Hn11.
        destruct (run_dbAddApplicationStep (applicationId context)
          human_step_resolved (typeName (type hs) ++ " resolved")%string []
          w10 Happ10) as [row' [w11 [E [Ha11 [Hs11 [Hc11 _]]]]]].
        rewrite E in Hn11; cbn [snd] in Hn11.
        rewrite (andThen_returned _ _ _ _ _ E); clear E.
        assert (hasApp (applicationId context) w11 = true) as Happ11
          by has_app.
        next (run_dbUpdateApplicationStatus (applicationId context)
                in_progress w11)
          at (now_dbUpdateApplicationStatus (applicationId context)
                in_progress w11) as w12 Ha12 Hs12 Hc12 Hn12.
        destruct (statusOf_updated _ _ _ _ _ Happ11 Ha12) as [Happ12 _].
        clear Ha12.
        next (run_audit human_step_resume entity_application
                (Some (applicationId context)) true
                [("stepType", typeName (type hs))] w12)
          at (now_audit human_step_resume entity_application
                (Some (applicationId context)) true
                [("stepType", typeName (type hs))] w12)
          as w13 Ha13 Hs13 Hc13 Hn13.
        destruct (run_waitForTimeout env 2000 w13)
          as [o [w14 [E [[Ha14 [Hs14 Hc14]] Hw14]]]].
        assert (hasApp (applicationId context) w14 = true) as Happ14
          by has_app.
        assert (console w14 = console w9 ++ [LineResolved]) as Hc14'
          by (chase; reflexivity).
        assert (now w <= now w13)%Z as Hle13 by lia.
        destruct (waitError env (now w13)) as [[d m]|] eqn:Hwe.
        -- (* the wait after the resolution is rejected *)
           subst o. rewrite (andThen_threw _ _ _ _ _ E); clear E.
           exists (Threw (JsError m)), w14. split; [reflexivity|].
           split; [exact Happ14|].
           rewrite (loops_app _ _ _ Hc14'), (loops_app _ _ _ Hcons).
           rewrite (timeouts_app _ _ _ Hc14'), (timeouts_app _ _ _ Hcons).
           cbn [filter isLoopLine isTimeoutLine List.length].
           split; [lia|]. split; [lia|].
           exists (now w13), d, m. auto.
        -- destruct Hw14 as [-> Hn14].
           rewrite (andThen_returned _ _ _ _ _ E); clear E.
           destruct (IH true (S lc) w14 Happ14 ltac:(lia))
             as [o [w' [E [Happ' [Hloops Hr]]]]].
           exists o, w'. split; [exact E|]. split; [exact Happ'|].
           rewrite (loops_app _ _ _ Hc14'), (loops_app _ _ _ Hcons)
             in Hloops.
           cbn [filter isLoopLine List.length] in Hloops.
           rewrite (timeouts_app _ _ _ Hc14'), (timeouts_app _ _ _ Hcons)
             in Hr.
           cbn [filter isTimeoutLine List.length] in Hr.
           rewrite !Nat.add_0_r in Hr.
           split; [lia|].
           destruct o as [[res|]|e|]; auto.
           destruct Hr as [Ht Hrej]. split; [exact Ht|].
           apply (rejectedWait_later w w14); [lia | exact Hrej].
      * (* timed out *)
        destruct (timed_out_branch hs w9 Happ9)
          as (w11 & E & Hn11 & Happ11 & Hst11 & Hs11 & Hc11).
        rewrite E.
        exists (Returned (Some (timeoutResult hs))), w11.
        split; [reflexivity|]. split; [exact Happ11|].
        rewrite (loops_app _ _ _ Hc11), (loops_app _ _ _ Hcons).
        rewrite (timeouts_app _ _ _ Hc11), (timeouts_app _ _ _ Hcons).
        cbn [filter isLoopLine isTimeoutLine List.length].
        split; [lia|]. split; [lia|].
        exists hs. split; [reflexivity|].
        exists (steps w), row, (console w9).
        repeat split; auto. now rewrite Hs11.
    + (* a wait of the waiter is rejected *)
      rewrite (andThen_threw _ _ _ _ _ E); clear E.
      exists (Threw e), w9. split; [reflexivity|]. split; [exact Happ9|].
      rewrite (loops_app _ _ _ Hcons), (timeouts_app _ _ _ Hcons).
      cbn [filter isLoopLine isTimeoutLine List.length].
      split; [lia|]. split; [lia|].
      apply (rejectedWait_later w wq); [lia | exact He9].
    + destruct He9.
  - (* nothing detected *)
    destruct (mainLoop_nothing fuel lc w Happ Hlt Hpoll)
      as (w2 & -> & Hn2 & Happ2 & Ha2 & Hs2 & Hcons).
    destruct (IH false (S lc) w2 Happ2 ltac:(lia))
      as [o [w' [E [Happ' [Hloops Hr]]]]].
    exists o, w'. split; [exact E|]. split; [exact Happ'|].
    rewrite (loops_app _ _ _ Hcons) in Hloops.
    cbn [filter isLoopLine List.length] in Hloops.
    rewrite (timeouts_app _ _ _ Hcons) in Hr.
    cbn [filter isTimeoutLine List.length] in Hr.
    rewrite !Nat.add_0_r in Hr.
    split; [lia|].
    destruct o as [[res|]|e|]; auto.
    destruct Hr as [Ht Hrej]. split; [exact Ht|].
    apply (rejectedWait_later w w2); [lia | exact Hrej].
Qed.

(** The [try] block up to the navigation. *)
Lemma workflowBody_starts w :
  hasApp (applicationId context) w = true ->
  exists row w2,
    workflowBody env context w =
      (navigateToUrl env (jobUrl context) ;;
       notifyApplicationProgress env (jobTitle context) (jobCompany context)
         "Page loaded" ;;
       consoleLog LineWaitingForLoad ;;
       waitForTimeout env 3000 ;;
       returned <- mainLoop (S maxLoops) env context true 0 ;;
       match returned with
       | Some r => resolve r
       | None =>
           consoleLog LineMonitoringComplete ;;
           dbAddApplicationStep (applicationId context) submission
             "Application workflow completed (manual submission required)"
             [] ;;
           dbUpdateApplicationStatus (applicationId context) completed ;;
           notifyApplicationComplete env (jobTitle context)
             (jobCompany context) true ;;
           resolve
             (mkResult true "Application workflow completed successfully")
       end) w2 /\
    now w2 = now w /\
    hasApp (applicationId context) w2 = true /\
    steps w2 = steps w ++ [row] /\
    stepType row = navigation /\
    application_id row = applicationId context /\
    console w2 = console w ++ [LineOpeningPage].
Proof.
  intros Happ. unfold workflowBody.
  next (run_dbUpdateApplicationStatus (applicationId context) in_progress w)
    at (now_dbUpdateApplicationStatus (applicationId context) in_progress w)
    as w0 Ha0 Hs0 Hc0 Hn0.
  destruct (statusOf_updated _ _ _ _ _ Happ Ha0) as [Happ0 _]. clear Ha0.
  pose proof (now_dbAddApplicationStep (applicationId context) navigation
                ("Navigating to " ++ jobUrl context)%string [] w0) as Hn1.
  destruct (run_dbAddApplicationStep (applicationId context) navigation
              ("Navigating to " ++ jobUrl context)%string [] w0 Happ0)
    as [row [w1 [E [Ha1 [Hs1 [Hc1 [Hr1 [Hr2 _]]]]]]]].
  rewrite E in Hn1; cbn [snd] in Hn1.
  rewrite (andThen_returned _ _ _ _ _ E); clear E.
  next (run_consoleLog LineOpeningPage w1)
    at (now_consoleLog LineOpeningPage w1) as w2 Ha2 Hs2 Hc2 Hn2.
  exists row, w2. split; [reflexivity|]. split; [lia|].
  split; [has_app|]. split; [chase; reflexivity|].
  split; [exact Hr1|]. split; [exact Hr2|]. chase. reflexivity.
Qed.

(** The [try] block up to the main loop, when neither the navigation nor
    the two waits before the loop are rejected: the loop is entered 5000 ms
    after the page answered. *)
Lemma workflowBody_enters w :
  hasApp (applicationId context) w = true ->
  gotoError env (jobUrl context) = None ->
  waitError env (now w + Z.of_nat (gotoMs env)) = None ->
  waitError env (now w + Z.of_nat (gotoMs env) + 2000) = None ->
  exists row wl,
    workflowBody env context w =
      (returned <- mainLoop (S maxLoops) env context true 0 ;;
       match returned with
       | Some r => resolve r
       | None =>
           consoleLog LineMonitoringComplete ;;
           dbAddApplicationStep (applicationId context) submission
             "Application workflow completed (manual submission required)"
             [] ;;
           dbUpdateApplicationStatus (applicationId context) completed ;;
           notifyApplicationComplete env (jobTitle context)
             (jobCompany context) true ;;
           resolve
             (mkResult true "Application workflow completed successfully")
       end) wl /\
    now wl = (now w + Z.of_nat (gotoMs env) + 5000)%Z /\
    hasApp (applicationId context) wl = true /\
    steps wl = steps w ++ [row] /\
    stepType row = navigation /\
    application_id row = applicationId context /\
    console wl = console w ++ [LineOpeningPage; LineWaitingForLoad].
Proof.
  intros Happ Hgoto Hw1 Hw2.
  destruct (workflowBody_starts w Happ)
    as (row & w2 & -> & Hn2 & Happ2 & Hs2 & Hr1 & Hr2 & Hc2).
  destruct (run_navigateToUrl env (jobUrl context) w2)
    as [o [w3 [E [[Ha3 [Hs3 Hc3]] Hnav]]]].
  rewrite Hgoto, Hn2, Hw1 in Hnav. destruct Hnav as [-> Hn3].
  rewrite (andThen_returned _ _ _ _ _ E); clear E.
  next (run_notifyApplicationProgress env (jobTitle context)
          (jobCompany context) "Page loaded" w3)
    at (now_notifyApplicationProgress env (jobTitle context)
          (jobCompany context) "Page loaded" w3) as w4 Ha4 Hs4 Hc4 Hn4.
  next (run_consoleLog LineWaitingForLoad w4)
    at (now_consoleLog LineWaitingForLoad w4) as w5 Ha5 Hs5 Hc5 Hn5.
  destruct (run_waitForTimeout env 3000 w5)
    as [o [w6 [E [[Ha6 [Hs6 Hc6]] Hw6]]]].
  replace (now w5) with (now w + Z.of_nat (gotoMs env) + 2000)%Z in Hw6
    by lia.
  rewrite Hw2 in Hw6. destruct Hw6 as [-> Hn6].
  rewrite (andThen_returned _ _ _ _ _ E); clear E.
  exists row, w6. split; [reflexivity|]. split; [lia|].
  split; [has_app|]. split; [chase; reflexivity|].
  split; [exact Hr1|]. split; [exact Hr2|].
  chase. now rewrite <- !app_assoc.
Qed.

(** The [catch] block, when the run's row exists. *)
Lemma workflowHandler_run e w :
  hasApp (applicationId context) w = true ->
  exists w1 w',
    workflowHandler env context e w =
      (Returned (mkResult false (errorMessage e)), w') /\
    notifyApplicationComplete env (jobTitle context) (jobCompany context)
      false w1 = (Returned tt, w') /\
    failedWith context e w' /\ console w' = console w.
Proof.
  intros Happ. unfold workflowHandler.
  destruct (run_dbAddApplicationStep (applicationId context) error
              ("Error: " ++ errorText e)%string [] w Happ)
    as [row [w1 [E [Ha1 [Hs1 [Hc1 [Hr1 [Hr2 Hr3]]]]]]]].
  unfold errorText in E.
  rewrite (andThen_returned _ _ _ _ _ E); clear E.
  assert (hasApp (applicationId context) w1 = true) as Happ1 by has_app.
  next (run_dbUpdateApplicationStatus (applicationId context) failed w1)
    as w2 Ha2 Hs2 Hc2.
  destruct (statusOf_updated _ _ _ _ _ Happ1 Ha2) as [Happ2 Hst]. clear Ha2.
  destruct (run_notifyApplicationComplete env (jobTitle context)
              (jobCompany context) false w2) as [w3 [E [Ha3 [Hs3 Hc3]]]].
  rewrite (andThen_returned _ _ _ _ _ E).
  exists w2, w3. split; [reflexivity|]. split; [exact E|]. split.
  - exists (steps w), row. 
    rewrite (statusOf_same _ _ _ Ha3). repeat split; auto.
    chase. reflexivity.
  - chase. reflexivity.
Qed.

(** A run whose [try] block throws the error of a rejected wait: the
    [catch] block returns the failure. *)
Lemma run_catches w m wt :
  workflowBody env context w = (Threw (JsError m), wt) ->
  hasApp (applicationId context) wt = true ->
  exists w',
    runApplicationWorkflow env context w = (Returned (mkResult false m), w')
    /\ failedWith context (JsError m) w' /\ loops w' = loops wt /\
    timeouts w' = timeouts wt.
Proof.
  intros E Happ. unfold runApplicationWorkflow.
  rewrite (tryCatch_threw _ _ _ _ _ E).
  destruct (workflowHandler_run (JsError m) wt Happ)
    as [wn [w' [E' [_ [Hf Hc']]]]].
  exists w'. split; [exact E'|]. split; [exact Hf|].
  unfold loops, timeouts. now rewrite Hc'.
Qed.

Lemma run_cases w :
  exists o w',
    runApplicationWorkflow env context w = (o, w') /\
    (loops w' <= loops w + maxLoops)%nat /\
    ((hasApp (applicationId context) w = false /\
      o = Threw (JsError "FOREIGN KEY constraint failed") /\
      timeouts w' = timeouts w /\ steps w' = steps w)
     \/ (hasApp (applicationId context) w = true /\
         exists m, gotoError env (jobUrl context) = Some m /\
           o = Returned (mkResult false m) /\
           timeouts w' = timeouts w /\ failedWith context (JsError m) w')
     \/ (hasApp (applicationId context) w = true /\
         gotoError env (jobUrl context) = None /\
         exists m, rejectedWait env w (JsError m) /\
           o = Returned (mkResult false m) /\
           timeouts w' = timeouts w /\ failedWith context (JsError m) w')
     \/ (hasApp (applicationId context) w = true /\
         gotoError env (jobUrl context) = None /\
         timeouts w' = S (timeouts w) /\
         exists hs, o = Returned (timeoutResult hs) /\ pausedOn context hs w')
     \/ (hasApp (applicationId context) w = true /\
         gotoError env (jobUrl context) = None /\
         timeouts w' = timeouts w /\
         o = Returned
               (mkResult true "Application workflow completed successfully")
         /\ completedRun context w')).
Proof.
  destruct (hasApp (applicationId context) w) eqn:Happ.
  - (* the row exists *)
    destruct (gotoError env (jobUrl context)) as [m|] eqn:Hgoto;
      [|destruct (waitError env (now w + Z.of_nat (gotoMs env)))
          as [[d m]|] eqn:Hw1;
        [|destruct (waitError env (now w + Z.of_nat (gotoMs env) + 2000))
            as [[d m]|] eqn:Hw2]].
    + (* navigation fails *)
      destruct (workflowBody_starts w Happ)
        as (row & w2 & Eb & Hn2 & Happ2 & Hs2 & Hr1 & Hr2 & Hc2).
      destruct (run_navigateToUrl env (jobUrl context) w2)
        as [o [w3 [E [[Ha3 [Hs3 Hc3]] Hnav]]]].
      rewrite Hgoto in Hnav. subst o.
      rewrite (andThen_threw _ _ _ _ _ E) in Eb; clear E.
      destruct (run_catches w m w3 Eb) as (w' & E & Hf & Hl & Ht);
        [has_app|].
      exists (Returned (mkResult false m)), w'. split; [exact E|].
      assert (console w3 = console w ++ [LineOpeningPage]) as Hc
        by (chase; reflexivity).
      rewrite Hl, Ht, (loops_app _ _ _ Hc), (timeouts_app _ _ _ Hc).
      cbn [filter isLoopLine isTimeoutLine List.length].
      split; [lia|]. right. left. split; [reflexivity|].
      exists m. repeat split; auto.
    + (* the wait after the navigation is rejected *)
      destruct (workflowBody_starts w Happ)
        as (row & w2 & Eb & Hn2 & Happ2 & Hs2 & Hr1 & Hr2 & Hc2).
      destruct (run_navigateToUrl env (jobUrl context) w2)
        as [o [w3 [E [[Ha3 [Hs3 Hc3]] Hnav]]]].
      rewrite Hgoto, Hn2, Hw1 in Hnav. subst o.
      rewrite (andThen_threw _ _ _ _ _ E) in Eb; clear E.
      destruct (run_catches w m w3 Eb) as (w' & E & Hf & Hl & Ht);
        [has_app|].
      exists (Returned (mkResult false m)), w'. split; [exact E|].
      assert (console w3 = console w ++ [LineOpeningPage]) as Hc
        by (chase; reflexivity).
      rewrite Hl, Ht, (loops_app _ _ _ Hc), (timeouts_app _ _ _ Hc).
      cbn [filter isLoopLine isTimeoutLine List.length].
      split; [lia|]. right. right. left. split; [reflexivity|].
      split; [reflexivity|]. exists m. repeat split; auto.
      exists (now w + Z.of_nat (gotoMs env))%Z, d, m.
      repeat split; auto. lia.
    + (* the wait before the loop is rejected *)
      destruct (workflowBody_starts w Happ)
        as (row & w2 & Eb & Hn2 & Happ2 & Hs2 & Hr1 & Hr2 & Hc2).
      destruct (run_navigateToUrl env (jobUrl context) w2)
        as [o [w3 [E [[Ha3 [Hs3 Hc3]] Hnav]]]].
      rewrite Hgoto, Hn2, Hw1 in Hnav. destruct Hnav as [-> Hn3].
      rewrite (andThen_returned _ _ _ _ _ E) in Eb; clear E.
      destruct (run_notifyApplicationProgress env (jobTitle context)
                  (jobCompany context) "Page loaded" w3)
        as [w4 [E [Ha4 [Hs4 Hc4]]]].
      pose proof (now_notifyApplicationProgress env (jobTitle context)
                    (jobCompany context) "Page loaded" w3) as Hn4.
      rewrite E in Hn4; cbn [snd] in Hn4.
      rewrite (andThen_returned _ _ _ _ _ E) in Eb; clear E.
      destruct (run_consoleLog LineWaitingForLoad w4)
        as [w5 [E [Ha5 [Hs5 Hc5]]]].
      pose proof (now_consoleLog LineWaitingForLoad w4) as Hn5.
      rewrite E in Hn5; cbn [snd] in Hn5.
      rewrite (andThen_returned _ _ _ _ _ E) in Eb; clear E.
      destruct (run_waitForTimeout env 3000 w5)
        as [o [w6 [E [[Ha6 [Hs6 Hc6]] Hw6]]]].
      replace (now w5) with (now w + Z.of_nat (gotoMs env) + 2000)%Z in Hw6
        by lia.
      rewrite Hw2 in Hw6. subst o.
      rewrite (andThen_threw _ _ _ _ _ E) in Eb; clear E.
      destruct (run_catches w m w6 Eb) as (w' & E & Hf & Hl & Ht);
        [has_app|].
      exists (Returned (mkResult false m)), w'. split; [exact E|].
      assert (console w6 = console w ++ [LineOpeningPage; LineWaitingForLoad])
        as Hc by (chase; now rewrite <- !app_assoc).
      rewrite Hl, Ht, (loops_app _ _ _ Hc), (timeouts_app _ _ _ Hc).
      cbn [filter isLoopLine isTimeoutLine List.length].
      split; [lia|]. right. right. left. split; [reflexivity|].
      split; [reflexivity|]. exists m. repeat split; auto.
      exists (now w + Z.of_nat (gotoMs env) + 2000)%Z, d, m.
      repeat split; auto. lia.
    + (* the loop is entered *)
      destruct (workflowBody_enters w Happ Hgoto Hw1 Hw2)
        as (row & w6 & Eb & Hn6 & Happ6 & Hs6 & Hr1 & Hr2 & Hcons6).
      destruct (mainLoop_inv (S maxLoops) true 0 w6 Happ6 ltac:(lia))
        as [r [w7 [E [Happ7 [Hloops Hr]]]]].
      rewrite (loops_app _ _ _ Hcons6) in Hloops.
      rewrite (timeouts_app _ _ _ Hcons6) in Hr.
      cbn [filter isLoopLine isTimeoutLine List.length] in Hloops, Hr.
      rewrite Nat.add_0_r in Hr.
      destruct r as [[res|]|e|].
      * (* the waiter timed out *)
        rewrite (andThen_returned _ _ _ _ _ E) in Eb; clear E.
        destruct Hr as [Ht [hs [-> Hp]]].
        exists (Returned (timeoutResult hs)), w7.
        split; [unfold runApplicationWorkflow;
                exact (tryCatch_returned _ _ _ _ _ Eb)|].
        split; [lia|]. right. right. right. left. repeat split; auto.
        exists hs. auto.
      * (* the loop was left *)
        unfold runApplicationWorkflow, tryCatch. rewrite Eb.
        rewrite (andThen_returned _ _ _ _ _ E); clear E Eb.
        next (run_consoleLog LineMonitoringComplete w7) as w8 Ha8 Hs8 Hc8.
        assert (hasApp (applicationId context) w8 = true) as Happ8
          by has_app.
        destruct (run_dbAddApplicationStep (applicationId context) submission
          "Application workflow completed (manual submission required)" []
          w8 Happ8) as [row' [w9 [E [Ha9 [Hs9 [Hc9 [Hr1' [Hr2' _]]]]]]]].
        rewrite (andThen_returned _ _ _ _ _ E); clear E.
        assert (hasApp (applicationId context) w9 = true) as Happ9
          by has_app.
        next (run_dbUpdateApplicationStatus (applicationId context)
                completed w9) as w10 Ha10 Hs10 Hc10.
        destruct (statusOf_updated _ _ _ _ _ Happ9 Ha10) as [Happ10 Hst].
        clear Ha10.
        next (run_notifyApplicationComplete env (jobTitle context)
                (jobCompany context) true w10) as w11 Ha11 Hs11 Hc11.
        exists (Returned
                  (mkResult true "Application workflow completed successfully")),
          w11.
        split; [reflexivity|].
        assert (console w11 = console w7 ++ [LineMonitoringComplete]) as Hc
          by (chase; reflexivity).
        rewrite (loops_app _ _ _ Hc), (timeouts_app _ _ _ Hc).
        cbn [filter isLoopLine isTimeoutLine List.length].
        split; [lia|]. right. right. right. right.
        split; [reflexivity|]. split; [reflexivity|]. split; [lia|].
        split; [reflexivity|].
        exists (steps w8), row', (console w7).
        rewrite (statusOf_same _ _ _ Ha11).
        repeat split; auto. chase. reflexivity.
      * (* a wait in the loop is rejected *)
        rewrite (andThen_threw _ _ _ _ _ E) in Eb; clear E.
        destruct Hr as [Ht (t & d & m & Hle & Hwe & ->)].
        destruct (run_catches w m w7 Eb Happ7) as (w' & E & Hf & Hl' & Ht').
        exists (Returned (mkResult false m)), w'. split; [exact E|].
        rewrite Hl', Ht'. split; [lia|]. right. right. left.
        split; [reflexivity|]. split; [reflexivity|].
        exists m. split; [|repeat split; auto; lia].
        exists t, d, m. repeat split; auto. lia.
      * destruct Hr.
  - (* no such row *)
    unfold runApplicationWorkflow.
    destruct (run_dbUpdateApplicationStatus (applicationId context)
                in_progress w) as [w0 [E0 [Ha0 [Hs0 Hc0]]]].
    assert (hasApp (applicationId context) w0 = false) as Happ0
      by (rewrite (hasApp_updated _ _ _ _ _ _ Ha0); exact Happ).
    destruct (run_dbAddApplicationStep_missing (applicationId context)
                navigation ("Navigating to " ++ jobUrl context)%string []
                w0 Happ0) as [w1 [E1 [Ha1 [Hs1 Hc1]]]].
    assert (hasApp (applicationId context) w1 = false) as Happ1
      by (unfold hasApp in *; rewrite Ha1; exact Happ0).
    destruct (run_dbAddApplicationStep_missing (applicationId context)
                error ("Error: " ++ "FOREIGN KEY constraint failed")%string
                [] w1 Happ1) as [w2 [E2 [Ha2 [Hs2 Hc2]]]].
    exists (Threw (JsError "FOREIGN KEY constraint failed")), w2. split.
    + erewrite tryCatch_threw.
      2:{ unfold workflowBody.
          rewrite (andThen_returned _ _ _ _ _ E0).
          apply andThen_threw. exact E1. }
      unfold workflowHandler. apply andThen_threw. exact E2.
    + assert (console w2 = console w) as Hc by (chase; reflexivity).
      assert (steps w2 = steps w) as Hs by (chase; reflexivity).
      unfold loops, timeouts. rewrite Hc.
      split; [lia|]. left. auto.
Qed.

(** C3, where the code departs from it: when [applications] has no row for
    the context, the first [addApplicationStep] throws on the foreign key,
    the [catch] block's own [addApplicationStep] throws again, and the
    exception leaves [runApplicationWorkflow]; no [error] step is written
    and no result is returned. *)
Theorem runApplicationWorkflow_rethrows (w : World) :
  hasApplication (applicationId context) (db w) = false ->
  exists w',
    runApplicationWorkflow env context w =
      (Threw (JsError "FOREIGN KEY constraint failed"), w') /\
    application_steps (db w') = application_steps (db w).
Proof.
  intros H. destruct (run_cases w) as [o [w' [E [_ Hcases]]]].
  rewrite hasApp_db, H in Hcases.
  destruct Hcases as [(_ & -> & _ & Hs)
                     | [(F & _) | [(F & _) | [(F & _) | (F & _)]]]];
    try discriminate.
  exists w'. split; [exact E | exact Hs].
Qed.

(** The other half of C3 holds: when the row exists and navigation fails,
    the exception is caught, an [error] step with its message is written,
    the status is set to [failed] and a structured result is returned. *)
Lemma runApplicationWorkflow_catches_navigation (w : World) (m : string) :
  hasApplication (applicationId context) (db w) = true ->
  gotoError env (jobUrl context) = Some m ->
  exists w',
    runApplicationWorkflow env context w = (Returned (mkResult false m), w')
    /\ failedWith context (JsError m) w'.
Proof.
  intros H G. destruct (run_cases w) as [o [w' [E [_ Hcases]]]].
  rewrite hasApp_db, H, G in Hcases.
  destruct Hcases as [(F & _) | [(_ & m' & Hm & -> & _ & Hf)
                     | [(_ & F & _) | [(_ & F & _) | (_ & F & _)]]]];
    try discriminate.
  injection Hm as <-. exists w'. split; [exact E | exact Hf].
Qed.


End ControllerFacts.

(** *** The controller on concrete runs *)

Lemma runApplicationWorkflow_rethrows_witness :
  exists w',
    runApplicationWorkflow (steadyEnv blankPage 0) acmeContext
      (startWorld emptyDb)
    = (Threw (JsError "FOREIGN KEY constraint failed"), w') /\
    application_steps (db w') = application_steps (db (startWorld emptyDb)).
Proof.
  apply (runApplicationWorkflow_rethrows (steadyEnv blankPage 0) acmeContext
           (startWorld emptyDb)).
  reflexivity.
Defined.


Example captcha_never_clears :
  let '(o, w) := runApplicationWorkflow (steadyEnv captchaPage 1) acmeContext
                   (startWorld queuedDb) in
  o = Returned (mkResult false "Timeout waiting for captcha resolution") /\
  map status (applications (db w)) = [paused] /\
  map stepType (application_steps (db w))
    = [navigation; human_step_detected] /\
  now w = 305151%Z.
Proof. vm_compute. repeat split. Qed.

(** The scripted page of the specification: nothing to detect until the
    CAPTCHA shows, which clears while the waiter polls. *)
Example captcha_then_clear :
  let '(o, w) := runApplicationWorkflow (clearingEnv captchaPage 9000)
                   acmeContext (startWorld queuedDb) in
  o = Returned (mkResult true "Application workflow completed successfully")
  /\ map status (applications (db w)) = [completed]
  /\ map stepType (application_steps (db w))
     = [navigation; human_step_detected; human_step_resolved; submission]
  /\ loops w = 2.
Proof. vm_compute. repeat split. Qed.

(** The loop ceiling: on the flickering page every one of the 20 turns
    detects and resolves a step; the run then ends as [completed]. *)
Example flickering_page_hits_the_ceiling :
  let '(o, w) := runApplicationWorkflow flickeringEnv acmeContext
                   (startWorld queuedDb) in
  o = Returned (mkResult true "Application workflow completed successfully")
  /\ loops w = 20
  /\ map status (applications (db w)) = [completed]
  /\ List.length (application_steps (db w)) = 42.
Proof. vm_compute. repeat split. Qed.

(** The caught half of C3 on a page that cannot be reached. *)
Example navigation_error_is_caught :
  let '(o, w) := runApplicationWorkflow
                   (mkEnv (fun _ => blankPage) 0 0
                      (fun _ => Some "net::ERR_NAME_NOT_RESOLVED")
                      (fun _ => None) true false)
                   acmeContext (startWorld queuedDb) in
  o = Returned (mkResult false "net::ERR_NAME_NOT_RESOLVED") /\
  map status (applications (db w)) = [failed] /\
  map (fun s => (stepType s, step_description s)) (application_steps (db w))
    = [(navigation, "Navigating to https://jobs.example.com/apply/7");
       (error, "Error: net::ERR_NAME_NOT_RESOLVED")] /\
  map title (delivered w) = ["❌ Application Failed"].
Proof. vm_compute. repeat split. Qed.

(** * More properties of the detector *)

Section MoreDetectorFacts.

Lemma bind_agree {A B} (m : Probe A) (k : A -> Probe B) p p' :
  m p = m p' -> (forall a, k a p = k a p') -> bind m k p = bind m k p'.
Proof.
  intros Hm Hk. unfold bind. rewrite Hm. destruct (m p') as [a q].
  now rewrite Hk.
Qed.

Lemma forSelectors_agree body selectors p p' :
  (forall s, body s p = body s p') ->
  forSelectors body selectors p = forSelectors body selectors p'.
Proof.
  intros H. induction selectors as [|s rest IH]; [reflexivity|].
  cbn [forSelectors]. apply bind_agree; [apply H|].
  intros [d|]; [reflexivity | exact IH].
Qed.

Lemma countLocator_agree {B} (k : nat -> Probe B) s p p' :
  hits p s = hits p' s ->
  (forall a, k a p = k a p') ->
  (forall a b, (0 <? a)%nat = (0 <? b)%nat -> k a p' = k b p') ->
  bind (countLocator s) k p = bind (countLocator s) k p'.
Proof.
  intros Hh Hk Hpos. unfold bind, countLocator. unfold hits in Hh.
  rewrite Hk. rewrite (Hpos _ _ Hh). reflexivity.
Qed.

Lemma countFrameBody_agree {B} (k : nat -> Probe B) s p p' :
  frameHits p s = frameHits p' s ->
  (forall a, k a p = k a p') ->
  (forall a b, (0 <? a)%nat = (0 <? b)%nat -> k a p' = k b p') ->
  bind (countFrameBody s) k p = bind (countFrameBody s) k p'.
Proof.
  intros Hh Hk Hpos. unfold bind, countFrameBody. unfold frameHits in Hh.
  rewrite Hk. rewrite (Hpos _ _ Hh). reflexivity.
Qed.

(** X1: the detector reads a page only through which of its selectors and
    iframes match at all.  Two pages on which the same selectors and the
    same iframes have a positive count get the same result and the same
    queries, however many elements match; a count that fails is as good as
    a count of zero. *)
Theorem detectHumanStep_counts_positive_only (p p' : Page) :
  (forall s, hits p s = hits p' s) ->
  (forall f, frameHits p f = frameHits p' f) ->
  detectHumanStep p = detectHumanStep p'.
Proof.
  intros Hh Hf.
  assert (forall mk sels,
            forSelectors (keywordBody mk) sels p
            = forSelectors (keywordBody mk) sels p') as Hkw.
  { intros mk sels. apply forSelectors_agree. intros s. unfold keywordBody.
    apply countLocator_agree; [apply Hh | | ].
    - intros a. destruct (0 <? a)%nat; reflexivity.
    - intros a b E. now rewrite E. }
  assert (detectCaptcha p = detectCaptcha p') as Ec.
  { unfold detectCaptcha.
    apply countFrameBody_agree; [apply Hf | | intros a b E; now rewrite E].
    intros a. destruct (0 <? a)%nat; [reflexivity|].
    apply countFrameBody_agree; [apply Hf | | intros a' b E; now rewrite E].
    intros a'. destruct (0 <? a')%nat; [reflexivity|].
    apply bind_agree; [apply (Hkw captchaHit) | intros [d|]; reflexivity]. }
  assert (detect2FA p = detect2FA p') as Et.
  { unfold detect2FA.
    apply bind_agree; [apply (Hkw twoFAHit) | intros [d|]; reflexivity]. }
  assert (detectFileUpload p = detectFileUpload p') as Eu.
  { unfold detectFileUpload.
    apply countLocator_agree; [apply Hh | | intros a b E; now rewrite E].
    intros a. destruct (0 <? a)%nat; [|reflexivity].
    apply bind_agree; [apply (Hkw uploadHit) | intros [d|]; reflexivity]. }
  assert (detectConsent p = detectConsent p') as Es.
  { unfold detectConsent. apply bind_agree; [|intros [d|]; reflexivity].
    apply forSelectors_agree. intros s.
    apply countLocator_agree; [apply Hh | | intros a b E; now rewrite E].
    intros a. destruct (0 <? a)%nat; [|reflexivity].
    apply countLocator_agree; [apply Hh | | intros a' b E; now rewrite E].
    intros a'. destruct (0 <? a')%nat; reflexivity. }
  rewrite !detectHumanStep_unfold. now rewrite Ec, Et, Eu, Es.
Qed.


Lemma detectHumanStep_counts_positive_only_witness :
  (forall s, hits brokenPage s = hits blankPage s) /\
  detectHumanStep brokenPage = detectHumanStep blankPage.
Proof.
  split; [reflexivity|].
  apply detectHumanStep_counts_positive_only; reflexivity.
Defined.

Lemma find_hits p l s : find (hits p) l = Some s -> In s l /\ hits p s = true.
Proof. apply find_some. Qed.

(** Reads the fields of a detection that is written out. *)
Ltac read_detection :=
  cbn [element type detected description twoFAHit captchaHit uploadHit
       consentHit firstIndicator keywordsOf].

(** The selector [find] has found is one of the list and is on the page. *)
Ltac found_on_page Fk :=
  let Hin := fresh "Hin" in
  let Hh := fresh "Hh" in
  destruct (find_hits _ _ _ Fk) as [Hin Hh];
  repeat split; [|discriminate];
  unfold indicatorHits; clear Fk;
  repeat (destruct Hin as [<-|Hin]; [exact Hh|]); contradiction.

(** X2: what a detection records.  Whenever [detectHumanStep] returns a
    result, its [element] is the first indicator of its category that the
    page has, in the order of the source (for a CAPTCHA the two iframes come
    before the phrases); that indicator is on the page, and the description
    is not empty. *)
Theorem detectHumanStep_records_first_indicator (p : Page)
    (d : DetectionResult) :
  fst (detectHumanStep p) = Some d ->
  element d = firstIndicator p (type d) /\
  exists sel, element d = Some sel /\ indicatorHits p sel = true /\
              description d <> EmptyString.
Proof.
  rewrite detectHumanStep_fst.
  destruct (detected (fst (detectCaptcha p))) eqn:Dc.
  { intros [= <-]. revert Dc. rewrite detectCaptcha_fst.
    unfold firstIndicator.
    destruct (frameHits p recaptchaFrame) eqn:F1.
    { read_detection. intros _. split; [reflexivity|].
      exists recaptchaFrame. repeat split; [exact F1 | discriminate]. }
    destruct (frameHits p hcaptchaFrame) eqn:F2.
    { read_detection. intros _. split; [reflexivity|].
      exists hcaptchaFrame. repeat split; [exact F2 | discriminate]. }
    destruct (find (hits p) captchaKeywords) as [s|] eqn:Fk; [|discriminate].
    read_detection. intros _. split; [reflexivity|]. exists s.
    found_on_page Fk. }
  destruct (detected (fst (detect2FA p))) eqn:Dt.
  { intros [= <-]. revert Dt. rewrite detect2FA_fst.
    destruct (find (hits p) twoFAKeywords) as [s|] eqn:Fk; [|discriminate].
    read_detection. intros _.
    split; [first [reflexivity | now rewrite Fk]|]. exists s.
    found_on_page Fk. }
  destruct (detected (fst (detectFileUpload p))) eqn:Du.
  { intros [= <-]. revert Du. rewrite detectFileUpload_fst.
    destruct (hits p visibleFileInput); [|discriminate].
    destruct (find (hits p) uploadLabels) as [s|] eqn:Fk; [|discriminate].
    read_detection. intros _.
    split; [first [reflexivity | now rewrite Fk]|]. exists s.
    found_on_page Fk. }
  destruct (detected (fst (detectConsent p))) eqn:Ds; [|discriminate].
  intros [= <-]. revert Ds. rewrite detectConsent_fst.
  destruct (hits p uncheckedCheckbox); [|discriminate].
  destruct (find (hits p) consentKeywords) as [s|] eqn:Fk; [|discriminate].
  read_detection. intros _.
  split; [first [reflexivity | now rewrite Fk]|]. exists s.
  found_on_page Fk.
Qed.

Lemma detectHumanStep_records_first_indicator_witness :
  fst (detectHumanStep crowdedPage) = Some captchaDetection /\
  element captchaDetection = firstIndicator crowdedPage captcha.
Proof.
  split; [reflexivity|].
  exact (proj1 (detectHumanStep_records_first_indicator crowdedPage
                  captchaDetection eq_refl)).
Defined.

(** *** How many queries a detection sends *)

Lemma forSelectors_keyword_length mk sels p :
  (List.length (snd (forSelectors (keywordBody mk) sels p))
   <= List.length sels)%nat.
Proof.
  induction sels as [|s rest IH]; simpl; [lia|].
  unfold bind at 1, keywordBody at 1, bind at 1, countLocator.
  destruct (0 <? catch0 (locatorCount p s))%nat; simpl; [lia|].
  destruct (forSelectors (keywordBody mk) rest p) as [r q]; simpl in *. lia.
Qed.

Lemma scanKeywords_length mk t sels p :
  (List.length (snd (scanKeywords mk t sels p)) <= List.length sels)%nat.
Proof.
  unfold scanKeywords, bind.
  pose proof (forSelectors_keyword_length mk sels p) as H.
  destruct (forSelectors (keywordBody mk) sels p) as [r q]. cbn [snd] in H.
  destruct r; cbn [ret snd]; rewrite app_nil_r; exact H.
Qed.

Lemma forSelectors_consent_length sels p :
  (List.length (snd (forSelectors consentBody sels p))
   <= List.length sels + List.length sels)%nat.
Proof.
  induction sels as [|s rest IH]; [cbn; lia|].
  cbn [forSelectors].
  unfold bind at 1, consentBody at 1, bind, countLocator.
  destruct (0 <? catch0 (locatorCount p s))%nat.
  - destruct (0 <? catch0 (locatorCount p uncheckedCheckbox))%nat.
    + cbn [ret fst snd app List.length]. lia.
    + cbn [ret fst snd app].
      destruct (forSelectors consentBody rest p) as [r q].
      cbn [snd List.length] in *. lia.
  - cbn [ret fst snd app].
    destruct (forSelectors consentBody rest p) as [r q].
    cbn [snd List.length] in *. lia.
Qed.

Lemma detectCaptcha_length p :
  (1 <= List.length (snd (detectCaptcha p)) <= 8)%nat.
Proof.
  enough (forall n, n = List.length (snd (detectCaptcha p)) ->
                    (1 <= n <= 8)%nat) as H by (apply H; reflexivity).
  intros n Hn.
  unfold detectCaptcha, bind at 1, countFrameBody at 1 in Hn.
  destruct (0 <? catch0 (frameBodyCount p recaptchaFrame))%nat;
    [cbn [ret snd app List.length] in Hn; lia|].
  unfold bind at 1, countFrameBody at 1 in Hn.
  destruct (0 <? catch0 (frameBodyCount p hcaptchaFrame))%nat;
    [cbn [ret snd app List.length] in Hn; lia|].
  pose proof (scanKeywords_length captchaHit captcha captchaKeywords p) as H.
  unfold scanKeywords, keywordBody, captchaHit in H.
  destruct (bind (forSelectors _ captchaKeywords) _ p) as [r qs].
  cbn [snd app List.length] in *.
  change (List.length captchaKeywords) with 6 in H. lia.
Qed.

Lemma detect2FA_length p : (List.length (snd (detect2FA p)) <= 9)%nat.
Proof. exact (scanKeywords_length twoFAHit two_fa twoFAKeywords p). Qed.

Lemma detectFileUpload_length p :
  (List.length (snd (detectFileUpload p)) <= 5)%nat.
Proof.
  unfold detectFileUpload, bind at 1, countLocator at 1.
  destruct (0 <? catch0 (locatorCount p visibleFileInput))%nat; [|cbn; lia].
  pose proof (scanKeywords_length uploadHit file_upload uploadLabels p) as H.
  unfold scanKeywords, keywordBody, uploadHit in H.
  destruct (bind (forSelectors _ uploadLabels) _ p) as [r qs].
  cbn [snd app List.length] in *.
  change (List.length uploadLabels) with 4 in H. lia.
Qed.

Lemma detectConsent_length p :
  (List.length (snd (detectConsent p)) <= 16)%nat.
Proof.
  pose proof (forSelectors_consent_length consentKeywords p) as H.
  unfold detectConsent. unfold bind at 1.
  unfold consentBody, consentHit in H.
  destruct (forSelectors _ consentKeywords p) as [r q]. cbn [snd] in H.
  change (List.length consentKeywords) with 8 in H.
  destruct r; cbn [ret snd]; rewrite app_nil_r; lia.
Qed.

(** X3: one detection sends the page at least one query and at most 38: 8
    for the CAPTCHA, 9 for 2FA, 5 for the file upload and 16 for consent. *)
Theorem detectHumanStep_query_budget (p : Page) :
  (1 <= List.length (snd (detectHumanStep p)) <= 38)%nat.
Proof.
  rewrite detectHumanStep_unfold.
  pose proof (detectCaptcha_length p). pose proof (detect2FA_length p).
  pose proof (detectFileUpload_length p). pose proof (detectConsent_length p).
  destruct (detectCaptcha p) as [c qc], (detect2FA p) as [t qt],
    (detectFileUpload p) as [f qf], (detectConsent p) as [s qs].
  cbn [snd] in *.
  destruct (detected c), (detected t), (detected f), (detected s);
    cbn [snd]; rewrite ?length_app; lia.
Qed.

(** The bound is reached. *)
Example costlyPage_38 : List.length (snd (detectHumanStep costlyPage)) = 38.
Proof. vm_compute. reflexivity. Qed.

End MoreDetectorFacts.

(** * More properties of the application store *)


Section ClientFacts.

Lemma nextId_above (ids : list Z) x : In x ids -> (x < nextId ids)%Z.
Proof.
  unfold nextId. induction ids as [|y ids IH]; [contradiction|].
  cbn [fold_right]. intros [->|H]; [lia|]. specialize (IH H). lia.
Qed.

Lemma nextId_positive (ids : list Z) : (0 < nextId ids)%Z.
Proof.
  unfold nextId. induction ids as [|y ids IH]; cbn [fold_right]; lia.
Qed.

Lemma nextId_fresh (ids : list Z) : ~ In (nextId ids) ids.
Proof. intros H. apply nextId_above in H. lia. Qed.

Lemma find_app_none {A} (f : A -> bool) l x :
  find f l = None -> find f (l ++ [x]) = if f x then Some x else None.
Proof.
  induction l as [|a l IH]; cbn [find app]; [reflexivity|].
  destruct (f a); [discriminate | exact IH].
Qed.

Lemma find_app_some {A} (f : A -> bool) l l' y :
  find f l = Some y -> find f (l ++ l') = Some y.
Proof.
  induction l as [|a l IH]; cbn [find app]; [discriminate|].
  destruct (f a); [auto | exact IH].
Qed.

Lemma find_app_other {A} (f : A -> bool) l x :
  f x = false -> find f (l ++ [x]) = find f l.
Proof.
  intros Hx. induction l as [|a l IH]; cbn [find app]; [now rewrite Hx|].
  destruct (f a); [reflexivity | exact IH].
Qed.

(** What [fold_left later] computes: with a row to start from, the row of
    greatest id, the earliest of them on a tie. *)
Lemma fold_later_spec l : forall best,
  match fold_left Client.later l best with
  | None => best = None /\ l = []
  | Some b =>
      (best = Some b \/ In b l) /\
      (forall a, best = Some a \/ In a l -> (app_id a <= app_id b)%Z)
  end.
Proof.
  induction l as [|x l IH]; intros best; cbn [fold_left].
  - destruct best as [b|]; [|auto]. split; [auto|].
    intros a [[= ->]|[]]. lia.
  - specialize (IH (Client.later best x)).
    destruct (fold_left Client.later l (Client.later best x)) as [b|].
    + destruct IH as [Hin Hmax].
      assert (exists c, Client.later best x = Some c /\
                (app_id x <= app_id c)%Z /\
                (forall a, best = Some a -> (app_id a <= app_id c)%Z) /\
                (best = Some c \/ c = x)) as [c [Hc [Hx [Hb Hor]]]].
      { unfold Client.later. destruct best as [b0|].
        - destruct (Z.ltb_spec (app_id b0) (app_id x)).
          + exists x. repeat split; auto; try lia. intros a [= ->]. lia.
          + exists b0. repeat split; auto; try lia. intros a [= ->]. lia.
        - exists x. repeat split; auto; try lia. discriminate. }
      pose proof (Hmax c (or_introl Hc)) as Hcb.
      split.
      * destruct Hin as [Hb'|Hb']; [|right; now right].
        rewrite Hc in Hb'. injection Hb' as <-.
        destruct Hor as [Hor| ->]; [now left | right; now left].
      * intros a [Ha|[<-|Ha]].
        -- specialize (Hb a Ha). lia.
        -- lia.
        -- apply Hmax. now right.
    + destruct IH as [Hb _]. unfold Client.later in Hb.
      destruct best as [b0|]; [destruct (app_id b0 <? app_id x)%Z|];
        discriminate.
Qed.

(** X4: [getApplicationByJobId] finds nothing exactly when the job has no
    application; otherwise it finds an application of that job whose id no
    other application of the job exceeds. *)
Theorem getApplicationByJobId_latest (jobId : Z) (d : Database) :
  match Client.getApplicationByJobId jobId d with
  | None => forall a, In a (applications d) -> job_id a <> jobId
  | Some b =>
      In b (applications d) /\ job_id b = jobId /\
      forall a, In a (applications d) -> job_id a = jobId ->
                (app_id a <= app_id b)%Z
  end.
Proof.
  unfold Client.getApplicationByJobId.
  pose proof (fold_later_spec
                (filter (fun a => (job_id a =? jobId)%Z) (applications d))
                None) as H.
  destruct (fold_left Client.later _ None) as [b|].
  - destruct H as [[Hb|Hb] Hmax]; [discriminate|].
    apply filter_In in Hb. destruct Hb as [Hin Hj]. apply Z.eqb_eq in Hj.
    repeat split; auto. intros a Ha Haj. apply Hmax. right.
    apply filter_In. split; [exact Ha | now apply Z.eqb_eq].
  - destruct H as [_ Hnil]. intros a Ha Haj.
    assert (In a (filter (fun a => (job_id a =? jobId)%Z) (applications d)))
      as Hf by (apply filter_In; split; [exact Ha | now apply Z.eqb_eq]).
    rewrite Hnil in Hf. contradiction.
Qed.

(** X5: [createApplication] on a store whose ids are below 2^53: without
    the job the insert throws and the store is as before; with it, a new
    [queued] row is appended under an id above all others, which a
    JavaScript number still holds exactly; it is what the call returns, what
    [getApplicationById] finds under that id and what
    [getApplicationByJobId] finds for the job, and every other lookup is as
    before. *)
Theorem createApplication_round_trip (jobs : list Job.t) (jobId : Z)
    (note : option string) (d : Database) :
  idsBelowLimit d ->
  match Client.getJobById jobId jobs with
  | None =>
      Client.createApplication jobs jobId note d
      = (SqliteError "FOREIGN KEY constraint failed", d)
  | Some _ =>
      exists row d',
        Client.createApplication jobs jobId note d = (Ok (Some row), d') /\
        applications d' = applications d ++ [row] /\
        application_steps d' = application_steps d /\
        audit_log d' = audit_log d /\
        job_id row = jobId /\ status row = queued /\
        startedAt row = None /\ completedAt row = None /\
        notes row = Client.orNull note /\
        (forall a, In a (applications d) -> (app_id a < app_id row)%Z) /\
        exactNumber (app_id row) /\
        getApplicationById (app_id row) d' = Some row /\
        Client.getApplicationByJobId jobId d' = Some row /\
        (forall id, id <> app_id row ->
           getApplicationById id d' = getApplicationById id d)
  end.
Proof.
  intros Hlimit. unfold Client.createApplication, Client.getJobById.
  rewrite find_existsb.
  destruct (find (fun j => (Job.id j =? jobId)%Z) jobs) as [j|];
    [|reflexivity].
  assert (exactNumber (nextId (map app_id (applications d)))) as Hexact.
  { unfold exactNumber, nextId, idsBelowLimit in *.
    induction (applications d) as [|a l IH]; [cbn; lia|].
    inversion Hlimit as [|? ? Ha Hl]; subst. specialize (IH Hl).
    cbn [map fold_right]. lia. }
  set (newId := nextId (map app_id (applications d))) in *.
  set (row := mkApplication newId jobId queued None None (Client.orNull note)).
  assert (forall a, In a (applications d) -> (app_id a < newId)%Z) as Hfresh.
  { intros a Ha. apply nextId_above. now apply in_map. }
  assert (getApplicationById newId
            (mkDatabase (applications d ++ [row]) (application_steps d)
               (audit_log d)) = Some row) as Hget.
  { unfold getApplicationById. cbn [applications].
    rewrite find_app_none; [cbn; now rewrite Z.eqb_refl|].
    destruct (find _ (applications d)) as [a|] eqn:E; [|reflexivity].
    apply find_some in E. destruct E as [Hin He]. apply Z.eqb_eq in He.
    specialize (Hfresh a Hin). lia. }
  exists row, (mkDatabase (applications d ++ [row]) (application_steps d)
                 (audit_log d)).
  cbv zeta. fold newId. fold row. rewrite Hget.
  repeat split; auto; try (destruct Hexact; assumption).
  - unfold Client.getApplicationByJobId. cbn [applications].
    rewrite filter_app, fold_left_app. cbn [filter job_id row].
    rewrite Z.eqb_refl. cbn [fold_left].
    pose proof (fold_later_spec
                  (filter (fun a => (job_id a =? jobId)%Z) (applications d))
                  None) as H.
    destruct (fold_left Client.later _ None) as [b|]; [|reflexivity].
    destruct H as [[Hb|Hb] _]; [discriminate|].
    apply filter_In in Hb. destruct Hb as [Hb _].
    specialize (Hfresh b Hb). cbn [Client.later].
    change (app_id row) with newId.
    destruct (Z.ltb_spec (app_id b) newId); [reflexivity | lia].
  - intros id Hne. unfold getApplicationById. cbn [applications].
    apply find_app_other. cbn [app_id row]. apply Z.eqb_neq.
    intros E. apply Hne. now rewrite <- E.
Qed.

(** Job 7 gets a second application beside the queued run 1. *)
Lemma createApplication_round_trip_witness :
  idsBelowLimit queuedDb /\
  exists row d',
    Client.createApplication [acmeJob] 7 None queuedDb = (Ok (Some row), d') /\
    app_id row = 2%Z /\
    getApplicationById 2 d' = Some row /\
    Client.getApplicationByJobId 7 d' = Some row.
Proof.
  assert (idsBelowLimit queuedDb) as H by (repeat constructor).
  split; [exact H|].
  pose proof (createApplication_round_trip [acmeJob] 7 None queuedDb H) as T.
  change (Client.getJobById 7 [acmeJob]) with (Some acmeJob) in T.
  destruct T as (row & d' & E & _ & _ & _ & _ & _ & _ & _ & _ & _ & _
                 & Hget & Hjob & _).
  assert (app_id row = 2%Z) as Hid
    by (vm_compute in E; now injection E as <- _).
  exists row, d'. rewrite Hid in Hget. auto.
Defined.

Lemma updateApplicationStatus_app_ids now id s d :
  map app_id (applications (updateApplicationStatus now id s d))
  = map app_id (applications d).
Proof.
  unfold updateApplicationStatus. cbn [applications]. rewrite map_map.
  apply map_ext. intros a. destruct (app_id a =? id)%Z; [destruct s|];
    reflexivity.
Qed.

(** X6: [updateApplicationStatus] writes to the row it names and to nothing
    else: ids and jobs of all rows, every other row, the steps and the audit
    log are as before, and when no row has the id the store is unchanged. *)
Theorem updateApplicationStatus_frame (now : Timestamp) (id : Z)
    (s : ApplicationStatus) (d : Database) :
  let d' := updateApplicationStatus now id s d in
  map app_id (applications d') = map app_id (applications d) /\
  map job_id (applications d') = map job_id (applications d) /\
  application_steps d' = application_steps d /\
  audit_log d' = audit_log d /\
  (forall id', id' <> id ->
     getApplicationById id' d' = getApplicationById id' d) /\
  (getApplicationById id d = None -> d' = d).
Proof.
  cbv zeta. repeat split.
  - unfold updateApplicationStatus. cbn [applications]. rewrite map_map.
    apply map_ext. intros a. destruct (app_id a =? id)%Z; [destruct s|];
      reflexivity.
  - unfold updateApplicationStatus. cbn [applications]. rewrite map_map.
    apply map_ext. intros a. destruct (app_id a =? id)%Z; [destruct s|];
      reflexivity.
  - intros id' Hne. rewrite getApplicationById_update.
    destruct (getApplicationById id' d) as [a|] eqn:E; [|reflexivity].
    cbn [option_map]. rewrite (getApplicationById_app_id _ _ _ E).
    apply Z.eqb_neq in Hne. now rewrite Hne.
  - intros Hnone. unfold updateApplicationStatus. destruct d as [apps st au].
    cbn [applications application_steps audit_log]. f_equal.
    unfold getApplicationById in Hnone. cbn [applications] in Hnone.
    induction apps as [|a apps IH]; [reflexivity|].
    cbn [find] in Hnone. cbn [map].
    destruct (app_id a =? id)%Z; [discriminate|]. now rewrite IH.
Qed.

Lemma NoDup_app_fresh (l : list Z) : NoDup l -> NoDup (l ++ [nextId l]).
Proof.
  intros H. apply NoDup_app; [exact H | repeat constructor; intros [] |].
  intros x Hx [<-|[]]. exact (nextId_fresh l Hx).
Qed.

Lemma keysHold_perform jobs d c : keysHold jobs d -> keysHold jobs (perform jobs d c).
Proof.
  intros (Ka & Ks & Ku & Kj & Kf).
  destruct c as [jobId note | t0 id s | t0 id t descr meta
                | t0 action entity eid confirmed meta]; cbn [perform].
  - (* createApplication *)
    unfold Client.createApplication.
    destruct (existsb _ jobs) eqn:E; cbn [snd]; [|repeat split; auto].
    unfold keysHold. cbn [applications application_steps audit_log].
    repeat split; auto.
    + rewrite map_app. cbn [map app_id]. now apply NoDup_app_fresh.
    + apply Forall_app. split; [exact Kj|]. constructor; [|constructor].
      cbn [job_id]. unfold Client.getJobById.
      rewrite find_existsb in E. destruct (find _ jobs); [discriminate|].
      discriminate.
    + eapply Forall_impl; [|exact Kf]. intros st H.
      unfold hasApplication in *. cbn [applications].
      rewrite existsb_app, H. reflexivity.
  - (* updateApplicationStatus *)
    unfold keysHold. rewrite updateApplicationStatus_app_ids.
    cbn [application_steps audit_log updateApplicationStatus].
    repeat split; auto.
    + unfold updateApplicationStatus. cbn [applications].
      apply Forall_map. eapply Forall_impl; [|exact Kj].
      intros a H. destruct (app_id a =? id)%Z; [destruct s|]; exact H.
    + eapply Forall_impl; [|exact Kf]. intros st H.
      now rewrite hasApplication_update.
  - (* addApplicationStep *)
    unfold addApplicationStep.
    destruct (existsb _ (applications d)) eqn:E; cbn [snd];
      [|repeat split; auto].
    unfold keysHold. cbn [applications application_steps audit_log].
    repeat split; auto.
    + rewrite map_app. cbn [map step_id]. now apply NoDup_app_fresh.
    + apply Forall_app. split; [exact Kf|]. constructor; [|constructor].
      exact E.
  - (* addAuditLog *)
    unfold addAuditLog. cbn [snd]. unfold keysHold.
    cbn [applications application_steps audit_log]. repeat split; auto.
    rewrite map_app. cbn [map audit_id]. now apply NoDup_app_fresh.
Qed.

(** X7: whatever sequence of [createApplication], [updateApplicationStatus],
    [addApplicationStep] and [addAuditLog] is run on a store whose keys hold,
    its keys still hold: ids stay unique, applications stay attached to
    jobs, and steps to applications. *)
Theorem store_keeps_its_keys (jobs : list Job.t) (calls : list StoreCall)
    (d : Database) :
  keysHold jobs d -> keysHold jobs (fold_left (perform jobs) calls d).
Proof.
  revert d. induction calls as [|c calls IH]; intros d H; [exact H|].
  cbn [fold_left]. apply IH. now apply keysHold_perform.
Qed.

Lemma store_keeps_its_keys_witness :
  keysHold [acmeJob] queuedDb /\
  keysHold [acmeJob]
    (fold_left (perform [acmeJob])
       [CallCreateApplication 7%Z None;
        CallAddApplicationStep 5%Z 1%Z navigation "Navigating" [];
        CallAddApplicationStep 5%Z 9%Z navigation "No such application" [];
        CallUpdateApplicationStatus 6%Z 1%Z in_progress;
        CallAddAuditLog 6%Z human_step_pause entity_application (Some 1%Z)
          false []]
       queuedDb).
Proof.
  assert (keysHold [acmeJob] queuedDb) as H.
  { unfold keysHold, queuedDb, queuedRun. cbn.
    repeat split; repeat constructor; auto; discriminate. }
  split; [exact H | now apply store_keeps_its_keys].
Defined.

Lemma ProfileSection_eqb_eq a b :
  Client.ProfileSection_eqb a b = true <-> a = b.
Proof. destruct a, b; cbn; split; congruence. Qed.

(** X8: [upsertUserProfile] then [getUserProfile]: the section written reads
    back as what was written, through [JSON.stringify] and [JSON.parse];
    every other section reads as before; and a table with one row per
    section still has one row per section. *)
Theorem upsertUserProfile_then_get (Json : Type) (stringify : Json -> string)
    (parse : string -> Json) (newRowid : list Client.ProfileRow -> Z)
    (now : Timestamp) (s : Client.ProfileSection)
    (content : Json) (rows : list Client.ProfileRow) :
  let rows' := Client.upsertUserProfile Json stringify newRowid now s content
                 rows in
  Client.getUserProfile Json parse s rows' = Some (parse (stringify content))
  /\ (forall s', s' <> s ->
        Client.getUserProfile Json parse s' rows'
        = Client.getUserProfile Json parse s' rows)
  /\ map Client.section rows'
     = (if existsb (fun r => Client.ProfileSection_eqb (Client.section r) s)
             rows
        then map Client.section rows
        else map Client.section rows ++ [s])
  /\ (NoDup (map Client.section rows) -> NoDup (map Client.section rows')).
Proof.
  cbv zeta. unfold Client.upsertUserProfile, Client.getUserProfile.
  destruct (existsb _ rows) eqn:E.
  - assert (map Client.section
              (map (fun r => if Client.ProfileSection_eqb (Client.section r) s
                     then Client.mkProfileRow (Client.profile_id r)
                            (Client.section r) (stringify content) now
                     else r) rows) = map Client.section rows) as Hsec.
    { rewrite map_map. apply map_ext. intros r.
      destruct (Client.ProfileSection_eqb (Client.section r) s); reflexivity. }
    repeat split.
    + clear Hsec. induction rows as [|r rows IH]; [discriminate|].
      cbn [existsb] in E. cbn [map find].
      destruct (Client.ProfileSection_eqb (Client.section r) s) eqn:Er.
      * cbn [Client.section]. rewrite Er. reflexivity.
      * rewrite Er. cbn [orb] in E. exact (IH E).
    + intros s' Hne. f_equal. clear E Hsec.
      induction rows as [|r rows IH]; [reflexivity|]. cbn [map find].
      destruct (Client.ProfileSection_eqb (Client.section r) s) eqn:Er.
      * cbn [Client.section].
        destruct (Client.ProfileSection_eqb (Client.section r) s') eqn:Er';
          [|exact IH].
        apply ProfileSection_eqb_eq in Er, Er'. congruence.
      * destruct (Client.ProfileSection_eqb (Client.section r) s');
          [reflexivity | exact IH].
    + exact Hsec.
    + now rewrite Hsec.
  - assert (find (fun r => Client.ProfileSection_eqb (Client.section r) s)
              rows = None) as Hnone.
    { rewrite find_existsb in E. destruct (find _ rows); [discriminate|].
      reflexivity. }
    repeat split.
    + rewrite find_app_none by exact Hnone. cbn [Client.section].
      assert (Client.ProfileSection_eqb s s = true) as ->
        by now apply ProfileSection_eqb_eq.
      reflexivity.
    + intros s' Hne. f_equal. apply find_app_other. cbn [Client.section].
      destruct (Client.ProfileSection_eqb s s') eqn:Es; [|reflexivity].
      apply ProfileSection_eqb_eq in Es. congruence.
    + now rewrite map_app.
    + intros Hnd. rewrite map_app. cbn [map Client.section].
      apply NoDup_app; [exact Hnd | repeat constructor; intros [] |].
      intros x Hx [<-|[]].
      apply in_map_iff in Hx. destruct Hx as [r [Hr Hin]].
      apply (find_none _ _ Hnone) in Hin. rewrite Hr in Hin.
      assert (Client.ProfileSection_eqb s s = true)
        by now apply ProfileSection_eqb_eq.
      congruence.
Qed.

End ClientFacts.

(** * More properties of the workflow controller *)

(** ** The effects of a run, one at a time *)


Section EffectFacts.
Variable env : Env.
Variable id : Z.

Lemma Effects_refl w : Effects env id w w.
Proof. apply rt_refl. Qed.

Lemma Effects_one w w' : Effect env id w w' -> Effects env id w w'.
Proof. apply rt_step. Qed.

Lemma Effects_trans w1 w2 w3 :
  Effects env id w1 w2 -> Effects env id w2 w3 -> Effects env id w1 w3.
Proof. apply rt_trans. Qed.

Lemma Within_resolve {A} (a : A) : Within env id (resolve a).
Proof. intros w. apply Effects_refl. Qed.

Lemma Within_andThen {A B} (m : Async A) (k : A -> Async B) :
  Within env id m -> (forall a, Within env id (k a)) -> Within env id (andThen m k).
Proof.
  intros Hm Hk w. unfold andThen. specialize (Hm w).
  destruct (m w) as [[a|e|] w1]; cbn [snd] in *; [|exact Hm|exact Hm].
  eapply Effects_trans; [exact Hm | apply Hk].
Qed.

Lemma Within_tryCatch {A} (body : Async A) handler :
  Within env id body -> (forall e, Within env id (handler e)) ->
  Within env id (tryCatch body handler).
Proof.
  intros Hm Hk w. unfold tryCatch. specialize (Hm w).
  destruct (body w) as [[a|e|] w1]; cbn [snd] in *; [exact Hm| |exact Hm].
  eapply Effects_trans; [exact Hm | apply Hk].
Qed.

Lemma Within_consoleLog l : Within env id (consoleLog l).
Proof. intros w. apply Effects_one, eff_print. Qed.

Lemma Within_waitForTimeout env' ms :
  (0 <= ms)%Z -> Within env id (waitForTimeout env' ms).
Proof.
  intros H w. unfold waitForTimeout.
  destruct (waitError env' (now w)) as [[d m]|]; cbn [snd];
    apply Effects_one, eff_advance; lia.
Qed.

Lemma Within_dateNow : Within env id dateNow.
Proof. intros w. apply Effects_refl. Qed.

Lemma Within_awaitDetectHumanStep env' :
  Within env id (awaitDetectHumanStep env').
Proof.
  intros w. unfold awaitDetectHumanStep.
  destruct (detectHumanStep (pageAt env' (now w))) as [r qs]. cbn [snd].
  eapply Effects_trans; [apply Effects_one, eff_asked|].
  apply Effects_one, eff_advance. lia.
Qed.

Lemma Within_dbUpdateApplicationStatus s :
  Within env id (dbUpdateApplicationStatus id s).
Proof. intros w. apply Effects_one, eff_status. Qed.

Lemma Within_dbAddApplicationStep t descr meta :
  Within env id (dbAddApplicationStep id t descr meta).
Proof.
  intros w. unfold dbAddApplicationStep.
  pose proof (eff_step env id (currentTimestamp w) t descr meta w) as H.
  destruct (addApplicationStep (currentTimestamp w) id t descr meta (db w))
    as [[row|m] d]; cbn [snd] in *; apply Effects_one, H.
Qed.

Lemma Within_audit action meta :
  action = human_step_pause \/ action = human_step_resume ->
  Within env id (audit action entity_application (Some id) (resumes action)
                   meta).
Proof.
  intros H w. unfold audit.
  apply Effects_one.
  exact (eff_audit env id (currentTimestamp w) action meta w H).
Qed.

Lemma Within_audit_pause meta :
  Within env id (audit human_step_pause entity_application (Some id) false
                   meta).
Proof. apply (Within_audit human_step_pause). now left. Qed.

Lemma Within_audit_resume meta :
  Within env id (audit human_step_resume entity_application (Some id) true
                   meta).
Proof. apply (Within_audit human_step_resume). now right. Qed.

Lemma Within_sendNotification t m s :
  Within env id (sendNotification env t m s).
Proof.
  intros w. unfold sendNotification.
  destruct (notificationsEnabled env) eqn:E1, (notifierThrows env) eqn:E2;
    cbn [snd]; try apply Effects_refl.
  apply Effects_one. now apply eff_deliver.
Qed.

Lemma Within_navigateToUrl env' url : Within env id (navigateToUrl env' url).
Proof.
  intros w. unfold navigateToUrl.
  destruct (gotoError env' url); cbn [snd].
  - apply Effects_one, eff_advance. lia.
  - apply (Effects_trans w (advance (Z.of_nat (gotoMs env')) w));
      [apply Effects_one, eff_advance; lia|].
    apply (Within_waitForTimeout env' 2000). lia.
Qed.

Lemma Within_waitLoop env' prev s T fuel :
  Within env id (waitLoop fuel env' prev s T).
Proof.
  induction fuel as [|fuel IH]; [intros w; apply Effects_refl|].
  cbn [waitLoop]. apply Within_andThen; [apply Within_dateNow|].
  intros t. destruct (t - s <? T)%Z; [|apply Within_resolve].
  apply Within_andThen; [apply Within_awaitDetectHumanStep|].
  intros r. destruct (resolvedBy prev r); [apply Within_resolve|].
  apply Within_andThen; [apply Within_waitForTimeout; lia | intros _; exact IH].
Qed.

Lemma Within_waitForHumanStepResolution env' prev T :
  Within env id (waitForHumanStepResolution env' prev T).
Proof.
  unfold waitForHumanStepResolution.
  apply Within_andThen; [apply Within_dateNow | intros s; apply Within_waitLoop].
Qed.

End EffectFacts.

Create HintDb within.
#[local] Hint Resolve Within_resolve Within_consoleLog Within_dateNow
  Within_awaitDetectHumanStep Within_dbUpdateApplicationStatus
  Within_dbAddApplicationStep Within_audit_pause Within_audit_resume
  Within_sendNotification
  Within_navigateToUrl Within_waitForHumanStepResolution : within.

Ltac within :=
  repeat first
    [ solve [auto with within]
    | apply Within_waitForTimeout; lia
    | apply Within_andThen; [|intros ?]
    | unfold notifyHumanStepDetected, notifyApplicationProgress,
        notifyApplicationComplete; apply Within_sendNotification ].

Section RunEffects.
Variable env : Env.
Variable context : ApplicationContext.

Lemma Within_mainLoop fuel : forall cont lc,
  Within env (applicationId context) (mainLoop fuel env context cont lc).
Proof.
  induction fuel as [|fuel IH]; intros cont lc;
    [intros w; apply Effects_refl|].
  cbn [mainLoop].
  destruct (cont && (lc <? maxLoops)%nat); [|apply Within_resolve].
  cbv zeta. 
  apply Within_andThen; [within|]. intros _.
  apply Within_andThen; [within|]. intros [hs|].
  - within. destruct (negb _); within.
  - within.
Qed.

Lemma Within_runApplicationWorkflow :
  Within env (applicationId context) (runApplicationWorkflow env context).
Proof.
  unfold runApplicationWorkflow.
  apply Within_tryCatch.
  - pose proof (Within_mainLoop (S maxLoops) true 0) as HL.
    unfold workflowBody. within.
    match goal with |- Within _ _ (match ?r with _ => _ end) => destruct r end;
      within.
  - intros e. unfold workflowHandler. within.
Qed.

End RunEffects.

Section EffectInvariants.
Variable env : Env.
Variable id : Z.

Lemma Effects_preorder (R : World -> World -> Prop) :
  (forall w, R w w) ->
  (forall w1 w2 w3, R w1 w2 -> R w2 w3 -> R w1 w3) ->
  (forall w w', Effect env id w w' -> R w w') ->
  forall w w', Effects env id w w' -> R w w'.
Proof.
  intros Hr Ht Hs w w' H. induction H; eauto.
Qed.

Lemma extends_refl {A} (l : list A) : extends l l.
Proof. exists []. now rewrite app_nil_r. Qed.

Lemma extends_trans {A} (l1 l2 l3 : list A) :
  extends l1 l2 -> extends l2 l3 -> extends l1 l3.
Proof. intros [a ->] [b ->]. exists (a ++ b). now rewrite app_assoc. Qed.

Lemma extends_one {A} (l : list A) x : extends l (l ++ [x]).
Proof. now exists [x]. Qed.

Lemma Effects_grows w w' : Effects env id w w' -> grows w w'.
Proof.
  apply Effects_preorder.
  - intros w0. unfold grows. repeat split; try apply extends_refl. lia.
  - intros w1 w2 w3 (H1 & H2 & H3 & H4 & H5 & H6) (K1 & K2 & K3 & K4 & K5 & K6).
    unfold grows. repeat split; try (eapply extends_trans; eassumption). lia.
  - intros w0 w0' H.
    destruct H; unfold grows, addApplicationStep, addAuditLog;
      try match goal with
          | |- context [existsb ?f ?l] => destruct (existsb f l)
          end; cbn;
      repeat split; try apply extends_refl; try apply extends_one; try lia.
    now exists qs.
Qed.

Lemma rowKept_refl a : rowKept id a a.
Proof. unfold rowKept. auto. Qed.

Lemma rowKept_trans a1 a2 a3 :
  rowKept id a1 a2 -> rowKept id a2 a3 -> rowKept id a1 a3.
Proof.
  intros (H1 & H2 & H3 & H4) (K1 & K2 & K3 & K4). unfold rowKept.
  repeat split; try congruence.
  intros E. rewrite K4; [now apply H4 | now rewrite H1].
Qed.

Lemma Forall2_rowKept_refl l : Forall2 (rowKept id) l l.
Proof. induction l; constructor; auto using rowKept_refl. Qed.

Lemma Forall2_rowKept_trans l1 : forall l2 l3,
  Forall2 (rowKept id) l1 l2 -> Forall2 (rowKept id) l2 l3 ->
  Forall2 (rowKept id) l1 l3.
Proof.
  induction l1 as [|a l1 IH]; intros l2 l3 H12 H23;
    inversion H12; subst; inversion H23; subst; constructor.
  - eapply rowKept_trans; eassumption.
  - eapply IH; eassumption.
Qed.

Lemma Forall2_rowKept_update now s l :
  Forall2 (rowKept id) l
    (map (fun a => if (app_id a =? id)%Z then setStatus now s a else a) l).
Proof.
  induction l as [|a l IH]; cbn [map]; constructor; [|exact IH].
  destruct (app_id a =? id)%Z eqn:E; [|apply rowKept_refl].
  unfold rowKept. rewrite E. destruct s; cbn; repeat split; discriminate.
Qed.

Lemma Effects_ownRowOnly w w' : Effects env id w w' -> ownRowOnly id w w'.
Proof.
  apply Effects_preorder.
  - intros w0. split; [apply Forall2_rowKept_refl|].
    exists []. split; [now rewrite app_nil_r | constructor].
  - intros w1 w2 w3 [H1 [a1 [E1 F1]]] [H2 [a2 [E2 F2]]]. split.
    + eapply Forall2_rowKept_trans; eassumption.
    + exists (a1 ++ a2). rewrite E2, E1, app_assoc. split; [reflexivity|].
      apply Forall_app. auto.
  - intros w0 w0' H.
    destruct H; unfold addApplicationStep, addAuditLog;
      try match goal with
          | |- context [existsb ?f ?l] => destruct (existsb f l)
          end;
      (split; [|]); cbn;
      try apply Forall2_rowKept_refl;
      try (exists []; split; [now rewrite app_nil_r | constructor]).
    + apply Forall2_rowKept_update.
    + eexists [_]. split; [reflexivity|]. constructor; [reflexivity|constructor].
Qed.

End EffectInvariants.

(** X9: a run only adds.  Whatever the page does and however the run ends,
    the clock does not go back, and the steps, the audit log, the console,
    the queries sent to the page and the notifications delivered are as
    before with, possibly, more at their end: nothing written earlier is
    removed or rewritten. *)
Theorem run_only_grows (env : Env) (context : ApplicationContext) (w : World) :
  grows w (snd (runApplicationWorkflow env context w)).
Proof.
  apply (Effects_grows env (applicationId context)).
  apply Within_runApplicationWorkflow.
Qed.

Lemma Forall2_rowKept_lookup id l l' id' :
  Forall2 (rowKept id) l l' -> id' <> id ->
  find (fun a => (app_id a =? id')%Z) l' = find (fun a => (app_id a =? id')%Z) l.
Proof.
  intros H Hne. induction H as [|a a' l l' (H1 & H2 & H3 & H4) _ IH];
    [reflexivity|].
  cbn [find]. rewrite H1.
  destruct (app_id a =? id')%Z eqn:E; [|exact IH].
  apply Z.eqb_eq in E. rewrite H4; [reflexivity|].
  apply Z.eqb_neq. congruence.
Qed.

(** X10: a run writes to its own application only.  The table
    [applications] keeps its rows, with their ids and jobs; every row but
    the run's own is as before; and every step the run adds is a step of
    the run's own application. *)
Theorem run_touches_own_row_only (env : Env) (context : ApplicationContext)
    (w : World) :
  let w' := snd (runApplicationWorkflow env context w) in
  map app_id (applications (db w')) = map app_id (applications (db w)) /\
  map job_id (applications (db w')) = map job_id (applications (db w)) /\
  (forall id', id' <> applicationId context ->
     getApplicationById id' (db w') = getApplicationById id' (db w)) /\
  exists added,
    application_steps (db w') = application_steps (db w) ++ added /\
    Forall (fun s => application_id s = applicationId context) added.
Proof.
  cbv zeta.
  destruct (Effects_ownRowOnly _ _ _ _
              (Within_runApplicationWorkflow env context w)) as [H Hs].
  repeat split; [| | |exact Hs].
  - induction H as [|a a' l l' (H1 & _) _ IH]; [reflexivity|].
    cbn [map]. now rewrite H1, IH.
  - induction H as [|a a' l l' (_ & H2 & _) _ IH]; [reflexivity|].
    cbn [map]. now rewrite H2, IH.
  - intros id' Hne. unfold getApplicationById.
    eapply Forall2_rowKept_lookup; eassumption.
Qed.

Section MoreEffectInvariants.
Variable env : Env.
Variable id : Z.

Lemma Effects_silent w w' :
  notificationsEnabled env = false \/ notifierThrows env = true ->
  Effects env id w w' -> delivered w' = delivered w.
Proof.
  intros Hoff. revert w w'.
  apply (Effects_preorder env id (fun w w' => delivered w' = delivered w));
    [reflexivity | congruence |].
  intros w0 w0' H. destruct H; try reflexivity.
  destruct Hoff; congruence.
Qed.

Lemma Effects_keysHold jobs w w' :
  Effects env id w w' -> keysHold jobs (db w) -> keysHold jobs (db w').
Proof.
  revert w w'.
  apply (Effects_preorder env id
           (fun w w' => keysHold jobs (db w) -> keysHold jobs (db w')));
    [auto | auto |].
  intros w0 w0' H K. destruct H; cbn [db print advance asked deliver setDb];
    try exact K.
  - exact (keysHold_perform jobs _ (CallUpdateApplicationStatus t id s) K).
  - exact (keysHold_perform jobs _
             (CallAddApplicationStep t id ty descr meta) K).
  - exact (keysHold_perform jobs _
             (CallAddAuditLog t action entity_application (Some id)
                (resumes action) meta) K).
Qed.

End MoreEffectInvariants.

(** X11: with the notifications switched off, or with a notifier that
    throws, a run delivers no notification, however it ends. *)
Theorem run_without_notifier_delivers_nothing (env : Env)
    (context : ApplicationContext) (w : World) :
  notificationsEnabled env = false \/ notifierThrows env = true ->
  delivered (snd (runApplicationWorkflow env context w)) = delivered w.
Proof.
  intros H. eapply Effects_silent; [exact H|].
  apply Within_runApplicationWorkflow.
Qed.

Lemma run_without_notifier_delivers_nothing_witness :
  delivered (snd (runApplicationWorkflow (quietEnv captchaPage) acmeContext
                    (startWorld queuedDb))) = [].
Proof.
  apply (run_without_notifier_delivers_nothing (quietEnv captchaPage)
           acmeContext (startWorld queuedDb)).
  left. reflexivity.
Defined.

(** X13: a run keeps the keys of the store: on a store in which ids are
    unique, every application is of a job there is and every step of an
    application there is, it leaves such a store, however it ends. *)
Theorem run_keeps_the_keys (env : Env) (context : ApplicationContext)
    (jobs : list Job.t) (w : World) :
  keysHold jobs (db w) ->
  keysHold jobs (db (snd (runApplicationWorkflow env context w))).
Proof.
  apply (Effects_keysHold env (applicationId context)).
  apply Within_runApplicationWorkflow.
Qed.

Lemma run_keeps_the_keys_witness :
  keysHold [acmeJob] queuedDb /\
  keysHold [acmeJob]
    (db (snd (runApplicationWorkflow (steadyEnv captchaPage 0) acmeContext
                (startWorld queuedDb)))).
Proof.
  assert (keysHold [acmeJob] queuedDb) as H.
  { unfold keysHold, queuedDb, queuedRun. cbn.
    repeat split; repeat constructor; auto; discriminate. }
  split; [exact H|].
  apply (run_keeps_the_keys (steadyEnv captchaPage 0) acmeContext [acmeJob]
           (startWorld queuedDb)).
  exact H.
Defined.

(** ** The notifier and the run *)

Create HintDb alike.

Section AlikeFacts.
Variables e1 e2 : Env.
Hypothesis Henv : sameButNotifier e1 e2.

Lemma Alike_resolve {A} (a : A) : Alike (resolve a) (resolve a).
Proof. intros w1 w2 H. split; [reflexivity | exact H]. Qed.

Lemma Alike_andThen {A B} (m1 m2 : Async A) (k1 k2 : A -> Async B) :
  Alike m1 m2 -> (forall a, Alike (k1 a) (k2 a)) ->
  Alike (andThen m1 k1) (andThen m2 k2).
Proof.
  intros Hm Hk w1 w2 H. unfold andThen. destruct (Hm w1 w2 H) as [Hf Hs].
  destruct (m1 w1) as [o1 v1], (m2 w2) as [o2 v2]. cbn [fst snd] in Hf, Hs.
  subst o2. destruct o1 as [a|e|]; [apply Hk, Hs | |]; split; auto.
Qed.

Lemma Alike_tryCatch {A} (b1 b2 : Async A) h1 h2 :
  Alike b1 b2 -> (forall e, Alike (h1 e) (h2 e)) ->
  Alike (tryCatch b1 h1) (tryCatch b2 h2).
Proof.
  intros Hm Hk w1 w2 H. unfold tryCatch. destruct (Hm w1 w2 H) as [Hf Hs].
  destruct (b1 w1) as [o1 v1], (b2 w2) as [o2 v2]. cbn [fst snd] in Hf, Hs.
  subst o2. destruct o1 as [a|e|]; [|apply Hk, Hs|]; split; auto.
Qed.

Ltac alike_prim :=
  intros [n1 d1 l1 c1 q1] [n2 d2 l2 c2 q2] (Hn & Hd & Hc & Hq);
  cbn [now db console queries] in Hn, Hd, Hc, Hq; subst n2 d2 c2 q2.

Lemma Alike_consoleLog l : Alike (consoleLog l) (consoleLog l).
Proof. alike_prim. repeat split. Qed.

Lemma Alike_waitForTimeout ms :
  Alike (waitForTimeout e1 ms) (waitForTimeout e2 ms).
Proof.
  destruct Henv as (_ & _ & _ & _ & Hw). alike_prim.
  unfold waitForTimeout. cbn [now]. rewrite Hw.
  destruct (waitError e2 n1) as [[d m]|]; repeat split.
Qed.

Lemma Alike_dateNow : Alike dateNow dateNow.
Proof. alike_prim. repeat split. Qed.

Lemma Alike_awaitDetectHumanStep :
  Alike (awaitDetectHumanStep e1) (awaitDetectHumanStep e2).
Proof.
  destruct Henv as (Hp & Hms & _). alike_prim.
  unfold awaitDetectHumanStep. cbn [now]. rewrite Hp, Hms.
  destruct (detectHumanStep (pageAt e2 n1)) as [r qs]. repeat split.
Qed.

Lemma Alike_dbUpdateApplicationStatus id s :
  Alike (dbUpdateApplicationStatus id s) (dbUpdateApplicationStatus id s).
Proof. alike_prim. repeat split. Qed.

Lemma Alike_dbAddApplicationStep id t descr meta :
  Alike (dbAddApplicationStep id t descr meta)
        (dbAddApplicationStep id t descr meta).
Proof.
  alike_prim. unfold dbAddApplicationStep, currentTimestamp. cbn [now db].
  destruct (addApplicationStep (n1 / 1000)%Z id t descr meta d1) as [[row|m] d];
    repeat split.
Qed.

Lemma Alike_audit action entity eid confirmed meta :
  Alike (audit action entity eid confirmed meta)
        (audit action entity eid confirmed meta).
Proof.
  alike_prim. unfold audit, currentTimestamp. cbn [now db].
  destruct (addAuditLog (n1 / 1000)%Z action entity eid confirmed meta d1)
    as [[row|m] d]; repeat split.
Qed.

Lemma Alike_sendNotification t m s :
  Alike (sendNotification e1 t m s) (sendNotification e2 t m s).
Proof.
  alike_prim. unfold sendNotification.
  destruct (notificationsEnabled e1), (notifierThrows e1),
    (notificationsEnabled e2), (notifierThrows e2); repeat split.
Qed.

Lemma Alike_navigateToUrl url :
  Alike (navigateToUrl e1 url) (navigateToUrl e2 url).
Proof.
  destruct Henv as (_ & _ & Hms & He & Hw). alike_prim.
  unfold navigateToUrl, waitForTimeout. cbn [now advance].
  rewrite Hms, He, Hw.
  destruct (gotoError e2 url); [repeat split|].
  destruct (waitError e2 _) as [[d m]|]; repeat split.
Qed.

Lemma Alike_waitLoop prev s T fuel :
  Alike (waitLoop fuel e1 prev s T) (waitLoop fuel e2 prev s T).
Proof.
  induction fuel as [|fuel IH]; [intros w1 w2 H; split; [reflexivity|exact H]|].
  cbn [waitLoop]. apply Alike_andThen; [apply Alike_dateNow|].
  intros t. destruct (t - s <? T)%Z; [|apply Alike_resolve].
  apply Alike_andThen; [apply Alike_awaitDetectHumanStep|].
  intros r. destruct (resolvedBy prev r); [apply Alike_resolve|].
  apply Alike_andThen; [apply Alike_waitForTimeout | intros _; exact IH].
Qed.

Lemma Alike_waitForHumanStepResolution prev T :
  Alike (waitForHumanStepResolution e1 prev T)
        (waitForHumanStepResolution e2 prev T).
Proof.
  unfold waitForHumanStepResolution.
  apply Alike_andThen; [apply Alike_dateNow | intros s; apply Alike_waitLoop].
Qed.

#[local] Hint Resolve Alike_resolve Alike_consoleLog Alike_dateNow
  Alike_waitForTimeout Alike_awaitDetectHumanStep
  Alike_dbUpdateApplicationStatus Alike_dbAddApplicationStep Alike_audit
  Alike_sendNotification Alike_navigateToUrl
  Alike_waitForHumanStepResolution : alike.

Ltac alike :=
  repeat first
    [ solve [auto with alike]
    | apply Alike_andThen; [|intros ?]
    | unfold notifyHumanStepDetected, notifyApplicationProgress,
        notifyApplicationComplete; apply Alike_sendNotification ].

Lemma Alike_mainLoop context fuel : forall cont lc,
  Alike (mainLoop fuel e1 context cont lc) (mainLoop fuel e2 context cont lc).
Proof.
  induction fuel as [|fuel IH]; intros cont lc;
    [intros w1 w2 H; split; [reflexivity|exact H]|].
  cbn [mainLoop].
  destruct (cont && (lc <? maxLoops)%nat); [|apply Alike_resolve].
  cbv zeta.
  apply Alike_andThen; [alike|]. intros _.
  apply Alike_andThen; [alike|]. intros [hs|].
  - alike. destruct (negb _); alike.
  - alike.
Qed.

Lemma Alike_runApplicationWorkflow context :
  Alike (runApplicationWorkflow e1 context)
        (runApplicationWorkflow e2 context).
Proof.
  unfold runApplicationWorkflow.
  apply Alike_tryCatch.
  - pose proof (Alike_mainLoop context (S maxLoops) true 0) as HL.
    unfold workflowBody. alike.
    match goal with |- Alike (match ?r with _ => _ end) _ => destruct r end;
      alike.
  - intros e. unfold workflowHandler. alike.
Qed.

End AlikeFacts.

(** X12: the notifier does not steer the run.  Two runs that differ only in
    the notifier (switched on or off, throwing or not) and in the
    notifications delivered before end the same way, with the same result or
    the same exception, at the same time, with the same store, the same
    console and the same queries sent to the page. *)
Theorem notifier_does_not_steer_the_run (e1 e2 : Env)
    (context : ApplicationContext) (w1 w2 : World) :
  sameButNotifier e1 e2 -> sameButDelivered w1 w2 ->
  fst (runApplicationWorkflow e1 context w1)
  = fst (runApplicationWorkflow e2 context w2) /\
  sameButDelivered (snd (runApplicationWorkflow e1 context w1))
                   (snd (runApplicationWorkflow e2 context w2)).
Proof.
  intros He Hw. now apply Alike_runApplicationWorkflow.
Qed.

Lemma notifier_does_not_steer_the_run_witness :
  sameButNotifier (steadyEnv captchaPage 0) (quietEnv captchaPage) /\
  fst (runApplicationWorkflow (steadyEnv captchaPage 0) acmeContext
         (startWorld queuedDb))
  = fst (runApplicationWorkflow (quietEnv captchaPage) acmeContext
           (startWorld queuedDb)).
Proof.
  assert (sameButNotifier (steadyEnv captchaPage 0) (quietEnv captchaPage))
    as H by (repeat split).
  split; [exact H|].
  apply (notifier_does_not_steer_the_run (steadyEnv captchaPage 0)
           (quietEnv captchaPage) acmeContext (startWorld queuedDb)
           (startWorld queuedDb) H).
  repeat split.
Defined.

(** ** The audit trail of a run *)


Section AuditFacts.
Variable env : Env.
Variable id : Z.

Lemma Effects_auditsOwnRun w w' : Effects env id w w' -> auditsOwnRun id w w'.
Proof.
  revert w w'. apply Effects_preorder.
  - intros w0. exists []. split; [now rewrite app_nil_r | constructor].
  - intros w1 w2 w3 [a1 [E1 F1]] [a2 [E2 F2]].
    exists (a1 ++ a2). rewrite E2, E1, app_assoc. split; [reflexivity|].
    apply Forall_app. auto.
  - intros w0 w0' H.
    destruct H as [l w0|ms w0 Hms|qs w0|n w0 H1 H2|t s w0|t ty descr meta w0
                  |t action meta w0 Hact];
      unfold auditsOwnRun, addApplicationStep, addAuditLog;
      try match goal with
          | |- context [existsb ?f ?l] => destruct (existsb f l)
          end; cbn [snd db setDb print advance asked deliver audit_log
                    updateApplicationStatus];
      try (exists []; split; [now rewrite app_nil_r | constructor]).
    eexists [_]. split; [reflexivity|]. constructor; [|constructor].
    unfold pauseOrResumeOf. cbn [entityType entityId actionType userConfirmed].
    destruct Hact as [-> | ->]; cbn [resumes]; auto.
Qed.

Lemma Settled_resolve {A} (a : A) : Settled (resolve a).
Proof. intros w. reflexivity. Qed.

Lemma Settled_andThen {A B} (m : Async A) (k : A -> Async B) :
  Settled m -> (forall a, Settled (k a)) -> Settled (andThen m k).
Proof.
  intros Hm Hk w. unfold andThen. specialize (Hm w).
  destruct (m w) as [[a|e|] w1]; cbn [snd] in *; [|exact Hm|exact Hm].
  now rewrite Hk.
Qed.

Lemma Settled_tryCatch {A} (body : Async A) handler :
  Settled body -> (forall e, Settled (handler e)) ->
  Settled (tryCatch body handler).
Proof.
  intros Hm Hk w. unfold tryCatch. specialize (Hm w).
  destruct (body w) as [[a|e|] w1]; cbn [snd] in *; [exact Hm| |exact Hm].
  now rewrite Hk.
Qed.

Lemma Settled_consoleLog l : Settled (consoleLog l).
Proof. intros w. reflexivity. Qed.

Lemma Settled_waitForTimeout ms : Settled (waitForTimeout env ms).
Proof.
  intros w. unfold waitForTimeout.
  now destruct (waitError env (now w)) as [[d m]|].
Qed.

Lemma Settled_awaitDetectHumanStep : Settled (awaitDetectHumanStep env).
Proof.
  intros w. unfold awaitDetectHumanStep.
  now destruct (detectHumanStep (pageAt env (now w))).
Qed.

Lemma Settled_dbUpdateApplicationStatus s :
  Settled (dbUpdateApplicationStatus id s).
Proof. intros w. reflexivity. Qed.

Lemma Settled_sendNotification t m s : Settled (sendNotification env t m s).
Proof.
  intros w. unfold sendNotification.
  now destruct (notificationsEnabled env), (notifierThrows env).
Qed.

Lemma Settled_navigateToUrl url : Settled (navigateToUrl env url).
Proof.
  intros w. unfold navigateToUrl. destruct (gotoError env url);
    [reflexivity|].
  now rewrite Settled_waitForTimeout.
Qed.

Lemma Settled_waitForHumanStepResolution prev T :
  Settled (waitForHumanStepResolution env prev T).
Proof.
  intros w.
  destruct (waitForHumanStepResolution_ends env prev T w)
    as [o [w' [E [_ [[Hd _] _]]]]].
  rewrite E. cbn [snd]. unfold unaudited. now rewrite Hd.
Qed.

Lemma count_app {A} (f : A -> bool) l x :
  count f (l ++ [x]) = (count f l + (if f x then 1 else 0))%Z.
Proof.
  unfold count. rewrite filter_app, length_app. cbn [filter].
  destruct (f x); cbn [List.length]; lia.
Qed.

(** A step that is neither of a pause nor of a resumption. *)
Lemma Settled_dbAddApplicationStep t descr meta :
  t <> human_step_detected -> t <> human_step_resolved ->
  Settled (dbAddApplicationStep id t descr meta).
Proof.
  intros H1 H2 w. unfold dbAddApplicationStep, addApplicationStep.
  destruct (existsb _ (applications (db w))); [|reflexivity].
  cbn [snd db setDb]. unfold unaudited.
  cbn [application_steps audit_log]. rewrite !count_app.
  unfold isDetectedStep, isResolvedStep. cbn [stepType].
  destruct t; try contradiction; f_equal; lia.
Qed.

(** The step of a pause is followed by its audit entry. *)
Lemma Settled_pause {A} descr meta s t d entity eid c meta'
    (K : Async A) :
  Settled K ->
  Settled (dbAddApplicationStep id human_step_detected descr meta ;;
           dbUpdateApplicationStatus id s ;;
           notifyHumanStepDetected env t d ;;
           audit human_step_pause entity eid c meta' ;;
           K).
Proof.
  intros HK w. unfold andThen at 1, dbAddApplicationStep, addApplicationStep.
  destruct (existsb _ (applications (db w))); [|reflexivity].
  unfold andThen, dbUpdateApplicationStatus, notifyHumanStepDetected,
    sendNotification, audit, addAuditLog.
  destruct (notificationsEnabled env), (notifierThrows env);
    cbn [fst snd db setDb deliver]; rewrite HK; unfold unaudited;
    cbn [db setDb deliver application_steps audit_log
         updateApplicationStatus];
    rewrite !count_app; cbn; f_equal; lia.
Qed.

(** The step of a resumption is followed by its audit entry. *)
Lemma Settled_resume {A} descr meta s entity eid c meta' (K : Async A) :
  Settled K ->
  Settled (dbAddApplicationStep id human_step_resolved descr meta ;;
           dbUpdateApplicationStatus id s ;;
           audit human_step_resume entity eid c meta' ;;
           K).
Proof.
  intros HK w. unfold andThen at 1, dbAddApplicationStep, addApplicationStep.
  destruct (existsb _ (applications (db w))); [|reflexivity].
  unfold andThen, dbUpdateApplicationStatus, audit, addAuditLog.
  cbn [fst snd db setDb]; rewrite HK; unfold unaudited;
    cbn [db setDb application_steps audit_log updateApplicationStatus];
    rewrite !count_app; cbn; f_equal; lia.
Qed.

End AuditFacts.

Create HintDb settled.
#[local] Hint Resolve Settled_resolve Settled_consoleLog
  Settled_waitForTimeout Settled_awaitDetectHumanStep
  Settled_dbUpdateApplicationStatus Settled_sendNotification
  Settled_navigateToUrl Settled_waitForHumanStepResolution : settled.

Ltac settled :=
  repeat first
    [ solve [auto with settled]
    | apply Settled_dbAddApplicationStep; discriminate
    | apply Settled_pause
    | apply Settled_resume
    | apply Settled_andThen; [|intros ?]
    | unfold notifyHumanStepDetected, notifyApplicationProgress,
        notifyApplicationComplete; apply Settled_sendNotification ].

Section RunAudit.
Variable env : Env.
Variable context : ApplicationContext.

Lemma Settled_mainLoop fuel : forall cont lc,
  Settled (mainLoop fuel env context cont lc).
Proof.
  induction fuel as [|fuel IH]; intros cont lc; [intros w; reflexivity|].
  cbn [mainLoop].
  destruct (cont && (lc <? maxLoops)%nat); [|apply Settled_resolve].
  cbv zeta.
  apply Settled_andThen; [settled|]. intros _.
  apply Settled_andThen; [settled|]. intros [hs|].
  - apply Settled_andThen; [settled|]. intros _.
    apply Settled_pause.
    settled. destruct (negb _); settled.
  - settled.
Qed.

Lemma Settled_runApplicationWorkflow :
  Settled (runApplicationWorkflow env context).
Proof.
  unfold runApplicationWorkflow.
  apply Settled_tryCatch.
  - pose proof (Settled_mainLoop (S maxLoops) true 0) as HL.
    unfold workflowBody. settled.
    match goal with |- Settled (match ?r with _ => _ end) => destruct r end;
      settled.
  - intros e. unfold workflowHandler. settled.
Qed.

End RunAudit.

(** X14: the audit trail of a run.  Every entry the run adds to the audit log
    is about the run's application and is either a pause, not confirmed by
    the user, or a resumption, confirmed by the user; and the run adds as
    many pause entries as [human_step_detected] steps and as many resume
    entries as [human_step_resolved] steps, however it ends. *)
Theorem run_audits_every_pause (env : Env) (context : ApplicationContext)
    (w : World) :
  exists addedSteps addedEntries,
    let w' := snd (runApplicationWorkflow env context w) in
    application_steps (db w') = application_steps (db w) ++ addedSteps /\
    audit_log (db w') = audit_log (db w) ++ addedEntries /\
    Forall (pauseOrResumeOf (applicationId context)) addedEntries /\
    List.length (filter isPauseEntry addedEntries)
    = List.length (filter isDetectedStep addedSteps) /\
    List.length (filter isResumeEntry addedEntries)
    = List.length (filter isResolvedStep addedSteps).
Proof.
  pose proof (Within_runApplicationWorkflow env context w) as HW.
  destruct (Effects_ownRowOnly _ _ _ _ HW) as [_ [steps' [Hs _]]].
  destruct (Effects_auditsOwnRun _ _ _ _ HW) as [entries [He Hall]].
  pose proof (Settled_runApplicationWorkflow env context w) as Hset.
  exists steps', entries. cbv zeta.
  split; [exact Hs|]. split; [exact He|]. split; [exact Hall|].
  unfold unaudited, count in Hset. rewrite Hs, He in Hset.
  rewrite !filter_app, !length_app in Hset.
  injection Hset as H1 H2. lia.
Qed.

(** ** How long a run lasts *)

Section TimeFacts.
Variable env : Env.

Lemma Takes_resolve {A} (a : A) : Takes (resolve a) 0.
Proof. split; [lia | intros w; cbn; lia]. Qed.

Lemma Takes_more {A} (m : Async A) a b :
  Takes m a -> (a <= b)%Z -> Takes m b.
Proof. intros [H0 H] Hab. split; [lia | intros w; specialize (H w); lia]. Qed.

Lemma Takes_andThen {A B} (m : Async A) (k : A -> Async B) a b :
  Takes m a -> (forall x, Takes (k x) b) -> (0 <= b)%Z ->
  Takes (andThen m k) (a + b).
Proof.
  intros [Ha Hm] Hk Hb. split; [lia|]. intros w. unfold andThen.
  specialize (Hm w). destruct (m w) as [[x|e|] w1]; cbn [snd] in *; try lia.
  destruct (Hk x) as [_ Hx]. specialize (Hx w1). lia.
Qed.

Lemma Takes_tryCatch {A} (body : Async A) handler a b :
  Takes body a -> (forall e, Takes (handler e) b) -> (0 <= b)%Z ->
  Takes (tryCatch body handler) (a + b).
Proof.
  intros [Ha Hm] Hk Hb. split; [lia|]. intros w. unfold tryCatch.
  specialize (Hm w). destruct (body w) as [[x|e|] w1]; cbn [snd] in *;
    try lia.
  destruct (Hk e) as [_ Hx]. specialize (Hx w1). lia.
Qed.

Lemma Takes_consoleLog l : Takes (consoleLog l) 0.
Proof. split; [lia | intros w; cbn; lia]. Qed.

Lemma Takes_waitForTimeout ms :
  (0 <= ms)%Z -> Takes (waitForTimeout env ms) ms.
Proof.
  intros H. split; [lia|]. intros w. unfold waitForTimeout.
  destruct (waitError env (now w)) as [[d m]|]; cbn [snd now advance]; lia.
Qed.

Lemma Takes_awaitDetectHumanStep :
  Takes (awaitDetectHumanStep env) (Z.of_nat (detectMs env)).
Proof.
  split; [lia|]. intros w. unfold awaitDetectHumanStep.
  destruct (detectHumanStep (pageAt env (now w))). cbn. lia.
Qed.

Lemma Takes_dbUpdateApplicationStatus id s :
  Takes (dbUpdateApplicationStatus id s) 0.
Proof. split; [lia | intros w; cbn; lia]. Qed.

Lemma Takes_dbAddApplicationStep id t descr meta :
  Takes (dbAddApplicationStep id t descr meta) 0.
Proof.
  split; [lia|]. intros w. unfold dbAddApplicationStep.
  destruct (addApplicationStep _ _ _ _ _ _) as [[row|m] d]; cbn; lia.
Qed.

Lemma Takes_audit action entity eid confirmed meta :
  Takes (audit action entity eid confirmed meta) 0.
Proof. split; [lia | intros w; cbn; lia]. Qed.

Lemma Takes_sendNotification t m s : Takes (sendNotification env t m s) 0.
Proof.
  split; [lia|]. intros w. unfold sendNotification.
  destruct (notificationsEnabled env), (notifierThrows env); cbn; lia.
Qed.

Lemma Takes_navigateToUrl url :
  Takes (navigateToUrl env url) (Z.of_nat (gotoMs env) + 2000).
Proof.
  split; [lia|]. intros w. unfold navigateToUrl, waitForTimeout.
  destruct (gotoError env url); [cbn; lia|]. cbn [now advance].
  destruct (waitError env _) as [[d m]|]; cbn [snd now advance]; lia.
Qed.

(** The waiter's loop ends before the deadline has passed by a polling
    interval, unless it was entered later than that. *)
Lemma waitLoop_deadline prev fuel : forall s T w,
  (now (snd (waitLoop fuel env prev s T w))
   <= Z.max (now w) (s + T - 1 + period env))%Z.
Proof.
  unfold period.
  induction fuel as [|fuel IH]; intros s T w; [cbn [waitLoop snd]; lia|].
  rewrite waitLoop_unfold.
  destruct (Z.ltb_spec (now w - s) T) as [Hlt|Hge]; [|cbn [snd]; lia].
  cbv zeta. destruct (resolvedBy prev _);
    [cbn [snd now advance asked]; lia|].
  destruct (waitError env _) as [[d m]|];
    [cbn [snd now advance asked]; lia|].
  etransitivity; [apply IH|]. cbn [now advance asked]. lia.
Qed.

Lemma Takes_waitForHumanStepResolution prev T :
  (0 <= T)%Z ->
  Takes (waitForHumanStepResolution env prev T) (T + period env).
Proof.
  intros HT. unfold period. split; [lia|]. intros w.
  rewrite waitForHumanStepResolution_unfold.
  pose proof (waitLoop_deadline prev (waitFuel T) (now w) T w) as H.
  unfold period in H. lia.
Qed.

Lemma turnMs_pos : (0 <= turnMs env)%Z.
Proof. unfold turnMs, period, defaultTimeoutMs. lia. Qed.

End TimeFacts.

Create HintDb takes.
#[local] Hint Resolve Takes_resolve Takes_consoleLog
  Takes_awaitDetectHumanStep Takes_dbUpdateApplicationStatus
  Takes_dbAddApplicationStep Takes_audit Takes_sendNotification
  Takes_navigateToUrl : takes.

(** Adds up the times of the steps of a sequence. *)
Ltac takes :=
  repeat first
    [ solve [auto with takes]
    | apply Takes_waitForTimeout; lia
    | unfold notifyHumanStepDetected, notifyApplicationProgress,
        notifyApplicationComplete; apply Takes_sendNotification
    | eapply Takes_andThen; [|intros ?|] ].

(** [chain n] adds up the first [n] steps of a sequence. *)
Ltac chain n :=
  match n with
  | O => idtac
  | S ?n' => eapply Takes_andThen; [solve [takes] | intros _; chain n' | ]
  end.

Section RunTime.
Variable env : Env.
Variable context : ApplicationContext.

Lemma Takes_mainLoop fuel : forall cont lc,
  Takes (mainLoop fuel env context cont lc)
        (Z.of_nat (maxLoops - lc) * turnMs env).
Proof.
  pose proof (turnMs_pos env) as Hturn.
  assert (forall n : nat, 0 <= Z.of_nat n * turnMs env)%Z as Hnn
    by (intros n; apply Z.mul_nonneg_nonneg; lia).
  induction fuel as [|fuel IH]; intros cont lc.
  - split; [apply Hnn | intros w; cbn; specialize (Hnn (maxLoops - lc)); lia].
  - cbn [mainLoop].
    destruct (cont && (lc <? maxLoops)%nat) eqn:Hcond;
      [|eapply Takes_more; [apply Takes_resolve | apply Hnn]].
    apply andb_true_iff in Hcond. destruct Hcond as [_ Hlt].
    apply Nat.ltb_lt in Hlt. cbv zeta.
    set (rest := (Z.of_nat (maxLoops - S lc) * turnMs env)%Z).
    assert (0 <= rest)%Z as Hrest by apply Hnn.
    assert (Z.of_nat (maxLoops - lc) * turnMs env = turnMs env + rest)%Z
      as ->.
    { unfold rest. replace (maxLoops - lc) with (S (maxLoops - S lc)) by lia.
      rewrite Nat2Z.inj_succ. lia. }
    clear Hnn.
    pose proof (IH cont (S lc)) as IH1. pose proof (IH false (S lc)) as IH2.
    fold rest in IH1, IH2. unfold turnMs in *.
    set (wait := (defaultTimeoutMs + period env)%Z) in *.
    assert (0 <= wait)%Z as Hwait
      by (unfold wait, defaultTimeoutMs, period; lia).
    eapply Takes_more.
    + apply (Takes_andThen _ _ 0 (Z.of_nat (detectMs env)
                                 + (wait + (2000 + rest)))%Z);
        [apply Takes_consoleLog | intros _ | lia].
      apply Takes_andThen; [apply Takes_awaitDetectHumanStep | | lia].
      intros [hs|].
      * assert (forall resolved : bool,
                  Takes (if negb resolved
                         then consoleLog LineTimeout ;;
                              dbUpdateApplicationStatus
                                (applicationId context) paused ;;
                              resolve (Some (mkResult false
                                ("Timeout waiting for "
                                 ++ typeName (type hs) ++ " resolution")))
                         else consoleLog LineResolved ;;
                              dbAddApplicationStep (applicationId context)
                                human_step_resolved
                                (typeName (type hs) ++ " resolved") [] ;;
                              dbUpdateApplicationStatus
                                (applicationId context) in_progress ;;
                              audit human_step_resume entity_application
                                (Some (applicationId context)) true
                                [("stepType", typeName (type hs))] ;;
                              waitForTimeout env 2000 ;;
                              mainLoop fuel env context cont (S lc))
                        (2000 + rest)%Z) as Hafter.
        { intros resolved. destruct (negb resolved).
          - eapply Takes_more;
              [chain 2%nat; [apply Takes_resolve | lia..] | lia].
          - eapply Takes_more;
              [chain 4%nat;
               [eapply Takes_andThen;
                [apply Takes_waitForTimeout; lia | intros _; exact IH1 | lia]
               | lia..]
              | lia]. }
        eapply Takes_more;
          [chain 7%nat;
           [apply (Takes_andThen _ _ wait (2000 + rest)%Z);
            [apply Takes_waitForHumanStepResolution;
             unfold defaultTimeoutMs; lia
            | exact Hafter | lia]
           | lia..]
          | lia].
      * eapply Takes_more.
        -- eapply Takes_andThen; [apply Takes_consoleLog
                                 | intros _; exact IH2 | lia].
        -- lia.
    + lia.
Qed.

Lemma Takes_runApplicationWorkflow :
  Takes (runApplicationWorkflow env context) (runMs env).
Proof.
  pose proof (turnMs_pos env) as Hturn.
  pose proof (Takes_mainLoop (S maxLoops) true 0) as HL.
  rewrite Nat.sub_0_r in HL.
  assert (0 <= Z.of_nat maxLoops * turnMs env)%Z as Hnn
    by (apply Z.mul_nonneg_nonneg; lia).
  unfold runApplicationWorkflow, runMs.
  eapply Takes_more.
  - apply (Takes_tryCatch _ _ (Z.of_nat (gotoMs env) + 2000 + 3000
                               + Z.of_nat maxLoops * turnMs env)%Z 0%Z);
      [| |lia].
    + unfold workflowBody.
      eapply Takes_more;
        [chain 3%nat;
         [eapply Takes_andThen;
          [apply Takes_navigateToUrl
          |intros _; chain 2%nat;
           [eapply Takes_andThen;
            [apply Takes_waitForTimeout; lia
            |intros _;
             apply (Takes_andThen _ _ (Z.of_nat maxLoops * turnMs env)%Z 0%Z);
             [exact HL
             |intros [r|];
              [apply Takes_resolve
              |eapply Takes_more;
               [chain 4%nat; [apply Takes_resolve | lia..] | lia]]
             |lia]
            |lia]
           |lia..]
          |lia]
         |lia..]
        |lia].
    + intros e. unfold workflowHandler.
      eapply Takes_more; [chain 3%nat; [apply Takes_resolve | lia..] | lia].
  - lia.
Qed.

End RunTime.

(** X15: a run ends in bounded time.  It ends no later than the navigation
    with its two pauses (2 s and 3 s) and twenty turns of the main loop
    allow, a turn lasting at most a detection, the five minutes of the
    waiter with its last polling interval, and the 2 s pause: with
    detections that take no time, 5 s and 20 times 304 s after the
    navigation. *)
Theorem run_ends_in_time (env : Env) (context : ApplicationContext)
    (w : World) :
  let w' := snd (runApplicationWorkflow env context w) in
  (now w <= now w' <= now w + runMs env)%Z /\
  runMs env
  = (Z.of_nat (gotoMs env) + 5000
     + 20 * (304000 + 2 * Z.of_nat (detectMs env)))%Z.
Proof.
  cbv zeta. split; [split|].
  - apply (Effects_grows env (applicationId context)).
    apply Within_runApplicationWorkflow.
  - apply Takes_runApplicationWorkflow.
  - unfold runMs, turnMs, period, defaultTimeoutMs, maxLoops. lia.
Qed.

(** ** The result and the status *)

(** X16: the result tells the status.  When the run's application exists
    the run returns a result, and leaves one of three statuses: [completed],
    with [success: true]; [failed], with [success: false] and the message of
    the error that ended the run, which is the error of the navigation or of
    a wait that was rejected; or [paused], with [success: false] and the
    message of a waiter timeout.  So the status is [completed] exactly when
    the result says [success: true]; a navigation error always leaves
    [failed]; and when neither the navigation nor any wait of the run is
    rejected the run does not end as [failed]. *)
Theorem result_agrees_with_status (env : Env) (context : ApplicationContext)
    (w : World) :
  hasApplication (applicationId context) (db w) = true ->
  exists r w',
    runApplicationWorkflow env context w = (Returned r, w') /\
    let st := option_map status
                (getApplicationById (applicationId context) (db w')) in
    ((st = Some completed /\
      r = mkResult true "Application workflow completed successfully")
     \/ (st = Some failed /\ success r = false /\
         (gotoError env (jobUrl context) = Some (message r) \/
          gotoError env (jobUrl context) = None /\
          exists t d,
            (now w <= t)%Z /\ waitError env t = Some (d, message r)))
     \/ (st = Some paused /\
         gotoError env (jobUrl context) = None /\
         exists hs,
           r = mkResult false
                 ("Timeout waiting for " ++ typeName (type hs)
                  ++ " resolution"))) /\
    (success r = true <-> st = Some completed) /\
    (forall m, gotoError env (jobUrl context) = Some m ->
               r = mkResult false m /\ st = Some failed) /\
    (gotoError env (jobUrl context) = None ->
     (forall t, (now w <= t)%Z -> waitError env t = None) ->
     st <> Some failed).
Proof.
  intros H. destruct (run_cases env context w) as [o [w' [E [_ Hcases]]]].
  rewrite hasApp_db, H in Hcases. cbv zeta.
  destruct Hcases as [(F & _) | [(_ & m & Hm & -> & _ & Hf)
                     | [(_ & Hg & m & (t & d & m' & Ht & Hw & Hm) & -> & _ & Hf)
                     | [(_ & Hg & _ & hs & -> & Hp)
                       | (_ & Hg & _ & -> & Hc)]]]];
    try discriminate.
  - exists (mkResult false m), w'. split; [exact E|].
    destruct Hf as (earlier & step & Hst & _).
    change (option_map status
              (getApplicationById (applicationId context) (db w')))
      with (statusOf (applicationId context) w').
    rewrite Hst, Hm. cbn [success message].
    split; [right; left; auto|].
    split; [split; discriminate|].
    split; [intros m' [= ->]; auto | discriminate].
  - injection Hm as <-.
    exists (mkResult false m), w'. split; [exact E|].
    destruct Hf as (earlier & step & Hst & _).
    change (option_map status
              (getApplicationById (applicationId context) (db w')))
      with (statusOf (applicationId context) w').
    rewrite Hst, Hg. cbn [success message].
    split; [right; left; split; [reflexivity|]; split; [reflexivity|];
            right; split; [reflexivity|]; exists t, d; auto|].
    split; [split; discriminate|].
    split; [discriminate|].
    intros _ Hnone. rewrite (Hnone t Ht) in Hw. discriminate.
  - exists (timeoutResult hs), w'. split; [exact E|].
    destruct Hp as (earlier & step & pre & Hst & _).
    change (option_map status
              (getApplicationById (applicationId context) (db w')))
      with (statusOf (applicationId context) w').
    rewrite Hst, Hg. cbn [success timeoutResult].
    split; [right; right; split; [reflexivity|]; split; [reflexivity|];
            exists hs; reflexivity|].
    split; [split; discriminate|].
    split; discriminate.
  - eexists _, w'. split; [exact E|].
    destruct Hc as (earlier & step & pre & Hst & _).
    change (option_map status
              (getApplicationById (applicationId context) (db w')))
      with (statusOf (applicationId context) w').
    rewrite Hst, Hg. cbn [success].
    split; [left; auto|].
    split; [split; reflexivity|].
    split; discriminate.
Qed.

(** A tab closed six seconds into the run, while the waiter polls a CAPTCHA:
    the run returns a result and its status agrees with it. *)
Lemma result_agrees_with_status_witness :
  hasApplication (applicationId acmeContext) queuedDb = true /\
  exists r w',
    runApplicationWorkflow (closingEnv captchaPage 6000) acmeContext
      (startWorld queuedDb) = (Returned r, w') /\
    (success r = true <->
     option_map status (getApplicationById 1 (db w')) = Some completed).
Proof.
  split; [reflexivity|].
  destruct (result_agrees_with_status (closingEnv captchaPage 6000)
              acmeContext (startWorld queuedDb) eq_refl)
    as (r & w' & E & _ & Hiff & _).
  exists r, w'. split; [exact E | exact Hiff].
Defined.

(** The same run, step by step: the navigation succeeds, the first turn
    detects the CAPTCHA and pauses, the wait after the waiter's first poll
    is rejected when the tab is closed, and the [catch] block records the
    failure. *)
Example tab_closed_during_the_wait :
  let '(o, w) := runApplicationWorkflow (closingEnv captchaPage 6000)
                   acmeContext (startWorld queuedDb) in
  o = Returned (mkResult false pageClosedMessage) /\
  map status (applications (db w)) = [failed] /\
  map stepType (application_steps (db w))
    = [navigation; human_step_detected; error] /\
  now w = 6000%Z.
Proof. vm_compute. repeat split. Qed.

(** * Properties of the question types *)

Section PromptFacts.
Import Prompts.

Lemma toUpper_idem c : toUpper (toUpper c) = toUpper c.
Proof.
  unfold toUpper.
  destruct ((97 <=? c)%N && (c <=? 122)%N) eqn:E; [|now rewrite E].
  apply andb_true_iff in E. destruct E as [E1 E2].
  apply N.leb_le in E1, E2.
  destruct ((97 <=? c - 32)%N && (c - 32 <=? 122)%N) eqn:E'; [|reflexivity].
  apply andb_true_iff in E'. destruct E' as [E3 E4].
  apply N.leb_le in E3. lia.
Qed.

Lemma isLineTerminator_toUpper c :
  isLineTerminator (toUpper c) = isLineTerminator c.
Proof.
  unfold toUpper.
  destruct ((97 <=? c)%N && (c <=? 122)%N) eqn:E; [|reflexivity].
  apply andb_true_iff in E. destruct E as [E1 E2].
  apply N.leb_le in E1, E2. unfold isLineTerminator.
  repeat match goal with
         | |- context [(?a =? ?b)%N] =>
             destruct (N.eqb_spec a b); try lia
         end; reflexivity.
Qed.

(** *** Letter case *)

Lemma stripLiteral_toUpper text : forall s,
  stripLiteral text (map toUpper s)
  = option_map (map toUpper) (stripLiteral text s).
Proof.
  induction text as [|p text IH]; intros s; [reflexivity|].
  destruct s as [|c s]; [reflexivity|]. cbn [stripLiteral map].
  unfold sameLetter. rewrite toUpper_idem.
  destruct (toUpper p =? toUpper c)%N; [apply IH | reflexivity].
Qed.

Lemma matchHere_star re s :
  matchHere (AnyStar :: re) s
  = match s with
    | [] => matchHere re []
    | c :: s' =>
        (if isLineTerminator c then false else matchHere (AnyStar :: re) s')
        || matchHere re s
    end.
Proof. destruct s; reflexivity. Qed.

Lemma matchHere_lit text re s :
  matchHere (Lit text :: re) s
  = match stripLiteral (units text) s with
    | Some rest => matchHere re rest
    | None => false
    end.
Proof. reflexivity. Qed.

Lemma matchHere_toUpper re : forall s,
  matchHere re (map toUpper s) = matchHere re s.
Proof.
  induction re as [|[text|] re IH]; intros s; [reflexivity| |].
  - rewrite !matchHere_lit, stripLiteral_toUpper.
    destruct (stripLiteral (units text) s); [apply IH | reflexivity].
  - induction s as [|c s IHs]; [apply (IH [])|].
    rewrite (matchHere_star re (map toUpper (c :: s))),
      (matchHere_star re (c :: s)).
    cbn [map]. rewrite isLineTerminator_toUpper, IHs.
    f_equal. apply (IH (c :: s)).
Qed.

Lemma test_toUpper re : forall s, test re (map toUpper s) = test re s.
Proof.
  induction s as [|c s IH]; [reflexivity|].
  cbn [map test]. rewrite <- IH.
  change (toUpper c :: map toUpper s) with (map toUpper (c :: s)).
  now rewrite matchHere_toUpper.
Qed.

Lemma some_ext patterns q q' :
  (forall re, test re q = test re q') -> some patterns q = some patterns q'.
Proof.
  intros H. unfold some. induction patterns as [|re l IH]; [reflexivity|].
  cbn [existsb]. now rewrite H, IH.
Qed.

Lemma detectQuestionType_ext q q' :
  (forall re, test re q = test re q') ->
  detectQuestionType q = detectQuestionType q'.
Proof.
  intros H. unfold detectQuestionType.
  assert (forall l : list (string * list RegExp),
            find (fun entry => some (snd entry) q) l
            = find (fun entry => some (snd entry) q') l) as ->; [|reflexivity].
  induction l as [|e l IH]; [reflexivity|].
  cbn [find]. now rewrite (some_ext _ q q' H), IH.
Qed.

(** *** The table, by index *)

Lemma find_firstIndex {A} (f : A -> bool) (l : list A) :
  find f l = nth_error l (firstIndex f l).
Proof.
  induction l as [|x l IH]; [reflexivity|]. cbn [find firstIndex].
  destruct (f x); [reflexivity | exact IH].
Qed.

Lemma firstIndex_le {A} (f : A -> bool) (l : list A) :
  (firstIndex f l <= List.length l)%nat.
Proof.
  induction l as [|x l IH]; cbn [firstIndex List.length]; [lia|].
  destruct (f x); lia.
Qed.

Lemma firstIndex_mono {A} (f g : A -> bool) (l : list A) :
  (forall x, f x = true -> g x = true) ->
  (firstIndex g l <= firstIndex f l)%nat.
Proof.
  intros H. induction l as [|x l IH]; cbn [firstIndex]; [lia|].
  destruct (f x) eqn:E; [now rewrite (H x E)|]. destruct (g x); lia.
Qed.

Lemma firstIndex_orb {A} (f g : A -> bool) (l : list A) :
  firstIndex (fun x => f x || g x) l
  = Nat.min (firstIndex f l) (firstIndex g l).
Proof.
  induction l as [|x l IH]; cbn [firstIndex]; [reflexivity|].
  destruct (f x), (g x); cbn [orb]; try reflexivity. now rewrite IH.
Qed.

(** The type at a place of the table. *)
Lemma detectQuestionType_at q :
  detectQuestionType q
  = nth (firstIndex (fun entry => some (snd entry) q) QUESTION_PATTERNS)
        (map fst QUESTION_PATTERNS) "General".
Proof.
  unfold detectQuestionType. rewrite find_firstIndex.
  pose proof (firstIndex_le (fun entry => some (snd entry) q)
                QUESTION_PATTERNS) as Hle.
  revert Hle.
  generalize (firstIndex (fun entry => some (snd entry) q) QUESTION_PATTERNS).
  intros n Hn. change (List.length QUESTION_PATTERNS) with 9%nat in Hn.
  do 10 (destruct n as [|n]; [reflexivity|]). lia.
Qed.

Lemma typeRank_detectQuestionType q :
  typeRank (detectQuestionType q)
  = firstIndex (fun entry => some (snd entry) q) QUESTION_PATTERNS.
Proof.
  rewrite detectQuestionType_at.
  pose proof (firstIndex_le (fun entry => some (snd entry) q)
                QUESTION_PATTERNS) as Hle.
  revert Hle.
  generalize (firstIndex (fun entry => some (snd entry) q) QUESTION_PATTERNS).
  intros n Hn. change (List.length QUESTION_PATTERNS) with 9%nat in Hn.
  do 10 (destruct n as [|n]; [reflexivity|]). lia.
Qed.

(** *** Text around a question *)

Lemma stripLiteral_app text : forall s rest after,
  stripLiteral text s = Some rest ->
  stripLiteral text (s ++ after) = Some (rest ++ after).
Proof.
  induction text as [|p text IH]; intros s rest after H.
  - cbn in *. now injection H as ->.
  - destruct s as [|c s]; [discriminate|]. cbn [stripLiteral app] in *.
    destruct (sameLetter p c); [now apply IH | discriminate].
Qed.

Lemma matchHere_app re : forall s after,
  matchHere re s = true -> matchHere re (s ++ after) = true.
Proof.
  induction re as [|[text|] re IH]; intros s after H; [reflexivity| |].
  - rewrite matchHere_lit in *.
    destruct (stripLiteral (units text) s) as [rest|] eqn:E; [|discriminate].
    rewrite (stripLiteral_app _ _ _ after E). now apply IH.
  - induction s as [|c s IHs].
    + rewrite matchHere_star in H. cbn [app].
      rewrite matchHere_star. destruct after as [|a after]; [exact H|].
      apply orb_true_iff. right. exact (IH [] (a :: after) H).
    + rewrite matchHere_star in H. cbn [app].
      rewrite matchHere_star. apply orb_true_iff in H.
      apply orb_true_iff. destruct H as [H|H].
      * left. destruct (isLineTerminator c); [discriminate | now apply IHs].
      * right. exact (IH (c :: s) after H).
Qed.

Lemma test_cons re c s : test re s = true -> test re (c :: s) = true.
Proof. intros H. cbn [test]. rewrite H. apply orb_true_r. Qed.

Lemma test_around re q before after :
  test re q = true -> test re (before ++ q ++ after) = true.
Proof.
  intros H. induction before as [|c before IH].
  - cbn [app]. induction q as [|c q IHq].
    + cbn [test] in H. rewrite orb_false_r in H.
      pose proof (matchHere_app re [] after H) as H'. cbn [app] in *.
      destruct after as [|a after]; cbn [test]; rewrite H'; reflexivity.
    + cbn [test] in H. apply orb_true_iff in H. cbn [app test].
      apply orb_true_iff. destruct H as [H|H].
      * left. now apply (matchHere_app re (c :: q)).
      * right. now apply IHq.
  - cbn [app]. now apply test_cons.
Qed.

Lemma some_around patterns q before after :
  some patterns q = true -> some patterns (before ++ q ++ after) = true.
Proof.
  unfold some. intros H. apply existsb_exists in H.
  destruct H as [re [Hin H]]. apply existsb_exists. exists re.
  split; [exact Hin | now apply test_around].
Qed.

(** *** Literal text *)

Lemma stripLiteral_occurs text : forall s rest,
  stripLiteral text s = Some rest ->
  exists there, s = there ++ rest /\ map toUpper there = map toUpper text.
Proof.
  induction text as [|p text IH]; intros s rest H.
  - cbn in H. injection H as ->. now exists [].
  - destruct s as [|c s]; [discriminate|]. cbn [stripLiteral] in H.
    destruct (sameLetter p c) eqn:E; [|discriminate].
    destruct (IH s rest H) as [there [-> Ht]].
    exists (c :: there). split; [reflexivity|]. cbn [map].
    unfold sameLetter in E. apply N.eqb_eq in E. now rewrite Ht, E.
Qed.

Lemma occursIn_cons text c s : occursIn text s -> occursIn text (c :: s).
Proof.
  intros [b [t [a [-> H]]]]. exists (c :: b), t, a. now split.
Qed.

Lemma occursIn_app text there s :
  occursIn text s -> occursIn text (there ++ s).
Proof.
  intros H. induction there as [|c there IH]; [exact H|].
  cbn [app]. now apply occursIn_cons.
Qed.

Lemma matchHere_occurs text re : forall s,
  In (Lit text) re -> matchHere re s = true -> occursIn text s.
Proof.
  induction re as [|[text'|] re IH]; intros s Hin H; [contradiction| |].
  - rewrite matchHere_lit in H.
    destruct (stripLiteral (units text') s) as [rest|] eqn:E; [|discriminate].
    destruct (stripLiteral_occurs _ _ _ E) as [there [-> Ht]].
    destruct Hin as [[= ->]|Hin].
    + exists [], there, rest. now split.
    + apply occursIn_app. now apply IH.
  - destruct Hin as [Hin|Hin]; [discriminate|].
    induction s as [|c s IHs]; rewrite matchHere_star in H.
    + now apply IH.
    + apply orb_true_iff in H. destruct H as [H|H].
      * destruct (isLineTerminator c); [discriminate|].
        apply occursIn_cons. now apply IHs.
      * now apply IH.
Qed.

Lemma test_occurs text re s :
  In (Lit text) re -> test re s = true -> occursIn text s.
Proof.
  intros Hin. induction s as [|c s IH]; cbn [test]; intros H.
  - rewrite orb_false_r in H. now apply (matchHere_occurs text re).
  - apply orb_true_iff in H. destruct H as [H|H].
    + now apply (matchHere_occurs text re).
    + apply occursIn_cons. now apply IH.
Qed.

(** *** Line breaks *)

Lemma sameLetter_terminator p c :
  isLineTerminator p = false -> isLineTerminator c = true ->
  sameLetter p c = false.
Proof.
  intros Hp Hc. unfold sameLetter. apply N.eqb_neq. intros E.
  rewrite <- isLineTerminator_toUpper, E, isLineTerminator_toUpper in Hp.
  congruence.
Qed.

Lemma stripLiteral_line text nl : forall s after rest,
  forallb (fun p => negb (isLineTerminator p)) text = true ->
  isLineTerminator nl = true ->
  stripLiteral text (s ++ nl :: after) = Some rest ->
  exists rest', stripLiteral text s = Some rest' /\
                rest = rest' ++ nl :: after.
Proof.
  induction text as [|p text IH]; intros s after rest Hp Hnl H.
  - cbn in H. injection H as <-. now exists s.
  - cbn [forallb] in Hp. apply andb_true_iff in Hp. destruct Hp as [Hp Ht].
    apply negb_true_iff in Hp.
    destruct s as [|c s]; cbn [app stripLiteral] in *.
    + now rewrite (sameLetter_terminator p nl Hp Hnl) in H.
    + destruct (sameLetter p c); [now apply IH | discriminate].
Qed.

Lemma matchHere_line re nl : forall s after,
  plain re = true -> isLineTerminator nl = true ->
  matchHere re (s ++ nl :: after) = true -> matchHere re s = true.
Proof.
  induction re as [|[text|] re IH]; intros s after Hre Hnl H;
    [reflexivity| |]; unfold plain in Hre; cbn [forallb] in Hre;
    apply andb_true_iff in Hre; destruct Hre as [Ht Hre].
  - rewrite matchHere_lit in *.
    destruct (stripLiteral (units text) (s ++ nl :: after)) as [rest|] eqn:E;
      [|discriminate].
    destruct (stripLiteral_line _ _ _ _ _ Ht Hnl E) as [rest' [-> ->]].
    now apply (IH rest' after).
  - induction s as [|c s IHs].
    + cbn [app] in H. rewrite matchHere_star in H. rewrite Hnl in H.
      cbn [orb] in H. rewrite matchHere_star.
      now apply (IH [] after).
    + cbn [app] in H. rewrite matchHere_star in H.
      rewrite matchHere_star. apply orb_true_iff in H.
      apply orb_true_iff. destruct H as [H|H].
      * left. destruct (isLineTerminator c); [discriminate | now apply IHs].
      * right. now apply (IH (c :: s) after).
Qed.

Lemma test_line re nl before after :
  plain re = true -> isLineTerminator nl = true ->
  test re (before ++ nl :: after) = test re before || test re after.
Proof.
  intros Hre Hnl.
  destruct (test re (before ++ nl :: after)) eqn:E.
  - symmetry. apply orb_true_iff.
    induction before as [|c before IH].
    + cbn [app test] in E. apply orb_true_iff in E.
      destruct E as [E|E]; [|now right].
      left. cbn [test]. rewrite orb_false_r.
      now apply (matchHere_line re nl [] after).
    + cbn [app test] in E. apply orb_true_iff in E. destruct E as [E|E].
      * left. cbn [test]. apply orb_true_iff. left.
        now apply (matchHere_line re nl (c :: before) after).
      * destruct (IH E) as [H|H]; [left; now apply test_cons | now right].
  - symmetry. apply orb_false_iff. split.
    + destruct (test re before) eqn:H; [|reflexivity].
      apply (test_around re before [] (nl :: after)) in H.
      cbn [app] in H. congruence.
    + destruct (test re after) eqn:H; [|reflexivity].
      apply (test_around re after (before ++ [nl]) []) in H.
      rewrite app_nil_r, <- app_assoc in H. cbn [app] in H. congruence.
Qed.

Lemma table_plain :
  forallb (fun entry => forallb plain (snd entry)) QUESTION_PATTERNS = true.
Proof. vm_compute. reflexivity. Qed.

Lemma some_line patterns nl before after :
  forallb plain patterns = true -> isLineTerminator nl = true ->
  some patterns (before ++ nl :: after)
  = some patterns before || some patterns after.
Proof.
  intros Hp Hnl. unfold some.
  induction patterns as [|re l IH]; [reflexivity|].
  cbn [forallb] in Hp. apply andb_true_iff in Hp. destruct Hp as [Hre Hl].
  cbn [existsb]. rewrite (test_line re nl before after Hre Hnl), (IH Hl).
  destruct (test re before), (test re after), (existsb _ l), (existsb _ l);
    reflexivity.
Qed.

Lemma firstIndex_ext_in {A} (f g : A -> bool) (l : list A) :
  (forall x, In x l -> f x = g x) -> firstIndex f l = firstIndex g l.
Proof.
  intros H. induction l as [|x l IH]; [reflexivity|]. cbn [firstIndex].
  rewrite (H x (or_introl eq_refl)), IH; [reflexivity|].
  intros y Hy. apply H. now right.
Qed.

(** X17: the type of a question does not depend on the case of its letters:
    two questions that are equal once their ASCII letters are put in upper
    case get the same type. *)
Theorem detectQuestionType_ignores_case (q q' : JsString) :
  map toUpper q = map toUpper q' ->
  detectQuestionType q = detectQuestionType q'.
Proof.
  intros H.
  rewrite <- (detectQuestionType_ext (map toUpper q) q)
    by (intros re; apply test_toUpper).
  rewrite <- (detectQuestionType_ext (map toUpper q') q')
    by (intros re; apply test_toUpper).
  now rewrite H.
Qed.

Lemma detectQuestionType_ignores_case_witness :
  map toUpper shoutedQuestion = map toUpper quietQuestion /\
  detectQuestionType shoutedQuestion = detectQuestionType quietQuestion /\
  detectQuestionType quietQuestion = "Why this role?".
Proof.
  split; [vm_compute; reflexivity|]. split.
  - apply detectQuestionType_ignores_case. vm_compute. reflexivity.
  - vm_compute. reflexivity.
Defined.

(** X18: text around a question never hides it.  With any text before and
    after it, a question gets its own type or one the table lists earlier;
    in particular a question that is not ['General'] does not become
    ['General']. *)
Theorem detectQuestionType_keeps_a_match (before q after : JsString) :
  (typeRank (detectQuestionType (before ++ q ++ after))
   <= typeRank (detectQuestionType q))%nat /\
  (detectQuestionType q <> "General" ->
   detectQuestionType (before ++ q ++ after) <> "General").
Proof.
  assert (typeRank (detectQuestionType (before ++ q ++ after))
          <= typeRank (detectQuestionType q))%nat as Hle.
  { rewrite !typeRank_detectQuestionType. apply firstIndex_mono.
    intros entry. apply some_around. }
  split; [exact Hle|]. intros Hq Hg. apply Hq.
  rewrite Hg in Hle. change (typeRank "General") with 9%nat in Hle.
  rewrite typeRank_detectQuestionType in Hle.
  rewrite detectQuestionType_at.
  pose proof (firstIndex_le (fun entry => some (snd entry) q)
                QUESTION_PATTERNS) as Hn.
  change (List.length QUESTION_PATTERNS) with 9%nat in Hn.
  replace (firstIndex (fun entry => some (snd entry) q) QUESTION_PATTERNS)
    with 9%nat by lia.
  reflexivity.
Qed.

(** X19: the placeholders of the table are matched as they are written.  A
    question gets the type ['Technical experience'] only if it contains the
    text [[technology]], brackets included, in whatever letter case. *)
Theorem technical_experience_needs_the_placeholder (q : JsString) :
  detectQuestionType q = "Technical experience" ->
  occursIn "[technology]" q.
Proof.
  unfold detectQuestionType, QUESTION_PATTERNS. cbn [find snd].
  repeat match goal with
         | |- context [some ?ps q] =>
             destruct (some ps q) eqn:?; [try discriminate | ]
         end; [|discriminate].
  intros _.
  match goal with H : some _ q = true |- _ => rename H into Hsome end.
  unfold some in Hsome. apply existsb_exists in Hsome.
  destruct Hsome as [re [Hin Ht]].
  apply (test_occurs "[technology]" re q); [|exact Ht].
  cbn [In] in Hin.
  destruct Hin as [<-|[<-|[<-|[]]]]; simpl; auto 10.
Qed.

Lemma technical_experience_needs_the_placeholder_witness :
  detectQuestionType templateQuestion = "Technical experience" /\
  occursIn "[technology]" templateQuestion.
Proof.
  split; [vm_compute; reflexivity|].
  apply technical_experience_needs_the_placeholder. vm_compute. reflexivity.
Defined.

(** X20: no pattern matches across a line break.  Of a text in two parts
    separated by a line terminator, the type is the type of one of the
    parts: the one the table lists first. *)
Theorem detectQuestionType_by_line (before after : JsString) (nl : N) :
  isLineTerminator nl = true ->
  detectQuestionType (before ++ nl :: after)
  = earlier (detectQuestionType before) (detectQuestionType after).
Proof.
  intros Hnl. unfold earlier. rewrite !typeRank_detectQuestionType.
  rewrite !detectQuestionType_at.
  rewrite (firstIndex_ext_in
             (fun entry => some (snd entry) (before ++ nl :: after))
             (fun entry => some (snd entry) before || some (snd entry) after)).
  - rewrite firstIndex_orb.
    destruct (Nat.leb_spec
                (firstIndex (fun entry => some (snd entry) before)
                   QUESTION_PATTERNS)
                (firstIndex (fun entry => some (snd entry) after)
                   QUESTION_PATTERNS)) as [H|H].
    + now rewrite Nat.min_l.
    + now rewrite Nat.min_r by lia.
  - intros entry Hin. apply some_line; [|exact Hnl].
    pose proof table_plain as Hp. rewrite forallb_forall in Hp.
    now apply Hp.
Qed.

Lemma detectQuestionType_by_line_witness :
  isLineTerminator 10 = true /\
  detectQuestionType (units "What are your key strengths?" ++ 10%N
                        :: quietQuestion)
  = earlier "Strengths" "Why this role?".
Proof.
  split; [reflexivity|].
  apply (detectQuestionType_by_line (units "What are your key strengths?")
           quietQuestion 10%N).
  reflexivity.
Defined.

(** *** The table on concrete questions *)

(** A question about a technology gets no type without the placeholder;
    the two ['Why ...'] types overlap and the first one wins. *)
Example questions_and_their_types :
  detectQuestionType (units "What is your experience with Python?")
  = "General" /\
  detectQuestionType
    (units "Why do you want this job and why do you want to work at our company?")
  = "Why this role?" /\
  detectQuestionType (units "Describe a project you are proud of")
  = "Describe a project" /\
  detectQuestionType (units "What is your greatest strength?")
  = "Strengths".
Proof. vm_compute. repeat split. Qed.

End PromptFacts.

(** * Properties of the command *)


Section CliFacts.
Import Cli.

Lemma run_returns env context w :
  hasApplication (applicationId context) (db w) = true ->
  exists r w', runApplicationWorkflow env context w = (Returned r, w').
Proof.
  intros H. destruct (run_cases env context w) as [o [w' [E [_ Hcases]]]].
  rewrite hasApp_db, H in Hcases.
  destruct Hcases as [(F & _) | [(_ & m & _ & -> & _)
                     | [(_ & _ & m & _ & -> & _)
                     | [(_ & _ & _ & hs & -> & _) | (_ & _ & _ & -> & _)]]]];
    [discriminate| | | |]; eauto.
Qed.

Lemma getApplicationByJobId_has jobId d a :
  Client.getApplicationByJobId jobId d = Some a ->
  hasApplication (app_id a) d = true.
Proof.
  unfold Client.getApplicationByJobId. intros H.
  pose proof (fold_later_spec
                (filter (fun a => (job_id a =? jobId)%Z) (applications d))
                None) as Hs.
  rewrite H in Hs. destruct Hs as [[Hb|Hb] _]; [discriminate|].
  apply filter_In in Hb. destruct Hb as [Hin _].
  unfold hasApplication. apply existsb_exists. exists a.
  split; [exact Hin | apply Z.eqb_refl].
Qed.

(** What [createApplication] gives for a job there is. *)
Lemma createApplication_found js jobId job note d :
  Client.getJobById jobId js = Some job ->
  let row := mkApplication (nextId (map app_id (applications d))) jobId
               queued None None (Client.orNull note) in
  let d' := mkDatabase (applications d ++ [row]) (application_steps d)
              (audit_log d) in
  Client.createApplication js jobId note d = (Ok (Some row), d') /\
  hasApplication (app_id row) d' = true.
Proof.
  intros Hj. cbv zeta. unfold Client.createApplication, Client.getJobById in *.
  rewrite find_existsb, Hj.
  set (newId := nextId (map app_id (applications d))).
  set (row := mkApplication newId jobId queued None None (Client.orNull note)).
  assert (getApplicationById newId
            (mkDatabase (applications d ++ [row]) (application_steps d)
               (audit_log d)) = Some row) as Hget.
  { unfold getApplicationById. cbn [applications].
    rewrite find_app_none; [cbn; now rewrite Z.eqb_refl|].
    destruct (find _ (applications d)) as [a|] eqn:E; [|reflexivity].
    apply find_some in E. destruct E as [Hin He]. apply Z.eqb_eq in He.
    assert (app_id a < newId)%Z
      by (apply nextId_above; now apply in_map).
    lia. }
  cbv zeta. fold newId. fold row. rewrite Hget. split; [reflexivity|].
  unfold hasApplication. cbn [applications]. rewrite existsb_app.
  cbn [existsb app_id row]. rewrite Z.eqb_refl. apply orb_true_iff. right.
  reflexivity.
Qed.

(** What [launchAndRun] does for an application there is. *)
Lemma launchAndRun_facts env s jobId job a st :
  hasApplication (app_id a) (db (world st)) = true ->
  exists o st',
    launchAndRun env s jobId job (Some a) st = (o, st') /\
    exitCode st' = exitCode st /\
    (if ready s then
       match createPageError s with
       | Some e => o = Threw e /\ jobs st' = jobs st /\ page st' = page st /\
                   db (world st') = db (world st)
       | None =>
           jobs st' = Client.updateJobStatus jobId Job.applied (jobs st) /\
           o = (if closeBrowserNow s
                then match closeError s with
                     | Some e => Threw e
                     | None => Returned tt
                     end
                else Returned tt) /\
           page st' = (if closeBrowserNow s && negb (isSome (closeError s))
                       then PageClosed else PageOpen)
       end
     else o = Returned tt /\ jobs st' = jobs st /\ page st' = page st /\
          db (world st') = db (world st)).
Proof.
  intros H. unfold launchAndRun.
  destruct (ready s); [|eexists _, _; repeat split].
  destruct (createPageError s) as [e|]; [eexists _, _; repeat split|].
  match goal with
  | |- context [runApplicationWorkflow env ?c ?w0] =>
      destruct (run_returns env c w0) as [r [w' E]]; [exact H|]; rewrite E
  end.
  destruct (success r), (closeBrowserNow s);
    try destruct (closeError s) as [e|]; eexists _, _; repeat split.
Qed.

Lemma catchBlock_facts s e st :
  exitCode (catchBlock s e st) = Some 1%Z /\
  jobs (catchBlock s e st) = jobs st /\
  world (catchBlock s e st) = world st.
Proof.
  unfold catchBlock. cbn [page say].
  destruct (page st); [|destruct (closeError s)..]; repeat split.
Qed.

(** X21: when the command exits with an error.  [startApplication] calls
    [process.exit(1)] in three cases only: the schema cannot be loaded; the
    browser is to be launched and [createPage] fails; or the user asks to
    close the tab and [page.close] fails.  In particular the workflow never
    throws through the command, which always hands it an application that
    exists. *)
Theorem startApplication_exit_code (env : Env) (s : Session)
    (js : list Job.t) (w : World) :
  exitCode (startApplication env s js w)
  = if isSome (schemaError s) then Some 1%Z
    else match launches s js w with
         | Some _ =>
             if isSome (createPageError s)
                || (closeBrowserNow s && isSome (closeError s))
             then Some 1%Z else None
         | None => None
         end.
Proof.
  unfold startApplication, tryBlock, launches.
  destruct (schemaError s) as [e|]; [apply catchBlock_facts|]. cbn [isSome].
  destruct (parsedJob s) as [jobId|]; [|reflexivity].
  cbn [jobs world say].
  destruct (Client.getJobById jobId js) as [job|] eqn:Hjob; [|reflexivity].
  destruct (Client.getApplicationByJobId jobId (db w)) as [a|] eqn:Happ.
  - destruct (continueAnyway s); [|now rewrite andb_false_r].
    rewrite andb_true_r.
    match goal with
    | |- context [launchAndRun env s jobId job (Some a) ?st0] =>
        destruct (launchAndRun_facts env s jobId job a st0)
          as [o [st' [E [Hx Hr]]]];
          [now apply (getApplicationByJobId_has jobId)|]; rewrite E
    end.
    destruct (ready s).
    + destruct (createPageError s) as [e|].
      * destruct Hr as [-> _]. apply catchBlock_facts.
      * destruct Hr as [_ [-> _]]. cbn [isSome orb].
        destruct (closeBrowserNow s); [destruct (closeError s) as [e|]|];
          cbn [isSome andb]; try apply catchBlock_facts; exact Hx.
    + destruct Hr as [-> _]. exact Hx.
  - destruct (createApplication_found js jobId job None (db w) Hjob)
      as [Ec Hhas]. rewrite Ec. rewrite andb_true_r.
    match goal with
    | |- context [launchAndRun env s jobId job (Some ?a) ?st0] =>
        destruct (launchAndRun_facts env s jobId job a st0)
          as [o [st' [E [Hx Hr]]]]; [exact Hhas|]; rewrite E
    end.
    destruct (ready s).
    + destruct (createPageError s) as [e|].
      * destruct Hr as [-> _]. apply catchBlock_facts.
      * destruct Hr as [_ [-> _]]. cbn [isSome orb].
        destruct (closeBrowserNow s); [destruct (closeError s) as [e|]|];
          cbn [isSome andb]; try apply catchBlock_facts; exact Hx.
    + destruct Hr as [-> _]. exact Hx.
Qed.

(** The table [jobs] at the end of the command. *)
Lemma startApplication_jobs (env : Env) (s : Session)
    (js : list Job.t) (w : World) :
  jobs (startApplication env s js w)
  = match launches s js w with
    | Some (jobId, _) =>
        if isSome (createPageError s) then js
        else Client.updateJobStatus jobId Job.applied js
    | None => js
    end.
Proof.
  unfold startApplication, tryBlock, launches.
  destruct (schemaError s) as [e|]; [apply catchBlock_facts|].
  destruct (parsedJob s) as [jobId|]; [|reflexivity].
  cbn [jobs world say].
  destruct (Client.getJobById jobId js) as [job|] eqn:Hjob; [|reflexivity].
  assert (forall a st0,
            hasApplication (app_id a) (db (world st0)) = true ->
            jobs st0 = js ->
            jobs (let (o, st) := launchAndRun env s jobId job (Some a) st0 in
                  match o with Threw e => catchBlock s e st | _ => st end)
            = if ready s
              then if isSome (createPageError s) then js
                   else Client.updateJobStatus jobId Job.applied js
              else js) as Hrun.
  { intros a st0 Hhas Hjs.
    destruct (launchAndRun_facts env s jobId job a st0 Hhas)
      as [o [st' [E [Hx Hr]]]]. rewrite E.
    assert (jobs match o with Threw e => catchBlock s e st' | _ => st' end
            = jobs st') as ->
      by (destruct o; [reflexivity | apply catchBlock_facts | reflexivity]).
    destruct (ready s); [destruct (createPageError s) as [e|]|].
    - destruct Hr as (_ & -> & _). exact Hjs.
    - destruct Hr as (-> & _). now rewrite Hjs.
    - destruct Hr as (_ & -> & _). exact Hjs. }
  destruct (Client.getApplicationByJobId jobId (db w)) as [a|] eqn:Happ.
  - destruct (continueAnyway s); [|now rewrite andb_false_r].
    rewrite andb_true_r.
    match goal with
    | |- context [launchAndRun env s jobId job (Some a) ?st0] =>
        pose proof (Hrun a st0 (getApplicationByJobId_has jobId _ _ Happ)
                      eq_refl) as Hr
    end.
    cbv zeta in Hr.
    match goal with
    | |- context [launchAndRun env s jobId job (Some a) ?st0] =>
        destruct (launchAndRun env s jobId job (Some a) st0) as [o st']
    end.
    transitivity (if ready s
                  then if isSome (createPageError s) then js
                       else Client.updateJobStatus jobId Job.applied js
                  else js);
      [rewrite <- Hr; destruct o; reflexivity
      |destruct (ready s); reflexivity].
  - destruct (createApplication_found js jobId job None (db w) Hjob)
      as [Ec Hhas]. rewrite Ec. rewrite andb_true_r.
    match goal with
    | |- context [launchAndRun env s jobId job (Some ?a) ?st0] =>
        pose proof (Hrun a st0 Hhas eq_refl) as Hr
    end.
    cbv zeta in Hr.
    match goal with
    | |- context [launchAndRun env s jobId job (Some ?a) ?st0] =>
        destruct (launchAndRun env s jobId job (Some a) st0) as [o st']
    end.
    transitivity (if ready s
                  then if isSome (createPageError s) then js
                       else Client.updateJobStatus jobId Job.applied js
                  else js);
      [rewrite <- Hr; destruct o; reflexivity
      |destruct (ready s); reflexivity].
Qed.

Lemma updateJobStatus_marks jobId js :
  marksApplied jobId js (Client.updateJobStatus jobId Job.applied js).
Proof.
  unfold marksApplied, Client.updateJobStatus.
  induction js as [|j js IH]; cbn [map]; constructor; [|exact IH].
  destruct (Z.eqb_spec (Job.id j) jobId) as [He|Hne].
  - split; [|contradiction]. intros _. repeat split.
  - split; [contradiction | reflexivity].
Qed.

Lemma getJobById_updateJobStatus jobId js job :
  Client.getJobById jobId js = Some job ->
  exists job',
    Client.getJobById jobId (Client.updateJobStatus jobId Job.applied js)
    = Some job' /\
    Job.status job' = Job.applied /\ sameButStatus job job'.
Proof.
  unfold Client.getJobById, Client.updateJobStatus.
  induction js as [|j js IH]; [discriminate|]. cbn [map find].
  destruct (Z.eqb_spec (Job.id j) jobId) as [He|Hne].
  - intros [= <-]. cbn [Job.id]. rewrite He, Z.eqb_refl.
    eexists. split; [reflexivity|]. repeat split. now cbn.
  - apply Z.eqb_neq in Hne. rewrite Hne. exact IH.
Qed.

Lemma launches_job s js w jobId job :
  launches s js w = Some (jobId, job) ->
  Client.getJobById jobId js = Some job.
Proof.
  unfold launches.
  destruct (schemaError s); [discriminate|].
  destruct (parsedJob s) as [i|]; [|discriminate].
  destruct (Client.getJobById i js) as [j|] eqn:E; [|discriminate].
  destruct (ready s && _); [|discriminate].
  now intros [= <- <-].
Qed.

(** X22: the job is marked [applied] as soon as the browser is there.  When
    the command gets to launch the browser and [createPage] succeeds, then
    at the end, whatever the workflow returns (completed, timed out or
    failed), the job is found in the table [jobs] with the status [applied]
    and otherwise as it was, and every other job of the table is as it was;
    in every other case, the table [jobs] is as before. *)
Theorem startApplication_marks_the_job (env : Env) (s : Session)
    (js : list Job.t) (w : World) :
  let js' := jobs (startApplication env s js w) in
  match launches s js w with
  | Some (jobId, job) =>
      if isSome (createPageError s) then js' = js
      else
        marksApplied jobId js js' /\
        exists job',
          Client.getJobById jobId js' = Some job' /\
          Job.status job' = Job.applied /\ sameButStatus job job'
  | None => js' = js
  end.
Proof.
  cbv zeta. rewrite startApplication_jobs.
  destruct (launches s js w) as [[jobId job]|] eqn:E; [|reflexivity].
  destruct (isSome (createPageError s)); [reflexivity|].
  split; [apply updateJobStatus_marks|].
  apply getJobById_updateJobStatus. exact (launches_job _ _ _ _ _ E).
Qed.

(** Job 7 on a site that cannot be reached: the workflow fails, and the job
    is [applied] all the same. *)
Lemma startApplication_marks_the_job_witness :
  let st := startApplication
              (mkEnv (fun _ => blankPage) 0 0
                 (fun _ => Some "net::ERR_NAME_NOT_RESOLVED")
                 (fun _ => None) true false)
              eager [acmeJob] (startWorld emptyDb) in
  marksApplied 7 [acmeJob] (jobs st) /\
  exists job',
    Client.getJobById 7 (jobs st) = Some job' /\
    Job.status job' = Job.applied /\ sameButStatus acmeJob job'.
Proof.
  cbv zeta.
  pose proof (startApplication_marks_the_job
                (mkEnv (fun _ => blankPage) 0 0
                   (fun _ => Some "net::ERR_NAME_NOT_RESOLVED")
                   (fun _ => None) true false)
                eager [acmeJob] (startWorld emptyDb)) as T.
  cbv zeta in T.
  change (launches eager [acmeJob] (startWorld emptyDb))
    with (Some (7%Z, acmeJob)) in T.
  change (isSome (createPageError eager)) with false in T.
  exact T.
Defined.

(** X23: what a run of the command that launches nothing leaves behind.
    When the job id is invalid or unknown or the user declines, no page is
    opened, nothing is sent to the page, notified or printed by the
    controller, and the store is as before, but for one thing: when the job
    had no application, a [queued] one has been created before the user was
    asked, and stays. *)
Theorem startApplication_declined (env : Env) (s : Session)
    (js : list Job.t) (w : World) :
  schemaError s = None -> launches s js w = None ->
  let st := startApplication env s js w in
  page st = NoPage /\
  delivered (world st) = delivered w /\
  console (world st) = console w /\
  queries (world st) = queries w /\
  db (world st)
  = match parsedJob s with
    | Some jobId =>
        match Client.getJobById jobId js,
              Client.getApplicationByJobId jobId (db w) with
        | Some _, None =>
            mkDatabase
              (applications (db w)
               ++ [mkApplication (nextId (map app_id (applications (db w))))
                     jobId queued None None None])
              (application_steps (db w)) (audit_log (db w))
        | _, _ => db w
        end
    | None => db w
    end.
Proof.
  intros Hs. unfold startApplication, tryBlock, launches. rewrite Hs.
  destruct (parsedJob s) as [jobId|]; [|intros _; repeat split].
  cbn [jobs world say].
  destruct (Client.getJobById jobId js) as [job|] eqn:Hjob;
    [|intros _; repeat split].
  destruct (Client.getApplicationByJobId jobId (db w)) as [a|] eqn:Happ.
  - destruct (continueAnyway s).
    + rewrite andb_true_r. unfold launchAndRun.
      destruct (ready s); [discriminate|]. intros _. repeat split.
    + intros _. repeat split.
  - destruct (createApplication_found js jobId job None (db w) Hjob)
      as [Ec _]. rewrite Ec. rewrite andb_true_r. unfold launchAndRun.
    destruct (ready s); [discriminate|]. intros _. repeat split.
Qed.

Lemma startApplication_declined_witness :
  let st := startApplication (steadyEnv blankPage 0) notReady [acmeJob]
              (startWorld emptyDb) in
  page st = NoPage /\
  applications (db (world st)) = [mkApplication 1 7 queued None None None].
Proof.
  destruct (startApplication_declined (steadyEnv blankPage 0) notReady
              [acmeJob] (startWorld emptyDb) eq_refl eq_refl)
    as (Hp & _ & _ & _ & Hd).
  cbv zeta. split; [exact Hp|]. rewrite Hd. reflexivity.
Defined.

(** *** The command on concrete inputs *)

(** The site cannot be reached: the workflow fails, the command reports it
    and ends without an error of its own; the job is [applied] all the
    same, its new application [failed], and the audit log has the start of
    the application. *)
Example unreachable_site_still_marks_the_job :
  let st := startApplication
              (mkEnv (fun _ => blankPage) 0 0
                 (fun _ => Some "net::ERR_NAME_NOT_RESOLVED")
                 (fun _ => None) true false)
              eager [acmeJob] (startWorld emptyDb) in
  exitCode st = None /\
  map Job.status (jobs st) = [Job.applied] /\
  map status (applications (db (world st))) = [failed] /\
  map actionType (audit_log (db (world st))) = [application_start] /\
  terminal st
  = [LineHeader "Engineer" "Acme" "https://jobs.example.com/apply/7";
     LineLaunching; LineGuide; LineFailed "net::ERR_NAME_NOT_RESOLVED";
     LineBrowserLeftOpen] /\
  page st = PageOpen.
Proof. vm_compute. repeat split. Qed.

(** An application exists and the user goes on: no second application is
    created, the existing one is run again. *)
Example existing_application_is_run_again :
  let st := startApplication (steadyEnv blankPage 0) eager [acmeJob]
              (startWorld queuedDb) in
  exitCode st = None /\
  map (fun a => (app_id a, status a)) (applications (db (world st)))
  = [(1%Z, completed)] /\
  terminal st
  = [LineHeader "Engineer" "Acme" "https://jobs.example.com/apply/7";
     LineAlreadyExists queued; LineLaunching; LineGuide; LineCompleted 1;
     LineBrowserLeftOpen].
Proof. vm_compute. repeat split. Qed.

End CliFacts.

(** * Properties of the browser launcher *)

Section LauncherFacts.
Import Launcher.

Lemma called_record f e st :
  called f (record e st) = called f st + (if f e then 1 else 0).
Proof.
  unfold called, record. cbn [events]. rewrite filter_app, length_app.
  cbn [filter]. destruct (f e); reflexivity.
Qed.

(** A call of [launchBrowser] that finds one of the two variables empty,
    with a profile path configured, launches. *)
Lemma launchBrowser_launches pw st :
  chromeProfilePath pw <> EmptyString ->
  browser st = None \/ context st = None ->
  called isLaunch (snd (launchBrowser pw st)) = S (called isLaunch st) /\
  called isNewPage (snd (launchBrowser pw st)) = called isNewPage st /\
  match fst (launchBrowser pw st) with
  | inr (b, c) =>
      b = browserOf pw c /\ browser (snd (launchBrowser pw st)) = b /\
      context (snd (launchBrowser pw st)) = Some c
  | inl _ =>
      browser (snd (launchBrowser pw st)) = browser st /\
      context (snd (launchBrowser pw st)) = context st
  end.
Proof.
  intros Hp Hnone. unfold launchBrowser.
  assert (match browser st, context st with
          | Some b, Some c => (inr (Some b, c), st)
          | _, _ =>
              match chromeProfilePath pw with
              | EmptyString =>
                  (inl (JsError profilePathNotSet),
                   st)
              | String a0 p0 =>
                  match launchPersistentContext pw (String a0 p0)
                          (called isLaunch st) with
                  | inl e => (inl e, record (Launch (String a0 p0)) st)
                  | inr c0 =>
                      (inr (browserOf pw c0, c0),
                       mkState (browserOf pw c0) (Some c0)
                         (events (record (Launch (String a0 p0)) st)))
                  end
              end
          end
          = match chromeProfilePath pw with
            | EmptyString =>
                (inl (JsError profilePathNotSet),
                 st)
            | String a0 p0 =>
                match launchPersistentContext pw (String a0 p0)
                        (called isLaunch st) with
                | inl e => (inl e, record (Launch (String a0 p0)) st)
                | inr c0 =>
                    (inr (browserOf pw c0, c0),
                     mkState (browserOf pw c0) (Some c0)
                       (events (record (Launch (String a0 p0)) st)))
                end
            end) as ->.
  { destruct Hnone as [-> | ->]; [reflexivity|].
    destruct (browser st); reflexivity. }
  destruct (chromeProfilePath pw) as [|a p]; [contradiction|].
  destruct (launchPersistentContext pw (String a p) (called isLaunch st))
    as [e|c0]; cbn [fst snd browser context].
  - rewrite !called_record. cbn [isLaunch isNewPage]. repeat split; lia.
  - unfold called. cbn [events record]. rewrite !filter_app, !length_app.
    cbn. repeat split; lia.
Qed.

(** X24: when the launcher reuses its context.  After a call of
    [launchBrowser] that returned, the next call returns the same browser
    and context without launching anything if the call gave a browser; if
    [context.browser()] gave none, the next call asks Playwright for a new
    context. *)
Theorem launchBrowser_reuse (pw : Playwright) (st st1 : State)
    (b : option Browser) (c : BrowserContext) :
  launchBrowser pw st = (inr (b, c), st1) ->
  browser st1 = b /\ context st1 = Some c /\
  match b with
  | Some _ => launchBrowser pw st1 = (inr (b, c), st1)
  | None =>
      called isLaunch (snd (launchBrowser pw st1))
      = S (called isLaunch st1)
  end.
Proof.
  intros E.
  assert (browser st1 = b /\ context st1 = Some c /\
          (b = None -> chromeProfilePath pw <> EmptyString)) as (Hb & Hc & Hp).
  { unfold launchBrowser in E.
    destruct (browser st) as [b0|] eqn:Eb, (context st) as [c0|] eqn:Ec;
      try (injection E as <- <- <-; repeat split; auto; discriminate);
      (destruct (chromeProfilePath pw) as [|a p]; [discriminate|];
       destruct (launchPersistentContext pw _ _) as [e|c1];
       [discriminate|]; injection E as <- <- <-;
       repeat split; discriminate). }
  split; [exact Hb|]. split; [exact Hc|].
  destruct b as [b0|].
  - unfold launchBrowser. now rewrite Hb, Hc.
  - apply launchBrowser_launches; [now apply Hp | now left].
Qed.

Lemma launchBrowser_reuse_witness :
  launchBrowser persistentOnly notLaunched
  = (inr (None, 0), mkState None (Some 0) [Launch "/home/me/chrome"]) /\
  called isLaunch
    (snd (launchBrowser persistentOnly
            (mkState None (Some 0) [Launch "/home/me/chrome"]))) = 2.
Proof.
  split; [reflexivity|].
  exact (proj2 (proj2 (launchBrowser_reuse persistentOnly notLaunched
                         (mkState None (Some 0) [Launch "/home/me/chrome"])
                         None 0 eq_refl))).
Defined.

(** X25: closing, then launching again.  With a browser and a context at
    hand: if the context cannot be closed, [closeBrowser] stops there,
    closes no browser and keeps both variables, so that the next
    [launchBrowser] returns the context that could not be closed; if it can,
    the context is forgotten and the next [launchBrowser] asks for a new
    one. *)
Theorem closeBrowser_then_launchBrowser (pw : Playwright) (st : State)
    (b : Browser) (c : BrowserContext) :
  browser st = Some b -> context st = Some c ->
  chromeProfilePath pw <> EmptyString ->
  let st' := closeBrowser pw st in
  match contextClose pw c with
  | Some _ =>
      browser st' = Some b /\ context st' = Some c /\
      events st' = events st ++ [CloseContext c] /\
      launchBrowser pw st' = (inr (Some b, c), st')
  | None =>
      context st' = None /\
      called isLaunch (snd (launchBrowser pw st'))
      = S (called isLaunch st)
  end.
Proof.
  intros Hb Hc Hp. cbv zeta. unfold closeBrowser. rewrite Hc.
  destruct (contextClose pw c) as [e|].
  - unfold record. cbn [browser context events].
    repeat split; auto.
    unfold launchBrowser. cbn [browser context]. now rewrite Hb, Hc.
  - cbn [browser record]. rewrite Hb.
    destruct (browserClose pw b) as [e|]; cbn [context record];
      (split; [reflexivity|]);
      match goal with
      | |- called isLaunch (snd (launchBrowser pw ?s)) = _ =>
          destruct (launchBrowser_launches pw s Hp (or_intror eq_refl))
            as [-> _]
      end; unfold called; cbn [events record];
      rewrite !filter_app, !length_app; cbn; lia.
Qed.

Lemma closeBrowser_then_launchBrowser_witness :
  let st := mkState (Some 5) (Some 0) [Launch "/home/me/chrome"] in
  let st' := closeBrowser stuckContexts st in
  events st' = [Launch "/home/me/chrome"; CloseContext 0] /\
  launchBrowser stuckContexts st' = (inr (Some 5, 0), st').
Proof.
  cbv zeta.
  pose proof (closeBrowser_then_launchBrowser stuckContexts
                (mkState (Some 5) (Some 0) [Launch "/home/me/chrome"]) 5 0
                eq_refl eq_refl ltac:(discriminate)) as H.
  cbv zeta in H. destruct H as (_ & _ & He & Hl).
  split; [exact He | exact Hl].
Defined.

(** X26: a persistent context is never reused.  When [context.browser()]
    gives no browser, as for the contexts [launchPersistentContext] makes,
    every call of [createPage] asks Playwright for a new context, and
    leaves the variable [browser] empty for the next call to do the same. *)
Theorem createPage_never_reuses_a_persistent_context (pw : Playwright)
    (st : State) :
  (forall c, browserOf pw c = None) ->
  chromeProfilePath pw <> EmptyString ->
  browser st = None ->
  let st' := snd (createPage pw st) in
  called isLaunch st' = S (called isLaunch st) /\ browser st' = None.
Proof.
  intros Hnone Hp Hb. cbv zeta. unfold createPage.
  destruct (launchBrowser_launches pw st Hp (or_introl Hb))
    as (Hl & _ & Hr).
  destruct (launchBrowser pw st) as [[e|[b c]] st1]; cbn [fst snd] in *.
  - split; [exact Hl | destruct Hr as [-> _]; exact Hb].
  - destruct Hr as (-> & Hb1 & _). rewrite called_record. cbn [isLaunch].
    rewrite Nat.add_0_r. split; [exact Hl|].
    unfold record. cbn [browser]. rewrite Hb1. apply Hnone.
Qed.

Lemma createPage_never_reuses_a_persistent_context_witness :
  called isLaunch
    (snd (createPage persistentOnly
            (snd (createPage persistentOnly notLaunched)))) = 2.
Proof.
  destruct (createPage_never_reuses_a_persistent_context persistentOnly
              notLaunched (fun _ => eq_refl) ltac:(discriminate) eq_refl)
    as [H1 Hb].
  destruct (createPage_never_reuses_a_persistent_context persistentOnly
              (snd (createPage persistentOnly notLaunched))
              (fun _ => eq_refl) ltac:(discriminate) Hb) as [H2 _].
  rewrite H2, H1. reflexivity.
Defined.

(** *** The launcher on a concrete Playwright *)

(** Two pages from persistent contexts: two launches, two contexts, and
    [closeBrowser] closes the second only. *)
Example two_pages_two_launches :
  let st := snd (createPage persistentOnly
                   (snd (createPage persistentOnly notLaunched))) in
  events st
  = [Launch "/home/me/chrome"; NewPage 0; Launch "/home/me/chrome";
     NewPage 1] /\
  events (closeBrowser persistentOnly st) = events st ++ [CloseContext 1].
Proof. vm_compute. repeat split. Qed.

End LauncherFacts.
